(** * Tablet replica clone: a shallow embedding of [EngineCloneTask]

    Source: [be/src/olap/task/engine_clone_task.cpp].

    The clone task talks to many collaborators that live outside this
    file (tablet manager, local file system, HTTP client, thrift RPC).
    They are modelled as operations on an abstract world [W]; every
    call the task issues is also appended to a trace of [Event]s, so
    that statements such as "no snapshot RPC is made" or "the staging
    directory is removed on every exit path" are statements about the
    trace that hold for every behaviour of the collaborators. Where a
    statement is about what is handed to a collaborator, it names the
    operation with its arguments, as an equation between runs. *)

From Stdlib Require Import ZArith Lia Ascii String.
From stdpp Require Import base list strings pretty.

Local Open Scope string_scope.
Local Open Scope list_scope.
Local Open Scope Z_scope.

(** ** Status values ([common/status.h]) *)

Inductive ErrorCode : Type :=
| INTERNAL_ERROR
| EXCEEDED_LIMIT
| IO_ERROR
| NOT_FOUND
| TRY_LOCK_FAILED
| OTHER_ERROR (n : Z).

(** Arguments handed to a [fmt]-style message. The formatter itself is
    not part of the task; a message is kept as its format string and
    its arguments. *)
Inductive FmtArg : Type :=
| AInt (z : Z)
| AStr (s : string)
| AVersion (first second : Z).

Inductive Status : Type :=
| OK
| Error (code : ErrorCode) (msg : string) (args : list FmtArg).

Definition ok (s : Status) : bool :=
  match s with OK => true | Error _ _ _ => false end.

Definition InternalError (msg : string) (args : list FmtArg) : Status :=
  Error INTERNAL_ERROR msg args.

(** [std::string::ends_with]. *)
Definition ends_with (s suffix : string) : bool :=
  (String.length suffix <=? String.length s)%nat &&
  String.eqb
    (String.substring (String.length s - String.length suffix)
               (String.length suffix) s)
    suffix.

(** The [Version] pair of [olap_common.h]: [first] and [second]. *)
Definition Version : Type := (Z * Z)%type.

(** ** Moving the header file to the end of the listing

    Both [_download_files] (over names) and [_batch_download_files]
    (over name/size pairs) run the same loop:
<<
    for (int i = 0; i + 1 < list.size(); ++i)
        if (list[i].ends_with(".hdr")) { swap(list[i], list[size-1]); break; }
>> *)
Module HdrLast.
Section Generic.
Context {A : Type} (name : A -> string).

Definition is_hdr (x : A) : bool := ends_with (name x) ".hdr".

(** [std::swap(v[i], v[j])] for in-range indices. *)
Definition swap (v : list A) (i j : nat) : list A :=
  match v !! i, v !! j with
  | Some x, Some y => <[j:=x]> (<[i:=y]> v)
  | _, _ => v
  end.

(** [k] is the number of iterations left, [size - 1 - i]. *)
Fixpoint hdr_loop (k i : nat) (v : list A) : list A :=
  match k with
  | O => v
  | S k' =>
      match v !! i with
      | Some x =>
          if is_hdr x then swap v i (length v - 1)
          else hdr_loop k' (S i) v
      | None => v
      end
  end.

Definition move_hdr_last (v : list A) : list A :=
  hdr_loop (length v - 1) 0 v.
End Generic.
End HdrLast.

(** ** Machine integers

    [uint64_t]/[size_t] values are kept as [Z]; every operation that
    can leave the range writes its wrap-around out. *)
Definition two64 : Z := 2 ^ 64.

(** Conversion of an integer operand to [uint64_t]. *)
Definition to_u64 (z : Z) : Z := z mod two64.

(** Conversion of a [uint64_t] to [int64_t]. *)
Definition to_i64 (z : Z) : Z :=
  let r := z mod two64 in if r <? 2 ^ 63 then r else r - two64.

Definition u64_add (a b : Z) : Z := to_u64 (a + b).
Definition u64_mul (a b : Z) : Z := to_u64 (a * b).

(** Unsigned division; [None] when the divisor is zero (undefined
    behaviour in the source). *)
Definition u64_div (a b : Z) : option Z :=
  if b =? 0 then None else Some (a / b).

(** ** Requests and replies (thrift structs, the fields the task uses) *)

Record TBackend : Type := {
  host : string;
  be_port : Z;
  http_port : Z
}.

Record TCloneReq : Type := {
  tablet_id : Z;
  schema_hash : Z;
  replica_id : Z;
  table_id : Z;
  partition_id : Z;
  version : Z;
  isset_version : bool;
  src_backends : list TBackend;
  timeout_s : Z;
  isset_timeout_s : bool;
  storage_medium : Z;
  dest_path_hash : Z
}.

Record TSnapshotRequest : Type := {
  sr_tablet_id : Z;
  sr_schema_hash : Z;
  sr_preferred_snapshot_version : Z;
  sr_version : Z;
  sr_is_copy_binlog : bool;
  sr_isset_missing_version : bool;
  sr_missing_version : list Z;
  sr_timeout : option Z
}.

(** [TAgentResult]: [ar_status] is [Status::create(result.status)],
    which is [OK] exactly when [status_code == TStatusCode::OK]. *)
Record TAgentResult : Type := {
  ar_status : Status;
  ar_snapshot_path : option string;
  ar_allow_incremental_clone : option bool
}.

Record TTabletInfo : Type := {
  ti_tablet_id : Z;
  ti_replica_id : Z;
  ti_schema_hash : Z;
  ti_version : Z
}.

Inductive TabletState : Type :=
| TABLET_NOTREADY | TABLET_RUNNING | TABLET_TOMBSTONED | TABLET_STOPPED | TABLET_SHUTDOWN.

(** ** Calls to collaborators, as they appear in the trace *)
Inductive Event : Type :=
| EvRegisterTransition (tablet : Z)
| EvUnregisterTransition (tablet : Z)
| EvDropTablet (tablet replica : Z)
| EvSetReplicaId (replica : Z)
| EvObtainShardPath
| EvLoadTabletFromDir (dir : string)
| EvReportTabletInfo (tablet : Z)
| EvUpdatePartitionsVisibleVersion (partition ver : Z)
| EvMakeSnapshot (h : string) (port : Z) (req : TSnapshotRequest)
| EvReleaseSnapshot (h : string) (port : Z) (snapshot_path : string)
| EvIsSupportBatchDownload (address : string)
| EvConvertRowsetIds (dir : string)
| EvDeleteDirectory (path : string)
| EvCreateDirectory (path : string)
| EvDeleteTabletParentPathIfEmpty (path : string)
| EvExists (path : string)
| EvDeleteFile (path : string)
| EvFileSize (path : string)
| EvListDir (path : string)
| EvMd5sum (path : string)
| EvLinkFile (from to : string) (result : Status)
| EvBatchDelete (paths : list string)
| EvRemoveAll (path : string)
| EvHttpList (url : string)
| EvHttpHead (url : string)
| EvHttpDownload (url local_file : string) (timeout_ms file_size : Z)
| EvListRemoteFilesV2 (address remote_dir : string)
| EvDownloadFilesV2 (address remote_dir local_dir : string) (files : list (string * Z))
| EvCreateFromFile (path : string)
| EvReadPb (path : string)
| EvIngestBinlogMetas
| EvCreateRowset
| EvSetCooldownMetaId
| EvMergeDeleteBitmap
| EvReviseTabletMeta (n_add n_delete : nat) (is_incremental : bool)
| EvSetCumulativeLayerPoint (point : Z).

(** Events that talk to a source backend: snapshot RPCs and file
    transfer requests. *)
Definition is_peer_event (e : Event) : bool :=
  match e with
  | EvMakeSnapshot _ _ _ | EvReleaseSnapshot _ _ _ | EvIsSupportBatchDownload _
  | EvHttpList _ | EvHttpHead _ | EvHttpDownload _ _ _ _
  | EvListRemoteFilesV2 _ _ | EvDownloadFilesV2 _ _ _ _ => true
  | _ => false
  end.

(** ** Outcomes and the task monad

    A call either returns, unwinds with a C++ exception ([Throw]; the
    scope guards still run), or stops the process ([Crash]; nothing
    runs afterwards). *)
Inductive Outcome (A : Type) : Type :=
| Ret (a : A)
| Throw (what : string)
| Crash (what : string).
Arguments Ret {A} a.
Arguments Throw {A} what.
Arguments Crash {A} what.

Section Monad.
Context {S : Type}.

Definition M (A : Type) : Type := S -> Outcome A * S.

Definition ret {A} (a : A) : M A := fun s => (Ret a, s).

Definition bind {A B} (m : M A) (k : A -> M B) : M B :=
  fun s =>
    match m s with
    | (Ret a, s') => k a s'
    | (Throw e, s') => (Throw e, s')
    | (Crash e, s') => (Crash e, s')
    end.

(** [RETURN_IF_ERROR(stmt); rest] *)
Definition return_if_error (m : M Status) (k : M Status) : M Status :=
  bind m (fun s => if ok s then k else ret s).

(** The same for a call that also fills an out-parameter. *)
Definition return_if_error_with {A} (m : M (Status * A)) (k : A -> M Status)
  : M Status :=
  bind m (fun sa => if ok (fst sa) then k (snd sa) else ret (fst sa)).

(** [Defer guard {cleanup}; body]: the guard's destructor runs when
    the scope is left by a return or by an exception. *)
Definition defer {A} (cleanup : S -> S) (body : M A) : M A :=
  fun s =>
    match body s with
    | (Ret a, s') => (Ret a, cleanup s')
    | (Throw e, s') => (Throw e, cleanup s')
    | (Crash e, s') => (Crash e, s')
    end.
End Monad.

Declare Scope task_scope.
Delimit Scope task_scope with task.
Notation "x <- m ;; k" := (bind m (fun x => k))
  (at level 100, m at next level, right associativity) : task_scope.
Notation "'RETURN_IF_ERROR' m ;; k" := (return_if_error m k)
  (at level 100, m at next level, right associativity) : task_scope.
Notation "'RETURN_IF_ERROR' m 'AS' x ;; k" := (return_if_error_with m (fun x => k))
  (at level 100, m at next level, x name, right associativity) : task_scope.

(** [Result<T>] of [common/status.h]. *)
Inductive Result (A : Type) : Type :=
| Val (a : A)
| ResultError (s : Status).
Arguments Val {A} a.
Arguments ResultError {A} s.

(** ** The collaborators

    Everything the task calls but does not define: tablet manager,
    storage engine, tablet, cloned tablet meta, snapshot manager,
    local file system, HTTP client, thrift client and the [config]
    values. A call that fills an out-parameter returns it next to its
    [Status]. Locks are not modelled, except the [try_to_lock] of the
    migration lock, whose outcome the task branches on. *)
Class Collaborators : Type := {
  W : Type;
  Tablet : Type;
  DataDir : Type;
  TabletMeta : Type;
  RowsetMeta : Type;
  Rowset : Type;
  UniqueId : Type;
  PendingRowsetGuards : Type;
  RowsetBinlogMetasPB : Type;
  (* config and cluster info; their declarations are outside the file *)
  enable_batch_download : bool;
  download_low_speed_limit_kbps : Z;
  download_low_speed_time : Z;
  token : string;
  TPREFER_SNAPSHOT_REQ_VERSION : Z;
  HTTP_REQUEST_PREFIX : string;
  HTTP_REQUEST_TOKEN_PARAM : string;
  HTTP_REQUEST_FILE_PARAM : string;
  CLONE_PREFIX : string;
  K_INVALID_CUMULATIVE_POINT : Z;
  construct_header_file_path : string -> Z -> string;
  (* debug points *)
  debug_failed_clone : W -> bool;
  (* tablet manager and storage engine *)
  register_transition_tablet : Z -> W -> Status * W;
  unregister_transition_tablet : Z -> W -> W;
  get_tablet : Z -> W -> option Tablet;
  drop_tablet : Z -> Z -> W -> Status * W;
  load_tablet_from_dir : DataDir -> Z -> Z -> string -> W -> Status * W;
  report_tablet_info : TTabletInfo -> W -> (Status * TTabletInfo) * W;
  update_partitions_visible_version : Z -> Z -> W -> W;
  get_pending_publish_min_version : Z -> W -> Z;
  obtain_shard_path : Z -> Z -> Z -> W -> (Status * (string * DataDir)) * W;
  convert_rowset_ids :
    string -> Z -> Z -> Z -> Z -> Z -> W -> Result PendingRowsetGuards * W;
  (* tablet *)
  tablet_state : Tablet -> W -> TabletState;
  tablet_tablet_id : Tablet -> W -> Z;
  tablet_replica_id : Tablet -> W -> Z;
  tablet_path : Tablet -> W -> string;
  tablet_data_dir : Tablet -> W -> DataDir;
  try_lock_migration : Tablet -> W -> bool;
  set_replica_id : Tablet -> Z -> W -> W;
  enable_unique_key_merge_on_write : Tablet -> W -> bool;
  get_missed_versions : Tablet -> Z -> W -> list Version;
  get_missed_versions_unlocked : Tablet -> Z -> W -> list Version;
  rowset_map : Tablet -> W -> list (Version * Rowset);
  cooldown_replica_id : Tablet -> W -> Z;
  set_cooldown_meta_id : Tablet -> UniqueId -> W -> W;
  merge_delete_bitmap : Tablet -> TabletMeta -> W -> W;
  create_rowset : Tablet -> RowsetMeta -> W -> (Status * Rowset) * W;
  revise_tablet_meta :
    Tablet -> list Rowset -> list Rowset -> bool -> W -> Status * W;
  set_cumulative_layer_point : Tablet -> Z -> W -> W;
  ingest_binlog_metas : Tablet -> RowsetBinlogMetasPB -> W -> Status * W;
  gen_uid : W -> UniqueId * W;
  (* cloned tablet meta *)
  create_from_file : string -> W -> (Status * TabletMeta) * W;
  max_version : TabletMeta -> Version;
  all_rs_metas : TabletMeta -> list RowsetMeta;
  cooldown_meta_id : TabletMeta -> UniqueId;
  acquire_rs_meta_by_version : TabletMeta -> Version -> option RowsetMeta;
  (* data dir *)
  reach_capacity_limit : DataDir -> Z -> W -> bool;
  data_dir_path : DataDir -> string;
  (* local file system *)
  fs_exists : string -> W -> (Status * bool) * W;
  fs_delete_directory : string -> W -> Status * W;
  fs_create_directory : string -> W -> Status * W;
  fs_delete_file : string -> W -> Status * W;
  fs_file_size : string -> W -> (option string * Z) * W;
  fs_list : string -> W -> (Status * list string) * W;
  fs_md5sum : string -> W -> (Status * string) * W;
  fs_link_file : string -> string -> W -> Status * W;
  fs_batch_delete : list string -> W -> Status * W;
  fs_remove_all : string -> W -> W;
  delete_tablet_parent_path_if_empty : string -> W -> Status * W;
  read_pb : string -> W -> (Status * RowsetBinlogMetasPB) * W;
  empty_binlog_metas_pb : RowsetBinlogMetasPB;
  (* the order in which a [std::unordered_set<std::string>] built from
     the given names is traversed *)
  unordered_set_order : list string -> list string;
  (* HTTP client, each call being one [execute_with_retry] *)
  http_list_files : string -> W -> (Status * string) * W;
  http_get_file_size : string -> W -> (Status * Z) * W;
  http_download : string -> string -> Z -> Z -> W -> Status * W;
  is_support_batch_download : string -> W -> Status * W;
  list_remote_files_v2 :
    string -> string -> string -> W -> (Status * list (string * Z)) * W;
  download_files_v2 :
    string -> string -> string -> string -> list (string * Z) -> W -> Status * W;
  get_host_port : string -> Z -> string;
  watch_elapsed_time : W -> Z * W;
  (* thrift client *)
  rpc_make_snapshot :
    string -> Z -> TSnapshotRequest -> W -> (Status * TAgentResult) * W;
  rpc_release_snapshot : string -> Z -> string -> W -> (Status * TAgentResult) * W
}.

Section Task.
Context `{C : Collaborators}.

(** The task's own fields together with the world and the trace. *)
Record St : Type := {
  world : W;
  trace : list Event;
  _pending_rs_guards : option PendingRowsetGuards;
  _copy_size : Z;
  _copy_time_ms : Z;
  _is_new_tablet : bool;
  _tablet_infos : list TTabletInfo
}.

Definition with_world (s : St) (w : W) (e : list Event) : St :=
  {| world := w; trace := trace s ++ e;
     _pending_rs_guards := _pending_rs_guards s;
     _copy_size := _copy_size s; _copy_time_ms := _copy_time_ms s;
     _is_new_tablet := _is_new_tablet s; _tablet_infos := _tablet_infos s |}.

(** A call that returns a value and may change the world. *)
Definition call {A} (e : Event) (op : W -> A * W) : M (S:=St) A :=
  fun s => let '(a, w) := op (world s) in (Ret a, with_world s w [e]).

(** A call that is logged together with what it returned. *)
Definition call_logged {A} (e : A -> Event) (op : W -> A * W) : M (S:=St) A :=
fun s => let '(a, w) := op (world s) in (Ret a, with_world s w [e a]).

(** A call whose result is dropped. *)
Definition call_void (e : Event) (op : W -> W) : St -> St :=
  fun s => with_world s (op (world s)) [e].

(** Reading the world without a call that could change it. *)
Definition read {A} (f : W -> A) : M (S:=St) A :=
  fun s => (Ret (f (world s)), s).

Definition do_ (f : St -> St) : M (S:=St) unit := fun s => (Ret tt, f s).
End Task.

Local Open Scope task_scope.

(** ** Per-file timeout ([_download_files], lines 593-596)
<<
    uint64_t estimate_timeout = file_size / config::download_low_speed_limit_kbps / 1024;
    if (estimate_timeout < config::download_low_speed_time)
        estimate_timeout = config::download_low_speed_time;
>>
    The two config operands are converted to [uint64_t] by the usual
    arithmetic conversions. [None] is the division by zero. *)
Definition estimate_timeout (low_speed_limit_kbps low_speed_time file_size : Z)
  : option Z :=
  match u64_div file_size (to_u64 low_speed_limit_kbps) with
  | None => None
  | Some q =>
      let estimate := q / 1024 in
      Some (if estimate <? to_u64 low_speed_time
            then to_u64 low_speed_time else estimate)
  end.

(** [absl::StrSplit(s, "\n", absl::SkipWhitespace())] *)
Fixpoint str_split (sep : ascii) (s : string) : list string :=
  match s with
  | EmptyString => [EmptyString]
  | String c s' =>
      if Ascii.eqb c sep then EmptyString :: str_split sep s'
      else match str_split sep s' with
           | [] => [String c EmptyString]
           | p :: ps => String c p :: ps
           end
  end.

Definition ascii_isspace (c : ascii) : bool :=
  let n := nat_of_ascii c in
  (n =? 32)%nat || ((9 <=? n)%nat && (n <=? 13)%nat).

Fixpoint all_whitespace (s : string) : bool :=
  match s with
  | EmptyString => true
  | String c s' => ascii_isspace c && all_whitespace s'
  end.

Definition str_split_lines_skip_whitespace (s : string) : list string :=
  filter (fun p => all_whitespace p = false) (str_split "010"%char s).

(** ** Batch packing ([_batch_download_files], lines 681-706) *)
Definition BATCH_FILE_SIZE : Z := Z.shiftl 64 20.
Definition BATCH_FILE_NUM : Z := 64.

Definition FileInfo : Type := (string * Z)%type.

(** The inner [for (size_t j = i; j < total_files; j++)] loop. [rest]
    is [file_info_list[j..]], so [j + 1 == total_files] says that the
    tail of [rest] is empty. Returns [batch_files] and
    [batch_file_size]. *)
Fixpoint take_batch (rest : list FileInfo) (batch_files : list FileInfo)
  (batch_file_size : Z) : list FileInfo * Z :=
  match rest with
  | [] => (batch_files, batch_file_size)
  | f :: rest' =>
      if (BATCH_FILE_NUM <=? Z.of_nat (length batch_files))
         || (BATCH_FILE_SIZE <=? batch_file_size)
         || (bool_decide (rest' = []) && negb (bool_decide (batch_files = [])))
      then (batch_files, batch_file_size)
      else take_batch rest' (batch_files ++ [f]) (u64_add batch_file_size (snd f))
  end.

(** The batches the outer loop forms from [file_info_list[i..]] when
    no capacity check and no download stops it. [fuel] bounds the
    number of batches; [pack_batches] supplies enough of it. *)
Fixpoint pack_loop (fuel : nat) (remaining : list FileInfo)
  : list (list FileInfo) :=
  match fuel, remaining with
  | O, _ => []
  | _, [] => []
  | S fuel', _ =>
      let batch_files := fst (take_batch remaining [] 0) in
      batch_files :: pack_loop fuel' (drop (length batch_files) remaining)
  end.

Definition pack_batches (file_info_list : list FileInfo)
  : list (list FileInfo) :=
  pack_loop (length file_info_list) file_info_list.

(** [batch_file_size] as the source accumulates it. *)
Definition batch_size (b : list FileInfo) : Z :=
  foldl (fun acc f => u64_add acc (snd f)) 0 b.

Section Transfer.
Context `{C : Collaborators}.

Definition set_copy_stats (size time_ms : Z) (s : St) : St :=
  {| world := world s; trace := trace s;
     _pending_rs_guards := _pending_rs_guards s;
     _copy_size := size; _copy_time_ms := time_ms;
     _is_new_tablet := _is_new_tablet s; _tablet_infos := _tablet_infos s |}.

Definition capacity_error (data_dir : DataDir) (size : Z) : Status :=
  Error EXCEEDED_LIMIT "reach the capacity limit of path {}, file_size={}"
        [AStr (data_dir_path data_dir); AInt size].

(** The tail of both download functions: elapsed time and the two
    task fields. The copy rate is only logged. *)
Definition record_copy_stats (total_file_size : Z) : M (S:=St) Status :=
  fun s =>
    let '(elapsed, w) := watch_elapsed_time (world s) in
    let total_time_ms := to_u64 elapsed / 1000 / 1000 in
    (Ret OK, set_copy_stats (to_i64 total_file_size) (to_i64 total_time_ms)
               (with_world s w [])).

(** The body of [for (auto& file_name : file_name_list)]; the pair
    is the status the function returns with, if it is not [OK], and
    [total_file_size]. *)
Fixpoint download_loop (data_dir : DataDir) (remote_url_prefix local_path : string)
  (file_name_list : list string) (total_file_size : Z) : M (S:=St) (Status * Z) :=
  match file_name_list with
  | [] => ret (OK, total_file_size)
  | file_name :: rest =>
      let remote_file_url := remote_url_prefix +:+ file_name in
      head <- call (EvHttpHead remote_file_url) (http_get_file_size remote_file_url) ;;
      if negb (ok (fst head)) then ret (fst head, total_file_size) else
      let file_size := to_u64 (snd head) in
      full <- read (reach_capacity_limit data_dir file_size) ;;
      if (full : bool) then ret (capacity_error data_dir file_size, total_file_size) else
      let total_file_size := u64_add total_file_size file_size in
      match estimate_timeout download_low_speed_limit_kbps
              download_low_speed_time file_size with
      | None => fun s => (Crash "integer division by zero", s)
      | Some timeout =>
          let local_file_path := local_path +:+ "/" +:+ file_name in
          st <- call (EvHttpDownload remote_file_url local_file_path
                        (u64_mul timeout 1000) file_size)
                     (http_download remote_file_url local_file_path
                        (u64_mul timeout 1000) file_size) ;;
          if ok st
          then download_loop data_dir remote_url_prefix local_path rest total_file_size
          else ret (st, total_file_size)
      end
  end.

Definition _download_files (data_dir : DataDir)
  (remote_url_prefix local_path : string) : M (S:=St) Status :=
  RETURN_IF_ERROR call (EvDeleteDirectory local_path) (fs_delete_directory local_path) ;;
  RETURN_IF_ERROR call (EvCreateDirectory local_path) (fs_create_directory local_path) ;;
  RETURN_IF_ERROR call (EvHttpList remote_url_prefix) (http_list_files remote_url_prefix)
    AS file_list_str ;;
  let file_name_list :=
    HdrLast.move_hdr_last id (str_split_lines_skip_whitespace file_list_str) in
  r <- download_loop data_dir remote_url_prefix local_path file_name_list 0 ;;
  if ok (fst r) then record_copy_stats (snd r) else ret (fst r).

(** The outer [for (size_t i = 0; i < total_files;)] loop over
    [remaining = file_info_list[i..]]. *)
Fixpoint batch_loop (fuel : nat) (data_dir : DataDir)
  (address remote_dir local_dir : string) (remaining : list FileInfo)
  (total_file_size : Z) : M (S:=St) (Status * Z) :=
  match fuel, remaining with
  | O, _ => ret (OK, total_file_size)
  | _, [] => ret (OK, total_file_size)
  | S fuel', _ =>
      let '(batch_files, batch_file_size) := take_batch remaining [] 0 in
      full <- read (reach_capacity_limit data_dir batch_file_size) ;;
      if (full : bool)
      then ret (capacity_error data_dir batch_file_size, total_file_size) else
      st <- call (EvDownloadFilesV2 address remote_dir local_dir batch_files)
                 (download_files_v2 address token remote_dir local_dir batch_files) ;;
      if ok st
      then batch_loop fuel' data_dir address remote_dir local_dir
             (drop (length batch_files) remaining)
             (u64_add total_file_size batch_file_size)
      else ret (st, total_file_size)
  end.

Definition _batch_download_files (data_dir : DataDir)
  (address remote_dir local_dir : string) : M (S:=St) Status :=
  RETURN_IF_ERROR call (EvDeleteDirectory local_dir) (fs_delete_directory local_dir) ;;
  RETURN_IF_ERROR call (EvCreateDirectory local_dir) (fs_create_directory local_dir) ;;
  RETURN_IF_ERROR call (EvListRemoteFilesV2 address remote_dir)
                       (list_remote_files_v2 address token remote_dir)
    AS listed ;;
  let file_info_list :=
    HdrLast.move_hdr_last fst (map (fun f => (fst f, to_u64 (snd f))) listed) in
  r <- batch_loop (length file_info_list) data_dir address remote_dir local_dir
         file_info_list 0 ;;
  if ok (fst r) then record_copy_stats (snd r) else ret (fst r).
End Transfer.

(** ** Snapshot negotiation and the peer loop *)
Section Snapshot.
Context `{C : Collaborators}.
Variable _clone_req : TCloneReq.

Definition set_pending_rs_guards (g : PendingRowsetGuards) (s : St) : St :=
  {| world := world s; trace := trace s;
     _pending_rs_guards := Some g;
     _copy_size := _copy_size s; _copy_time_ms := _copy_time_ms s;
     _is_new_tablet := _is_new_tablet s; _tablet_infos := _tablet_infos s |}.

(** [std::string::back() == '/'] on a non-empty string. *)
Definition back_is_slash (p : string) : bool := ends_with p "/".

(** The out-parameters [snapshot_path] and [allow_incremental_clone]
    are returned next to the status. [snapshot_path->at(length - 1)]
    throws on an empty path. *)
Definition _make_snapshot (ip : string) (port : Z) (tablet_id schema_hash : Z)
  (timeout_s : Z) (missed_versions : list Version)
  (snapshot_path : string) (allow_incremental_clone : bool)
  : M (S:=St) (Status * (string * bool)) :=
  let request :=
    {| sr_tablet_id := tablet_id;
       sr_schema_hash := schema_hash;
       sr_preferred_snapshot_version := TPREFER_SNAPSHOT_REQ_VERSION;
       sr_version := version _clone_req;
       sr_is_copy_binlog := true;
       sr_isset_missing_version := true;
       sr_missing_version := map fst missed_versions;
       sr_timeout := if 0 <? timeout_s then Some timeout_s else None |} in
  r <- call (EvMakeSnapshot ip port request) (rpc_make_snapshot ip port request) ;;
  if negb (ok (fst r)) then ret (fst r, (snapshot_path, allow_incremental_clone)) else
  let result := snd r in
  if negb (ok (ar_status result))
  then ret (ar_status result, (snapshot_path, allow_incremental_clone)) else
  match ar_snapshot_path result with
  | None =>
      ret (InternalError "success snapshot request without snapshot path" [],
           (snapshot_path, allow_incremental_clone))
  | Some p =>
      if (String.length p =? 0)%nat
      then fun s => (Throw "std::out_of_range", s)
      else
        let p := if back_is_slash p then p else p +:+ "/" in
        let allow :=
          match ar_allow_incremental_clone result with
          | Some b => b
          | None => allow_incremental_clone
          end in
        ret (OK, (p, allow))
  end.

Definition _release_snapshot (ip : string) (port : Z) (snapshot_path : string)
  : M (S:=St) Status :=
  r <- call (EvReleaseSnapshot ip port snapshot_path)
            (rpc_release_snapshot ip port snapshot_path) ;;
  if negb (ok (fst r)) then ret (fst r) else ret (ar_status (snd r)).

(** The [Defer] of one peer attempt; a failure to release is logged
    only. *)
Definition release_guard (ip : string) (port : Z) (snapshot_path : string)
  : St -> St :=
  fun s => snd (_release_snapshot ip port snapshot_path s).

(** Local variables and out-parameters of
    [_make_and_download_snapshots]. *)
Record Locals : Type := {
  status : Status;
  src_host : TBackend;
  snapshot_path : string;
  allow_incremental_clone : bool
}.

Definition set_status (st : Status) (l : Locals) : Locals :=
  {| status := st; src_host := src_host l; snapshot_path := snapshot_path l;
     allow_incremental_clone := allow_incremental_clone l |}.

(** How one iteration of [for (auto&& src : _clone_req.src_backends)]
    ends: [Next] is [continue], [Stop] is [break] or [return] (the
    function then returns the [status] of the locals). *)
Inductive Step : Type :=
| Next (l : Locals)
| Stop (l : Locals).

Definition remote_dir_of (snapshot_path : string) : string :=
  if back_is_slash snapshot_path
  then snapshot_path +:+ pretty (tablet_id _clone_req) +:+ "/"
         +:+ pretty (schema_hash _clone_req) +:+ "/"
  else snapshot_path +:+ "/" +:+ pretty (tablet_id _clone_req) +:+ "/"
         +:+ pretty (schema_hash _clone_req) +:+ "/".

(** The download of one attempt, by the batch API when it is enabled
    and the peer supports it, file by file otherwise. *)
Definition transfer (data_dir : DataDir) (local_data_path : string)
  (src : TBackend) (snapshot_path : string) : M (S:=St) Status :=
  let remote_dir := remote_dir_of snapshot_path in
  let address := get_host_port (host src) (http_port src) in
  use_batch <-
    (if enable_batch_download
     then st <- call (EvIsSupportBatchDownload address)
                     (is_support_batch_download address) ;;
          ret (ok st)
     else ret false) ;;
  if (use_batch : bool)
  then _batch_download_files data_dir address remote_dir local_data_path
  else
    let remote_url_prefix :=
      "http://" +:+ address +:+ HTTP_REQUEST_PREFIX +:+ HTTP_REQUEST_TOKEN_PARAM
        +:+ token +:+ HTTP_REQUEST_FILE_PARAM +:+ remote_dir in
    _download_files data_dir remote_url_prefix local_data_path.

(** The part of an iteration that runs under the release guard. *)
Definition download_from (data_dir : DataDir) (local_data_path : string)
  (src : TBackend) (l : Locals) : M (S:=St) Step :=
  st <- transfer data_dir local_data_path src (snapshot_path l) ;;
  if negb (ok st) then ret (Next (set_status st l)) else
  r <- call (EvConvertRowsetIds local_data_path)
            (convert_rowset_ids local_data_path (tablet_id _clone_req)
               (replica_id _clone_req) (table_id _clone_req)
               (partition_id _clone_req) (schema_hash _clone_req)) ;;
  match r with
  | ResultError e => ret (Stop (set_status e l))
  | Val guards =>
      _ <- do_ (set_pending_rs_guards guards) ;;
      ret (Stop (set_status st l))
  end.

Definition attempt (data_dir : DataDir) (local_data_path : string)
  (timeout_s : Z) (missed_versions : list Version)
  (src : TBackend) (l : Locals) : M (S:=St) Step :=
  r <- _make_snapshot (host src) (be_port src) (tablet_id _clone_req)
         (schema_hash _clone_req) timeout_s missed_versions
         (snapshot_path l) (allow_incremental_clone l) ;;
  let l := {| status := fst r; src_host := src;
              snapshot_path := fst (snd r);
              allow_incremental_clone := snd (snd r) |} in
  if negb (ok (fst r)) then ret (Next l) else
  defer (release_guard (host src) (be_port src) (snapshot_path l))
        (download_from data_dir local_data_path src l).

Fixpoint peer_loop (data_dir : DataDir) (local_data_path : string)
  (timeout_s : Z) (missed_versions : list Version)
  (backends : list TBackend) (l : Locals) : M (S:=St) Locals :=
  match backends with
  | [] => ret l
  | src :: rest =>
      r <- attempt data_dir local_data_path timeout_s missed_versions src l ;;
      match r with
      | Next l => peer_loop data_dir local_data_path timeout_s missed_versions rest l
      | Stop l => ret l
      end
  end.

(** [src_host], [snapshot_path] and [allow_incremental_clone] come
    in with the caller's values and go out in the result. *)
Definition _make_and_download_snapshots (data_dir : DataDir)
  (local_data_path : string) (src_host0 : TBackend) (snapshot_path0 : string)
  (missed_versions : list Version) (allow_incremental_clone0 : bool)
  : M (S:=St) Locals :=
  let timeout_s := if isset_timeout_s _clone_req then timeout_s _clone_req else 0 in
  peer_loop data_dir local_data_path timeout_s missed_versions
    (src_backends _clone_req)
    {| status := OK; src_host := src_host0; snapshot_path := snapshot_path0;
       allow_incremental_clone := allow_incremental_clone0 |}.
End Snapshot.

(** ** The finish step: linking staged files and merging metadata *)
Section Finish.
Context `{C : Collaborators}.

(** [s.replace(s.size() - n, n, new_suffix)] *)
Definition replace_suffix (s : string) (n : nat) (new_suffix : string) : string :=
  String.substring 0 (String.length s - n) s +:+ new_suffix.

(** Returns the [Result] and the value of [*skip_link_file], which
    the caller initialises to [false]. *)
Definition check_dest_binlog_valid (tablet_dir clone_dir clone_file : string)
  : M (S:=St) (Result string * bool) :=
  let new_clone_file :=
    if ends_with clone_file ".binlog" then replace_suffix clone_file 7 ".dat"
    else if ends_with clone_file ".binlog-index"
         then replace_suffix clone_file 13 ".idx"
         else clone_file in
  let from := clone_dir +:+ "/" +:+ clone_file in
  let to := tablet_dir +:+ "/_binlog/" +:+ new_clone_file in
  e <- call (EvExists to) (fs_exists to) ;;
  if negb (ok (fst e)) then ret (ResultError (fst e), false) else
  if negb (snd e) then ret (Val to, false) else
  m1 <- call (EvMd5sum from) (fs_md5sum from) ;;
  if negb (ok (fst m1)) then ret (ResultError (fst m1), false) else
  m2 <- call (EvMd5sum to) (fs_md5sum to) ;;
  if negb (ok (fst m2)) then ret (ResultError (fst m2), false) else
  if String.eqb (snd m1) (snd m2) then ret (Val to, true)
  else ret (ResultError
              (InternalError
                 "binlog file already exist, but md5sum not equal. tablet_dir={}, clone_file={}"
                 [AStr tablet_dir; AStr clone_file]),
            false).

(** The first loop of [_finish_full_clone] over [tablet->rowset_map()]. *)
Fixpoint full_clone_scan (cloned_max_version : Version)
  (rowsets : list (Version * Rowset)) (to_delete : list Rowset)
  : Result (list Rowset) :=
  match rowsets with
  | [] => Val to_delete
  | (v, rs) :: rest =>
      if (fst v <=? snd cloned_max_version) && (snd v >? snd cloned_max_version)
      then ResultError
             (InternalError
                "version cross src latest. cloned_max_version={}, local_version={}"
                [AInt (snd cloned_max_version); AVersion (fst v) (snd v)])
      else if snd v <=? snd cloned_max_version
           then full_clone_scan cloned_max_version rest (to_delete ++ [rs])
           else full_clone_scan cloned_max_version rest to_delete
  end.

(** [for (auto& rs_meta : ...) { RETURN_IF_ERROR(create_rowset); push_back }] *)
Fixpoint create_rowsets (tablet : Tablet) (metas : list RowsetMeta)
  (acc : list Rowset) : M (S:=St) (Status * list Rowset) :=
  match metas with
  | [] => ret (OK, acc)
  | rs_meta :: rest =>
      r <- call EvCreateRowset (create_rowset tablet rs_meta) ;;
      if negb (ok (fst r)) then ret (fst r, acc)
      else create_rowsets tablet rest (acc ++ [snd r])
  end.

Definition _finish_full_clone (tablet : Tablet) (cloned_tablet_meta : TabletMeta)
  : M (S:=St) Status :=
  let cloned_max_version := max_version cloned_tablet_meta in
  rowsets <- read (rowset_map tablet) ;;
  match full_clone_scan cloned_max_version rowsets [] with
  | ResultError e => ret e
  | Val to_delete =>
      RETURN_IF_ERROR create_rowsets tablet (all_rs_metas cloned_tablet_meta) []
        AS to_add ;;
      cooldown_replica <- read (cooldown_replica_id tablet) ;;
      my_replica <- read (tablet_replica_id tablet) ;;
      _ <- (if cooldown_replica =? my_replica
            then fun s =>
                   let '(uid, w) := gen_uid (world s) in
                   (Ret tt, with_world s (set_cooldown_meta_id tablet uid w)
                              [EvSetCooldownMetaId])
            else do_ (call_void EvSetCooldownMetaId
                        (set_cooldown_meta_id tablet
                           (cooldown_meta_id cloned_tablet_meta)))) ;;
      mow <- read (enable_unique_key_merge_on_write tablet) ;;
      _ <- (if (mow : bool)
            then do_ (call_void EvMergeDeleteBitmap
                        (merge_delete_bitmap tablet cloned_tablet_meta))
            else ret tt) ;;
      call (EvReviseTabletMeta (length to_add) (length to_delete) false)
           (revise_tablet_meta tablet to_add to_delete false)
  end.

(** The loop of [_finish_incremental_clone] over the missed versions. *)
Fixpoint rowsets_for_missed (tablet : Tablet) (cloned_tablet_meta : TabletMeta)
  (missed_versions : list Version) (rowsets_to_clone : list Rowset)
  : M (S:=St) (Status * list Rowset) :=
  match missed_versions with
  | [] => ret (OK, rowsets_to_clone)
  | v :: rest =>
      match acquire_rs_meta_by_version cloned_tablet_meta v with
      | None =>
          ret (InternalError "missed version {} is not found in cloned tablet meta"
                 [AVersion (fst v) (snd v)], rowsets_to_clone)
      | Some rs_meta =>
          r <- call EvCreateRowset (create_rowset tablet rs_meta) ;;
          if negb (ok (fst r)) then ret (fst r, rowsets_to_clone)
          else rowsets_for_missed tablet cloned_tablet_meta rest
                 (rowsets_to_clone ++ [snd r])
      end
  end.

Definition _finish_incremental_clone (tablet : Tablet)
  (cloned_tablet_meta : TabletMeta) (version : Z) : M (S:=St) Status :=
  missed_versions <- read (get_missed_versions_unlocked tablet version) ;;
  RETURN_IF_ERROR rowsets_for_missed tablet cloned_tablet_meta missed_versions []
    AS rowsets_to_clone ;;
  call (EvReviseTabletMeta (length rowsets_to_clone) 0 true)
       (revise_tablet_meta tablet rowsets_to_clone [] true).
(** State of the link loop: the variable [status] and
    [linked_success_files]; [returned] says that the function left
    through a [return status] inside the loop. *)
Record LinkState : Type := {
  returned : bool;
  link_status : Status;
  linked_success_files : list string
}.

(** [for (const std::string& clone_file : clone_file_names)] *)
Fixpoint link_loop (tablet_dir clone_dir : string) (contain_binlog : bool)
  (local_file_names : list string) (clone_file_names : list string)
  (status : Status) (linked : list string) : M (S:=St) LinkState :=
  match clone_file_names with
  | [] => ret {| returned := false; link_status := status;
                 linked_success_files := linked |}
  | clone_file :: rest =>
      if bool_decide (clone_file ∈ local_file_names)
      then link_loop tablet_dir clone_dir contain_binlog local_file_names rest
             status linked
      else
        let link (to : string) (skip_link_file : bool) : M (S:=St) LinkState :=
          if negb skip_link_file then
            let from := clone_dir +:+ "/" +:+ clone_file in
            st <- call_logged (EvLinkFile from to) (fs_link_file from to) ;;
            if negb (ok st)
            then ret {| returned := true; link_status := st;
                        linked_success_files := linked |}
            else link_loop tablet_dir clone_dir contain_binlog local_file_names
                   rest st (linked ++ [to])
          else link_loop tablet_dir clone_dir contain_binlog local_file_names
                 rest status linked in
        if ends_with clone_file ".binlog" || ends_with clone_file ".binlog-index"
        then
          if negb contain_binlog
          then (* break *)
            ret {| returned := false; link_status := status;
                   linked_success_files := linked |}
          else
            r <- check_dest_binlog_valid tablet_dir clone_dir clone_file ;;
            match fst r with
            | Val to => link to (snd r)
            | ResultError e =>
                ret {| returned := true; link_status := e;
                       linked_success_files := linked |}
            end
        else link (tablet_dir +:+ "/" +:+ clone_file) false
  end.

(** [Defer remove_linked_files]: reads [status] and
    [linked_success_files] when the scope is left. *)
Definition remove_linked_files (status : Status) (linked : list string)
  : St -> St :=
  fun s =>
    if negb (ok status)
    then let '(_, w) := fs_batch_delete linked (world s) in
         with_world s w [EvBatchDelete linked]
    else s.

(** Lines 811-880: what runs in the scope of [remove_linked_files].
    The result carries the status the function returns with and the
    files linked so far. *)
Definition link_and_merge_body (tablet : Tablet) (tablet_dir clone_dir : string)
  (contain_binlog : bool) (rowset_binlog_metas_pb : RowsetBinlogMetasPB)
  (cloned_tablet_meta : TabletMeta) (version : Z) (is_incremental_clone : bool)
  (local_file_names clone_file_names : list string) : M (S:=St) LinkState :=
  ls <- link_loop tablet_dir clone_dir contain_binlog local_file_names
          clone_file_names OK [] ;;
  if returned ls then ret ls else
  let linked := linked_success_files ls in
  let finish (status : Status) : M (S:=St) LinkState :=
    ret {| returned := true; link_status := status;
           linked_success_files := linked |} in
  let merge : M (S:=St) LinkState :=
    status <-
      (if is_incremental_clone
       then _finish_incremental_clone tablet cloned_tablet_meta version
       else _finish_full_clone tablet cloned_tablet_meta) ;;
    _ <- (if negb is_incremental_clone && ok status
          then do_ (call_void
                      (EvSetCumulativeLayerPoint K_INVALID_CUMULATIVE_POINT)
                      (set_cumulative_layer_point tablet
                         K_INVALID_CUMULATIVE_POINT))
          else ret tt) ;;
    finish status in
  if contain_binlog
  then status <- call EvIngestBinlogMetas
                      (ingest_binlog_metas tablet rowset_binlog_metas_pb) ;;
       if negb (ok status) then finish status else merge
  else merge.

(** Lines 800-880: the body under its guard. *)
Definition link_and_merge (tablet : Tablet) (tablet_dir clone_dir : string)
  (contain_binlog : bool) (rowset_binlog_metas_pb : RowsetBinlogMetasPB)
  (cloned_tablet_meta : TabletMeta) (version : Z) (is_incremental_clone : bool)
  (local_file_names clone_file_names : list string) : M (S:=St) Status :=
  fun s0 =>
    match link_and_merge_body tablet tablet_dir clone_dir contain_binlog
            rowset_binlog_metas_pb cloned_tablet_meta version is_incremental_clone
            local_file_names clone_file_names s0 with
    | (Ret ls, s) =>
        (Ret (link_status ls),
         remove_linked_files (link_status ls) (linked_success_files ls) s)
    | (Throw e, s) => (Throw e, s)
    | (Crash e, s) => (Crash e, s)
    end.

Definition _finish_clone (tablet : Tablet) (clone_dir : string) (version : Z)
  (is_incremental_clone : bool) : M (S:=St) Status :=
  defer (call_void (EvRemoveAll clone_dir) (fs_remove_all clone_dir))
    (RETURN_IF_ERROR call (EvExists clone_dir) (fs_exists clone_dir) AS exists_ ;;
     if negb exists_
     then ret (InternalError "clone dir not existed. clone_dir={}" [AStr clone_dir])
     else
     tablet_id <- read (tablet_tablet_id tablet) ;;
     let cloned_tablet_meta_file := clone_dir +:+ "/" +:+ pretty tablet_id +:+ ".hdr" in
     RETURN_IF_ERROR call (EvCreateFromFile cloned_tablet_meta_file)
                          (create_from_file cloned_tablet_meta_file)
       AS cloned_tablet_meta ;;
     RETURN_IF_ERROR call (EvDeleteFile cloned_tablet_meta_file)
                          (fs_delete_file cloned_tablet_meta_file) ;;
     tablet_dir <- read (tablet_path tablet) ;;
     let binlog_metas_file := clone_dir +:+ "/rowset_binlog_metas.pb" in
     RETURN_IF_ERROR call (EvExists binlog_metas_file) (fs_exists binlog_metas_file)
       AS binlog_metas_file_exists ;;
     RETURN_IF_ERROR
       (if (binlog_metas_file_exists : bool) then
          sz <- call (EvFileSize binlog_metas_file) (fs_file_size binlog_metas_file) ;;
          match fst sz with
          | Some ec_message =>
              ret (Error IO_ERROR "can't retrive file_size of {}, due to {}"
                     [AStr binlog_metas_file; AStr ec_message],
                   (false, empty_binlog_metas_pb))
          | None =>
              pb <- (if 0 <? to_u64 (snd sz)
                     then r <- call (EvReadPb binlog_metas_file)
                                    (read_pb binlog_metas_file) ;;
                          ret (fst r, (true, snd r))
                     else ret (OK, (false, empty_binlog_metas_pb))) ;;
              if negb (ok (fst pb)) then ret pb else
              del <- call (EvDeleteFile binlog_metas_file)
                          (fs_delete_file binlog_metas_file) ;;
              ret (del, snd pb)
          end
        else ret (OK, (false, empty_binlog_metas_pb)))
       AS binlog ;;
     let contain_binlog := fst binlog in
     let rowset_binlog_metas_pb := snd binlog in
     RETURN_IF_ERROR
       (if contain_binlog
        then call (EvCreateDirectory (tablet_dir +:+ "/_binlog"))
                  (fs_create_directory (tablet_dir +:+ "/_binlog"))
        else ret OK) ;;
     RETURN_IF_ERROR call (EvListDir clone_dir) (fs_list clone_dir) AS clone_files ;;
     let clone_file_names := unordered_set_order clone_files in
     RETURN_IF_ERROR call (EvListDir tablet_dir) (fs_list tablet_dir) AS local_files ;;
     link_and_merge tablet tablet_dir clone_dir contain_binlog
       rowset_binlog_metas_pb cloned_tablet_meta version is_incremental_clone
       local_files clone_file_names).
End Finish.

(** ** The coordinator *)
Section Coordinator.
Context `{C : Collaborators}.
Variable _clone_req : TCloneReq.
Variable _signature : Z.

Definition set_is_new_tablet (b : bool) (s : St) : St :=
  {| world := world s; trace := trace s;
     _pending_rs_guards := _pending_rs_guards s;
     _copy_size := _copy_size s; _copy_time_ms := _copy_time_ms s;
     _is_new_tablet := b; _tablet_infos := _tablet_infos s |}.

Definition push_tablet_info (ti : TTabletInfo) (s : St) : St :=
  {| world := world s; trace := trace s;
     _pending_rs_guards := _pending_rs_guards s;
     _copy_size := _copy_size s; _copy_time_ms := _copy_time_ms s;
     _is_new_tablet := _is_new_tablet s;
     _tablet_infos := _tablet_infos s ++ [ti] |}.

Definition _set_tablet_info : M (S:=St) Status :=
  let tablet_info :=
    {| ti_tablet_id := tablet_id _clone_req;
       ti_replica_id := replica_id _clone_req;
       ti_schema_hash := schema_hash _clone_req;
       ti_version := 0 |} in
  RETURN_IF_ERROR call (EvReportTabletInfo (tablet_id _clone_req))
                       (report_tablet_info tablet_info)
    AS tablet_info ;;
  if isset_version _clone_req && (ti_version tablet_info <? version _clone_req)
  then
    is_new <- (fun s => (Ret (_is_new_tablet s), s)) ;;
    _ <- (if (is_new : bool)
          then _ <- call (EvDropTablet (tablet_id _clone_req) (replica_id _clone_req))
                         (drop_tablet (tablet_id _clone_req) (replica_id _clone_req)) ;;
               ret tt
          else ret tt) ;;
    ret (InternalError "unexpected version. tablet version: {}, expected version: {}"
           [AInt (ti_version tablet_info); AInt (version _clone_req)])
  else
    _ <- do_ (push_tablet_info tablet_info) ;;
    ret OK.

Definition default_backend : TBackend :=
  {| host := ""; be_port := 0; http_port := 0 |}.

(** The branch for a tablet that exists locally (lines 208-259).
    The result is [Some st] when the function returns [st] from
    inside the branch, [None] when it falls through to the final
    [return _set_tablet_info()]. *)
Definition clone_existing (tablet : Tablet) : M (S:=St) (option Status) :=
  locked <- read (try_lock_migration tablet) ;;
  if negb locked
  then ret (Some (Error TRY_LOCK_FAILED
                    "EngineCloneTask::_do_clone meet try lock failed" []))
  else
  local_replica <- read (tablet_replica_id tablet) ;;
  _ <- (if local_replica <? replica_id _clone_req
        then do_ (call_void (EvSetReplicaId (replica_id _clone_req))
                    (set_replica_id tablet (replica_id _clone_req)))
        else ret tt) ;;
  tablet_dir <- read (tablet_path tablet) ;;
  let local_data_path := tablet_dir +:+ "/" +:+ CLONE_PREFIX in
  mow <- read (enable_unique_key_merge_on_write tablet) ;;
  tid <- read (tablet_tablet_id tablet) ;;
  min_pending_ver <- read (get_pending_publish_min_version tid) ;;
  let specified_version :=
    if (mow : bool) && (min_pending_ver - 1 <? version _clone_req)
    then min_pending_ver - 1 else version _clone_req in
  missed_versions <- read (get_missed_versions tablet specified_version) ;;
  if bool_decide (missed_versions = [])
  then
    st <- _set_tablet_info ;;
    if negb (ok st) then ret (Some st) else ret (Some OK)
  else
  data_dir <- read (tablet_data_dir tablet) ;;
  l <- _make_and_download_snapshots _clone_req data_dir local_data_path
         default_backend "" missed_versions false ;;
  if negb (ok (status l)) then ret (Some (status l)) else
  st <- _finish_clone tablet local_data_path specified_version
          (allow_incremental_clone l) ;;
  if negb (ok st) then ret (Some st) else ret None.

(** [Defer remove_useless_dir] of the new-tablet branch. *)
Definition remove_useless_dir (status : Status) (tablet_dir : string) : St -> St :=
  fun s =>
    if ok status then s
    else
      let '(_, w1) := fs_delete_directory tablet_dir (world s) in
      let s1 := with_world s w1 [EvDeleteDirectory tablet_dir] in
      let '(_, w2) := delete_tablet_parent_path_if_empty tablet_dir (world s1) in
      with_world s1 w2 [EvDeleteTabletParentPathIfEmpty tablet_dir].

(** The scope of [remove_useless_dir] (lines 287-319). The pair is
    the returned status ([None]: fall through) and the variable
    [status] that the guard reads. *)
Definition clone_new_body (store : DataDir) (tablet_dir : string)
  : M (S:=St) (option Status * Status) :=
  e <- call (EvExists tablet_dir) (fs_exists tablet_dir) ;;
  if negb (ok (fst e)) then ret (Some (fst e), OK) else
  del <- (if snd e
          then call (EvDeleteDirectory tablet_dir) (fs_delete_directory tablet_dir)
          else ret OK) ;;
  if negb (ok del) then ret (Some del, OK) else
  l <- _make_and_download_snapshots _clone_req store tablet_dir
         default_backend "" [] false ;;
  if negb (ok (status l)) then ret (Some (status l), status l) else
  ld <- call (EvLoadTabletFromDir tablet_dir)
             (load_tablet_from_dir store (tablet_id _clone_req)
                (schema_hash _clone_req) tablet_dir) ;;
  if negb (ok ld) then ret (Some ld, ld) else
  t <- read (get_tablet (tablet_id _clone_req)) ;;
  match t with
  | None =>
      let st := Error NOT_FOUND "tablet not found, tablet_id={}"
                  [AInt (tablet_id _clone_req)] in
      ret (Some st, st)
  | Some tablet =>
      _ <- do_ (call_void (EvSetReplicaId (replica_id _clone_req))
                  (set_replica_id tablet (replica_id _clone_req))) ;;
      let header_path := construct_header_file_path tablet_dir (tablet_id _clone_req) in
      d <- call (EvDeleteFile header_path) (fs_delete_file header_path) ;;
      if negb (ok d) then ret (Some d, ld) else ret (None, ld)
  end.

Definition clone_new : M (S:=St) (option Status) :=
  sp <- call EvObtainShardPath
             (obtain_shard_path (storage_medium _clone_req)
                (dest_path_hash _clone_req) (partition_id _clone_req)) ;;
  if negb (ok (fst sp)) then ret (Some (fst sp)) else
  let local_shard_root_path := fst (snd sp) in
  let store := snd (snd sp) in
  let tablet_dir := local_shard_root_path +:+ "/" +:+ pretty (tablet_id _clone_req)
                      +:+ "/" +:+ pretty (schema_hash _clone_req) in
  fun s0 =>
    match clone_new_body store tablet_dir s0 with
    | (Ret r, s) => (Ret (fst r), remove_useless_dir (snd r) tablet_dir s)
    | (Throw e, s) => (Throw e, remove_useless_dir OK tablet_dir s)
    | (Crash e, s) => (Crash e, s)
    end.

Definition _do_clone : M (S:=St) Status :=
  dbg <- read debug_failed_clone ;;
  if (dbg : bool)
  then ret (InternalError
              "in debug point, EngineCloneTask.failed_clone tablet={}, replica={}, version={}"
              [AInt (tablet_id _clone_req); AInt (replica_id _clone_req);
               AInt (version _clone_req)])
  else
  RETURN_IF_ERROR call (EvRegisterTransition (tablet_id _clone_req))
                       (register_transition_tablet (tablet_id _clone_req)) ;;
  defer (call_void (EvUnregisterTransition (tablet_id _clone_req))
           (unregister_transition_tablet (tablet_id _clone_req)))
    (tablet <- read (get_tablet (tablet_id _clone_req)) ;;
     dropped <-
       match tablet with
       | Some t =>
           state <- read (tablet_state t) ;;
           match state with
           | TABLET_NOTREADY =>
               tid <- read (tablet_tablet_id t) ;;
               rid <- read (tablet_replica_id t) ;;
               st <- call (EvDropTablet tid rid) (drop_tablet tid rid) ;;
               ret (st, None)
           | _ => ret (OK, Some t)
           end
       | None => ret (OK, None)
       end ;;
     if negb (ok (fst dropped)) then ret (fst dropped) else
     let tablet := snd dropped in
     _ <- do_ (set_is_new_tablet (bool_decide (tablet = None :> option Tablet))) ;;
     r <- match tablet with
          | Some t => clone_existing t
          | None => clone_new
          end ;;
     match r with
     | Some st => ret st
     | None => _set_tablet_info
     end).

Definition execute : M (S:=St) Status :=
  st <- _do_clone ;;
  _ <- do_ (call_void (EvUpdatePartitionsVisibleVersion (partition_id _clone_req)
                         (version _clone_req))
              (update_partitions_visible_version (partition_id _clone_req)
                 (version _clone_req))) ;;
  ret st.
End Coordinator.

(** ** A scripted world

    A small instance of the collaborators, used to run the task on
    concrete scenarios. Its world has no state: every reply is a
    function of the call's arguments, as the script prescribes. *)

(** Modelled from the spec: [Tablet::get_missed_versions] is not in the
    file. Section 3 calls a version missing when it is absent locally
    relative to the target [specified_version]; the versions between
    0 and the target that no local range covers are listed one by one. *)
Definition covered (rowsets : list Version) (v : Z) : bool :=
  existsb (fun r => (fst r <=? v) && (v <=? snd r)) rowsets.

Definition spec_missed_versions (rowsets : list Version) (specified_version : Z)
  : list Version :=
  map (fun v => (v, v))
      (filter (fun v => covered rowsets v = false)
              (map Z.of_nat (seq 0 (Z.to_nat (specified_version + 1))))).

(** Modelled from the spec: [TabletManager::report_tablet_info] is not
    in the file. Section 3 has one version chain without a gap from 0;
    the reported version is the end of that chain ([-1] when version 0
    is absent). [bound] limits the search. *)
Fixpoint chain_end (rowsets : list Version) (bound : nat) (v : Z) : Z :=
  match bound with
  | O => v
  | Datatypes.S bound' =>
      if covered rowsets (v + 1) then chain_end rowsets bound' (v + 1) else v
  end.

Definition spec_reported_version (rowsets : list Version) : Z :=
  chain_end rowsets (Z.to_nat (foldr (fun r m => Z.max (snd r + 1) m) 0 rowsets)) (-1).

Record Script : Type := {
  sc_batch : bool;
  sc_kbps : Z;
  sc_low_speed_time : Z;
  sc_local : option (list Version);
  sc_mow : bool;
  sc_min_pending : Z;
  sc_cloned : list Version;
  sc_snapshot : string -> TAgentResult;
  sc_listing : string -> string;
  sc_listing_v2 : string -> list FileInfo;
  sc_content_length : string -> Z;
  sc_capacity : Z;
  sc_exists : string -> bool;
  sc_dir : string -> list string;
  sc_link : string -> Status;
  sc_manifest_size : Z;
  sc_revise : Status
}.

Definition scripted (sc : Script) : Collaborators :=
  {| W := unit;
     Tablet := unit;
     DataDir := unit;
     TabletMeta := unit;
     RowsetMeta := Version;
     Rowset := Version;
     UniqueId := Z;
     PendingRowsetGuards := unit;
     RowsetBinlogMetasPB := unit;
     enable_batch_download := sc_batch sc;
     download_low_speed_limit_kbps := sc_kbps sc;
     download_low_speed_time := sc_low_speed_time sc;
     token := "t";
     TPREFER_SNAPSHOT_REQ_VERSION := 1;
     HTTP_REQUEST_PREFIX := "/api/_tablet/_download?";
     HTTP_REQUEST_TOKEN_PARAM := "token=";
     HTTP_REQUEST_FILE_PARAM := "&file=";
     CLONE_PREFIX := "clone";
     K_INVALID_CUMULATIVE_POINT := -1;
     construct_header_file_path := fun dir id => dir +:+ "/" +:+ pretty id +:+ ".hdr";
     debug_failed_clone := fun _ => false;
     register_transition_tablet := fun _ w => (OK, w);
     unregister_transition_tablet := fun _ w => w;
     get_tablet := fun _ _ => match sc_local sc with Some _ => Some tt | None => None end;
     drop_tablet := fun _ _ w => (OK, w);
     load_tablet_from_dir := fun _ _ _ _ w => (OK, w);
     report_tablet_info := fun ti w =>
       ((OK, {| ti_tablet_id := ti_tablet_id ti; ti_replica_id := ti_replica_id ti;
                ti_schema_hash := ti_schema_hash ti;
                ti_version := spec_reported_version
                                (match sc_local sc with Some r => r | None => sc_cloned sc end) |}),
        w);
     update_partitions_visible_version := fun _ _ w => w;
     get_pending_publish_min_version := fun _ _ => sc_min_pending sc;
     obtain_shard_path := fun _ _ _ w => ((OK, ("/data/shard", tt)), w);
     convert_rowset_ids := fun _ _ _ _ _ _ w => (Val tt, w);
     tablet_state := fun _ _ => TABLET_RUNNING;
     tablet_tablet_id := fun _ _ => 7;
     tablet_replica_id := fun _ _ => 1;
     tablet_path := fun _ _ => "/data/7";
     tablet_data_dir := fun _ _ => tt;
     try_lock_migration := fun _ _ => true;
     set_replica_id := fun _ _ w => w;
     enable_unique_key_merge_on_write := fun _ _ => sc_mow sc;
     get_missed_versions := fun _ v _ =>
       spec_missed_versions (match sc_local sc with Some r => r | None => [] end) v;
     get_missed_versions_unlocked := fun _ v _ =>
       spec_missed_versions (match sc_local sc with Some r => r | None => [] end) v;
     rowset_map := fun _ _ =>
       map (fun v => (v, v)) (match sc_local sc with Some r => r | None => [] end);
     cooldown_replica_id := fun _ _ => 0;
     set_cooldown_meta_id := fun _ _ w => w;
     merge_delete_bitmap := fun _ _ w => w;
     create_rowset := fun _ m w => ((OK, m), w);
     revise_tablet_meta := fun _ _ _ _ w => (sc_revise sc, w);
     set_cumulative_layer_point := fun _ _ w => w;
     ingest_binlog_metas := fun _ _ w => (OK, w);
     gen_uid := fun w => (0, w);
     create_from_file := fun _ w => ((OK, tt), w);
     max_version := fun _ =>
       foldr (fun r m => if snd m <? snd r then r else m) (-1, -1) (sc_cloned sc);
     all_rs_metas := fun _ => sc_cloned sc;
     cooldown_meta_id := fun _ => 0;
     acquire_rs_meta_by_version := fun _ v =>
       if existsb (fun r => (fst r =? fst v) && (snd r =? snd v)) (sc_cloned sc)
       then Some v else None;
     reach_capacity_limit := fun _ size _ => sc_capacity sc <? size;
     data_dir_path := fun _ => "/data";
     fs_exists := fun p w => ((OK, sc_exists sc p), w);
     fs_delete_directory := fun _ w => (OK, w);
     fs_create_directory := fun _ w => (OK, w);
     fs_delete_file := fun _ w => (OK, w);
     fs_file_size := fun _ w => ((None, sc_manifest_size sc), w);
     fs_list := fun p w => ((OK, sc_dir sc p), w);
     fs_md5sum := fun p w => ((OK, p), w);
     fs_link_file := fun _ to w => (sc_link sc to, w);
     fs_batch_delete := fun _ w => (OK, w);
     fs_remove_all := fun _ w => w;
     delete_tablet_parent_path_if_empty := fun _ w => (OK, w);
     read_pb := fun _ w => ((OK, tt), w);
     empty_binlog_metas_pb := tt;
     unordered_set_order := fun names => remove_dups names;
     http_list_files := fun url w => ((OK, sc_listing sc url), w);
     http_get_file_size := fun url w => ((OK, sc_content_length sc url), w);
     http_download := fun _ _ _ _ w => (OK, w);
     is_support_batch_download := fun _ w => (OK, w);
     list_remote_files_v2 := fun address _ _ w => ((OK, sc_listing_v2 sc address), w);
     download_files_v2 := fun _ _ _ _ _ w => (OK, w);
     get_host_port := fun h p => h +:+ ":" +:+ pretty p;
     watch_elapsed_time := fun w => (0, w);
     rpc_make_snapshot := fun h _ _ w => ((OK, sc_snapshot sc h), w);
     rpc_release_snapshot := fun _ _ _ w =>
       ((OK, {| ar_status := OK; ar_snapshot_path := None;
                ar_allow_incremental_clone := None |}), w)
  |}.

Definition initial_state `{C : Collaborators} (w : W) : St :=
  {| world := w; trace := []; _pending_rs_guards := None;
     _copy_size := 0; _copy_time_ms := 0;
     _is_new_tablet := false; _tablet_infos := [] |}.

(** ** Vocabulary of the statements *)
Section Vocabulary.
Context `{C : Collaborators}.

(** The run from [s] to [s'] only appended events, all satisfying [P]. *)
Definition appended (P : Event -> Prop) (s s' : St) : Prop :=
  exists new, trace s' = trace s ++ new /\ Forall P new.

(** The events appended between [s] and [s'], if [s'] extends [s]. *)
Definition new_events (s s' : St) : list Event :=
  drop (length (trace s)) (trace s').

(** [m] always returns, appends events only, and the result and the
    appended events satisfy [G]. *)
Definition runs {A} (G : A -> list Event -> Prop) (m : M (S:=St) A) : Prop :=
  forall s, exists a s' evs,
    m s = (Ret a, s') /\ trace s' = trace s ++ evs /\ G a evs.

(** The same when only the events matter. *)
Definition quietly {A} (P : Event -> Prop) (m : M (S:=St) A) : Prop :=
  runs (fun _ evs => Forall P evs) m.

Definition returns {A} (r : Outcome A * St) : Prop :=
  exists a, fst r = Ret a.
End Vocabulary.

(** What the packing guarantees for one batch: it is not empty, holds
    at most [BATCH_FILE_NUM] files, and each of its files was added
    while the accumulated size was still below [BATCH_FILE_SIZE]. *)
Definition batch_within_bounds (b : list FileInfo) : Prop :=
  b <> [] /\
  Z.of_nat (length b) <= BATCH_FILE_NUM /\
  forall k, (k < length b)%nat -> batch_size (take k b) < BATCH_FILE_SIZE.

Definition MiB : Z := 1048576.

(** The two listings of the spec's packing example: seven files of
    10 MiB each, and the same followed by a 1 MiB header. *)
Definition seven_files : list FileInfo :=
  map (fun i => ("0200000000000001_" +:+ pretty (Z.of_nat i) +:+ ".dat", 10 * MiB))
      (seq 0 7).

Definition seven_files_and_hdr : list FileInfo :=
  seven_files ++ [("7.hdr", 1 * MiB)].

(** The local rowsets that the full merge marks for deletion: those
    whose range ends at or below [M], in the order of the traversal. *)
Definition deleted_by_full_clone {R : Type} (M : Z) (rowsets : list (Version * R))
  : list R :=
  map snd (filter (fun x => snd (fst x) <= M) rowsets).

Definition crosses (M : Z) (v : Version) : Prop := fst v <= M < snd v.

Definition version_cross_error (M : Z) (v : Version) : Status :=
  InternalError "version cross src latest. cloned_max_version={}, local_version={}"
    [AInt M; AVersion (fst v) (snd v)].

Definition ok_snapshot (p : string) : TAgentResult :=
  {| ar_status := OK; ar_snapshot_path := Some p;
     ar_allow_incremental_clone := Some true |}.

(** Every path exists except the binlog manifest of the staging
    directory. *)
Definition no_manifest (p : string) : bool :=
  negb (String.eqb p "/data/7/clone/rowset_binlog_metas.pb").

(** A script with per-file transfer in which every call succeeds
    unless a parameter says otherwise. *)
Definition script (local : option (list Version)) (mow : bool) (min_pending : Z)
  (cloned : list Version) (content_length : string -> Z) (present : string -> bool)
  (staged : list string) (link : string -> Status) (revise : Status) : Script :=
  {| sc_batch := false; sc_kbps := 50; sc_low_speed_time := 300;
     sc_local := local; sc_mow := mow; sc_min_pending := min_pending;
     sc_cloned := cloned;
     sc_snapshot := fun h => ok_snapshot ("/snapshot/" +:+ h);
     sc_listing := fun _ => String.concat (String "010" EmptyString)
                              ["0200000000000001_0.dat"; "7.hdr"; ""];
     sc_listing_v2 := fun _ => [];
     sc_content_length := content_length;
     sc_capacity := 1000;
     sc_exists := present;
     sc_dir := fun p => if String.eqb p "/data/7/clone" then staged else [];
     sc_link := link;
     sc_manifest_size := 0;
     sc_revise := revise |}.

Definition clone_request (requested_version : Z) (peers : list string) : TCloneReq :=
  {| tablet_id := 7; schema_hash := 3; replica_id := 1; table_id := 1;
     partition_id := 2; version := requested_version; isset_version := true;
     src_backends := map (fun h => {| host := h; be_port := 9060; http_port := 8040 |})
                         peers;
     timeout_s := 0; isset_timeout_s := false;
     storage_medium := 0; dest_path_hash := 0 |}.

(** Scenario 3 of the spec: local [0-1], [2-10], [12-14]; the cloned
    header ends at version 13. *)
Definition version_cross_world : Collaborators :=
  scripted (script (Some [(0, 1); (2, 10); (12, 14)]) false 0 [(0, 13)]
              (fun _ => 10) no_manifest ["0200000000000001_0.dat"] (fun _ => OK) OK).

(** A world in which every collaborator succeeds: local [0-1], [2-5],
    the peers offer versions up to 7. *)
Definition plain_world : Collaborators :=
  scripted (script (Some [(0, 1); (2, 5)]) false 0
              [(0, 1); (2, 5); (6, 6); (7, 7)]
              (fun _ => 100) no_manifest ["0200000000000001_0.dat"] (fun _ => OK) OK).

(** Two peers; the file listed by peer A is larger than the free
    capacity, the one listed by peer B fits. *)
Definition capacity_world : Collaborators :=
  scripted (script (Some [(0, 1); (2, 5)]) false 0
              [(0, 1); (2, 5); (6, 6); (7, 7)]
              (fun url => if String.prefix "http://A" url then 5000 else 100)
              no_manifest ["0200000000000001_0.dat"] (fun _ => OK) OK).

Definition peer (h : string) : TBackend :=
  {| host := h; be_port := 9060; http_port := 8040 |}.

(** A request without candidate peers, in a world where nothing has
    been staged. *)
Definition nothing_staged_world : Collaborators :=
  scripted (script (Some [(0, 1); (2, 5)]) false 0
              [(0, 1); (2, 5); (6, 6); (7, 7)]
              (fun _ => 100) (fun p => negb (String.eqb p "/data/7/clone"))
              [] (fun _ => OK) OK).

(** ** Vocabulary of the cleanup statements *)

(** The destinations of the links that succeeded, in order. *)
Definition successful_links (evs : list Event) : list string :=
  omap (fun e => match e with
                 | EvLinkFile _ to r => if ok r then Some to else None
                 | _ => None
                 end) evs.

(** Neither a link nor a deletion of links or of the staging directory. *)
Definition quiet (e : Event) : Prop :=
  match e with
  | EvLinkFile _ _ _ | EvBatchDelete _ | EvRemoveAll _ => False
  | _ => True
  end.

Definition no_delete (e : Event) : Prop :=
  match e with
  | EvBatchDelete _ | EvRemoveAll _ => False
  | _ => True
  end.

Definition not_peer (e : Event) : Prop := is_peer_event e = false.

(** A staged binlog file and a staged data file, no binlog manifest. *)
Definition binlog_world : Collaborators :=
  scripted (script (Some [(0, 1); (2, 5)]) false 0
              [(0, 1); (2, 5); (6, 6); (7, 7)]
              (fun _ => 100) no_manifest
              ["0200000000000001_0.binlog"; "0200000000000002_0.dat"]
              (fun _ => OK) OK).

(** Scenario 1 of the spec: local [0-1], [2-5], [6-8]. *)
Definition covered_world : Collaborators :=
  scripted (script (Some [(0, 1); (2, 5); (6, 8)]) false 0
              [(0, 1); (2, 5); (6, 8)]
              (fun _ => 100) no_manifest ["0200000000000001_0.dat"] (fun _ => OK) OK).

(** A merge-on-write tablet with local [0-1], [2-4] whose versions
    from 5 on are pending publish. *)
Definition pending_publish_world : Collaborators :=
  scripted (script (Some [(0, 1); (2, 4)]) true 5
              [(0, 1); (2, 4)]
              (fun _ => 100) no_manifest ["0200000000000001_0.dat"] (fun _ => OK) OK).

(** The second link fails. *)
Definition link_failure_world : Collaborators :=
  scripted (script (Some [(0, 1); (2, 5)]) false 0
              [(0, 1); (2, 5); (6, 6); (7, 7)]
              (fun _ => 100) no_manifest
              ["0200000000000001_0.dat"; "0200000000000001_0.idx"]
              (fun to => if ends_with to ".idx"
                         then Error IO_ERROR "failed to link" [] else OK)
              OK).

(** ** More scripted worlds *)

(** What can additionally go wrong in a scripted world. *)
Record Faults : Type := {
  f_convert : Result unit;
  f_state : TabletState;
  f_delete_file : string -> Status;
  f_load : Status;
  f_header : Status
}.

Definition no_faults : Faults :=
  {| f_convert := Val tt; f_state := TABLET_RUNNING; f_delete_file := fun _ => OK;
     f_load := OK; f_header := OK |}.

(** The scripted world with some of its replies replaced. *)
Definition faulty (sc : Script) (f : Faults) : Collaborators :=
  let C := scripted sc in
  {| W := unit;
     Tablet := unit;
     DataDir := unit;
     TabletMeta := unit;
     RowsetMeta := Version;
     Rowset := Version;
     UniqueId := Z;
     PendingRowsetGuards := unit;
     RowsetBinlogMetasPB := unit;
     enable_batch_download := enable_batch_download (Collaborators:=C);
     download_low_speed_limit_kbps := download_low_speed_limit_kbps (Collaborators:=C);
     download_low_speed_time := download_low_speed_time (Collaborators:=C);
     token := token (Collaborators:=C);
     TPREFER_SNAPSHOT_REQ_VERSION := TPREFER_SNAPSHOT_REQ_VERSION (Collaborators:=C);
     HTTP_REQUEST_PREFIX := HTTP_REQUEST_PREFIX (Collaborators:=C);
     HTTP_REQUEST_TOKEN_PARAM := HTTP_REQUEST_TOKEN_PARAM (Collaborators:=C);
     HTTP_REQUEST_FILE_PARAM := HTTP_REQUEST_FILE_PARAM (Collaborators:=C);
     CLONE_PREFIX := CLONE_PREFIX (Collaborators:=C);
     K_INVALID_CUMULATIVE_POINT := K_INVALID_CUMULATIVE_POINT (Collaborators:=C);
     construct_header_file_path := construct_header_file_path (Collaborators:=C);
     debug_failed_clone := debug_failed_clone (Collaborators:=C);
     register_transition_tablet := register_transition_tablet (Collaborators:=C);
     unregister_transition_tablet := unregister_transition_tablet (Collaborators:=C);
     get_tablet := get_tablet (Collaborators:=C);
     drop_tablet := drop_tablet (Collaborators:=C);
     load_tablet_from_dir := fun _ _ _ _ w => (f_load f, w);
     report_tablet_info := report_tablet_info (Collaborators:=C);
     update_partitions_visible_version :=
       update_partitions_visible_version (Collaborators:=C);
     get_pending_publish_min_version :=
       get_pending_publish_min_version (Collaborators:=C);
     obtain_shard_path := obtain_shard_path (Collaborators:=C);
     convert_rowset_ids := fun _ _ _ _ _ _ w => (f_convert f, w);
     tablet_state := fun _ _ => f_state f;
     tablet_tablet_id := tablet_tablet_id (Collaborators:=C);
     tablet_replica_id := tablet_replica_id (Collaborators:=C);
     tablet_path := tablet_path (Collaborators:=C);
     tablet_data_dir := tablet_data_dir (Collaborators:=C);
     try_lock_migration := try_lock_migration (Collaborators:=C);
     set_replica_id := set_replica_id (Collaborators:=C);
     enable_unique_key_merge_on_write :=
       enable_unique_key_merge_on_write (Collaborators:=C);
     get_missed_versions := get_missed_versions (Collaborators:=C);
     get_missed_versions_unlocked := get_missed_versions_unlocked (Collaborators:=C);
     rowset_map := rowset_map (Collaborators:=C);
     cooldown_replica_id := cooldown_replica_id (Collaborators:=C);
     set_cooldown_meta_id := set_cooldown_meta_id (Collaborators:=C);
     merge_delete_bitmap := merge_delete_bitmap (Collaborators:=C);
     create_rowset := create_rowset (Collaborators:=C);
     revise_tablet_meta := revise_tablet_meta (Collaborators:=C);
     set_cumulative_layer_point := set_cumulative_layer_point (Collaborators:=C);
     ingest_binlog_metas := ingest_binlog_metas (Collaborators:=C);
     gen_uid := gen_uid (Collaborators:=C);
     create_from_file := fun _ w => ((f_header f, tt), w);
     max_version := max_version (Collaborators:=C);
     all_rs_metas := all_rs_metas (Collaborators:=C);
     cooldown_meta_id := cooldown_meta_id (Collaborators:=C);
     acquire_rs_meta_by_version := acquire_rs_meta_by_version (Collaborators:=C);
     reach_capacity_limit := reach_capacity_limit (Collaborators:=C);
     data_dir_path := data_dir_path (Collaborators:=C);
     fs_exists := fs_exists (Collaborators:=C);
     fs_delete_directory := fs_delete_directory (Collaborators:=C);
     fs_create_directory := fs_create_directory (Collaborators:=C);
     fs_delete_file := fun p w => (f_delete_file f p, w);
     fs_file_size := fs_file_size (Collaborators:=C);
     fs_list := fs_list (Collaborators:=C);
     fs_md5sum := fs_md5sum (Collaborators:=C);
     fs_link_file := fs_link_file (Collaborators:=C);
     fs_batch_delete := fs_batch_delete (Collaborators:=C);
     fs_remove_all := fs_remove_all (Collaborators:=C);
     delete_tablet_parent_path_if_empty :=
       delete_tablet_parent_path_if_empty (Collaborators:=C);
     read_pb := read_pb (Collaborators:=C);
     empty_binlog_metas_pb := tt;
     unordered_set_order := unordered_set_order (Collaborators:=C);
     http_list_files := http_list_files (Collaborators:=C);
     http_get_file_size := http_get_file_size (Collaborators:=C);
     http_download := http_download (Collaborators:=C);
     is_support_batch_download := is_support_batch_download (Collaborators:=C);
     list_remote_files_v2 := list_remote_files_v2 (Collaborators:=C);
     download_files_v2 := download_files_v2 (Collaborators:=C);
     get_host_port := get_host_port (Collaborators:=C);
     watch_elapsed_time := watch_elapsed_time (Collaborators:=C);
     rpc_make_snapshot := rpc_make_snapshot (Collaborators:=C);
     rpc_release_snapshot := rpc_release_snapshot (Collaborators:=C)
  |}.

Definition plain_script : Script :=
  script (Some [(0, 1); (2, 5)]) false 0 [(0, 1); (2, 5); (6, 6); (7, 7)]
    (fun _ => 100) no_manifest ["0200000000000001_0.dat"] (fun _ => OK) OK.

(** The rowset ids of the download cannot be rewritten. *)
Definition convert_failure_world : Collaborators :=
  faulty plain_script
    {| f_convert := ResultError (InternalError "convert rowset id failed" []);
       f_state := TABLET_RUNNING; f_delete_file := fun _ => OK;
       f_load := OK; f_header := OK |}.

(** Peer A answers [make_snapshot] with an [OK] status and an empty
    snapshot path. *)
Definition empty_path_script : Script :=
  {| sc_batch := false; sc_kbps := 50; sc_low_speed_time := 300;
     sc_local := Some [(0, 1); (2, 5)]; sc_mow := false; sc_min_pending := 0;
     sc_cloned := [(0, 1); (2, 5); (6, 6); (7, 7)];
     sc_snapshot := fun h => ok_snapshot (if String.eqb h "A" then "" else "/snapshot/" +:+ h);
     sc_listing := fun _ => "7.hdr";
     sc_listing_v2 := fun _ => [];
     sc_content_length := fun _ => 100;
     sc_capacity := 1000;
     sc_exists := no_manifest;
     sc_dir := fun _ => [];
     sc_link := fun _ => OK;
     sc_manifest_size := 0;
     sc_revise := OK |}.

Definition empty_path_world : Collaborators := scripted empty_path_script.

(** The request of [_make_snapshot], as the source fills it. *)
Definition snapshot_request `{C : Collaborators} (req : TCloneReq)
  (timeout_s : Z) (missed_versions : list Version) : TSnapshotRequest :=
  {| sr_tablet_id := tablet_id req; sr_schema_hash := schema_hash req;
     sr_preferred_snapshot_version := TPREFER_SNAPSHOT_REQ_VERSION;
     sr_version := version req; sr_is_copy_binlog := true;
     sr_isset_missing_version := true;
     sr_missing_version := map fst missed_versions;
     sr_timeout := if 0 <? timeout_s then Some timeout_s else None |}.

(** ** Vocabulary of the further properties *)

(** The local files written by the GET requests of a trace, in order. *)
Definition downloaded (evs : list Event) : list string :=
  omap (fun e => match e with
                 | EvHttpDownload _ local_file _ _ => Some local_file
                 | _ => None
                 end) evs.

(** The content lengths of those files. *)
Definition downloaded_sizes (evs : list Event) : list Z :=
  omap (fun e => match e with
                 | EvHttpDownload _ _ _ file_size => Some file_size
                 | _ => None
                 end) evs.

(** The events of a transfer: requests to the peer, the deletion and
    creation of the staging directory [local_dir], and downloads whose
    local path starts with [local_dir] and a slash (the rest of the
    path is a name from the peer's listing, which is not checked). *)
Definition staging_only (local_dir : string) (e : Event) : Prop :=
  match e with
  | EvDeleteDirectory p | EvCreateDirectory p => p = local_dir
  | EvHttpDownload _ local_file _ _ => exists name, local_file = local_dir +:+ "/" +:+ name
  | EvDownloadFilesV2 _ _ d _ => d = local_dir
  | EvIsSupportBatchDownload _ | EvHttpList _ | EvHttpHead _
  | EvListRemoteFilesV2 _ _ => True
  | _ => False
  end.

(** [m] only appends events satisfying [P], however it ends. *)
Definition only `{C : Collaborators} {A} (P : Event -> Prop) (m : M (S:=St) A)
  : Prop :=
  forall s, exists evs, trace (snd (m s)) = trace s ++ evs /\ Forall P evs.

(** A world in which no path exists yet and the manifest is staged. *)
Definition empty_disk_world : Collaborators :=
  scripted (script (Some [(0, 1); (2, 5)]) false 0
              [(0, 1); (2, 5); (6, 6); (7, 7)]
              (fun _ => 100) (fun _ => false)
              ["0200000000000001_0.binlog"] (fun _ => OK) OK).

Definition no_reset (e : Event) : Prop :=
  match e with EvSetCumulativeLayerPoint _ => False | _ => True end.

(** The cumulative layer point is reset exactly when a full merge
    succeeded, right after its [revise_tablet_meta]. *)
Definition reset_after_full_merge `{C : Collaborators} (is_incremental : bool)
  (st : Status) (evs : list Event) : Prop :=
  if negb is_incremental && ok st
  then exists pre a d,
         evs = pre ++ [EvReviseTabletMeta a d false;
                       EvSetCumulativeLayerPoint K_INVALID_CUMULATIVE_POINT] /\
         Forall no_reset pre
  else Forall no_reset evs.

(** The events of the steps inside [_do_clone]: everything but the
    transition registration, the visible-version update and the
    removal of an empty parent directory. *)
Definition step_event (e : Event) : Prop :=
  match e with
  | EvRegisterTransition _ | EvUnregisterTransition _
  | EvUpdatePartitionsVisibleVersion _ _
  | EvDeleteTabletParentPathIfEmpty _ => False
  | _ => True
  end.

(** The directory of a new tablet (line 272), from the shard path that
    [obtain_shard_path] returns in world [w]. *)
Definition new_tablet_dir `{C : Collaborators} (req : TCloneReq) (w : W) : string :=
  let sp := fst (obtain_shard_path (storage_medium req) (dest_path_hash req)
                   (partition_id req) w) in
  fst (snd sp) +:+ "/" +:+ pretty (tablet_id req) +:+ "/" +:+ pretty (schema_hash req).

(** The last three actions of the new-tablet branch when it falls
    through to [_set_tablet_info] (lines 304-318). *)
Definition new_tablet_loaded `{C : Collaborators} (req : TCloneReq)
  (tablet_dir : string) : list Event :=
  [EvLoadTabletFromDir tablet_dir; EvSetReplicaId (replica_id req);
   EvDeleteFile (construct_header_file_path tablet_dir (tablet_id req))].

(** What happens between the registration of the transition and its
    release. *)
Definition inside_transition (e : Event) : Prop :=
  match e with
  | EvRegisterTransition _ | EvUnregisterTransition _
  | EvUpdatePartitionsVisibleVersion _ _ => False
  | _ => True
  end.

(** [m] leaves the list of reported tablet infos as it is, however it
    ends. *)
Definition keeps `{C : Collaborators} {A} (m : M (S:=St) A) : Prop :=
  forall s, _tablet_infos (snd (m s)) = _tablet_infos s.

(** The list of tablet infos after a step that returned [st]: one more
    entry when [st] is [OK], whose version is not behind the request's,
    and the same list otherwise. *)
Definition reported (req : TCloneReq) (before after : list TTabletInfo)
  (st : Status) : Prop :=
  if ok st
  then exists info, after = before ++ [info] /\
                    (isset_version req = true -> version req <= ti_version info)
  else after = before.

(** A link made by the link loop: its source is a staged file whose
    name is not among the local file names; a data file goes to the
    same name in the tablet directory, and a binlog file is linked
    only when a binlog manifest was read. *)
Definition links_staged (tablet_dir clone_dir : string) (contain_binlog : bool)
  (local_file_names clone_file_names : list string) (e : Event) : Prop :=
  match e with
  | EvLinkFile from to _ =>
      exists clone_file,
        (clone_file ∈ clone_file_names) /\ (clone_file ∉ local_file_names) /\
        from = clone_dir +:+ "/" +:+ clone_file /\
        (if ends_with clone_file ".binlog" || ends_with clone_file ".binlog-index"
         then contain_binlog = true
         else to = tablet_dir +:+ "/" +:+ clone_file)
  | _ => True
  end.

Definition no_ingest (e : Event) : Prop :=
  match e with EvIngestBinlogMetas => False | _ => True end.

(** Binlog metas are ingested only after the manifest in the staging
    directory was measured, read and deleted and the binlog directory
    [_binlog] was created, in this order. *)
Definition ingest_after_manifest (clone_dir : string) (evs : list Event) : Prop :=
  let manifest := clone_dir +:+ "/rowset_binlog_metas.pb" in
  EvIngestBinlogMetas ∈ evs ->
  exists pre tablet_dir post,
    evs = pre ++ [EvFileSize manifest; EvReadPb manifest; EvDeleteFile manifest;
                  EvCreateDirectory (tablet_dir +:+ "/_binlog")] ++ post /\
    Forall no_ingest pre.

(** ** Worlds with a negative download configuration *)

(** The script [sc] with another speed limit and another low-speed
    time. *)
Definition with_config (kbps time : Z) (sc : Script) : Script :=
  {| sc_batch := sc_batch sc; sc_kbps := kbps; sc_low_speed_time := time;
     sc_local := sc_local sc; sc_mow := sc_mow sc;
     sc_min_pending := sc_min_pending sc; sc_cloned := sc_cloned sc;
     sc_snapshot := sc_snapshot sc; sc_listing := sc_listing sc;
     sc_listing_v2 := sc_listing_v2 sc;
     sc_content_length := sc_content_length sc; sc_capacity := sc_capacity sc;
     sc_exists := sc_exists sc; sc_dir := sc_dir sc; sc_link := sc_link sc;
     sc_manifest_size := sc_manifest_size sc; sc_revise := sc_revise sc |}.

(** [download_low_speed_time] is configured as [-1]. *)
Definition negative_time_world : Collaborators :=
  scripted (with_config 50 (-1) plain_script).

(** [download_low_speed_limit_kbps] is configured as [-1]. *)
Definition negative_limit_world : Collaborators :=
  scripted (with_config (-1) 300 plain_script).


(** The same staging directory as in [binlog_world], traversed the
    other way round: the data file comes before the binlog file. *)
Definition binlog_last_world : Collaborators :=
  scripted (script (Some [(0, 1); (2, 5)]) false 0
              [(0, 1); (2, 5); (6, 6); (7, 7)]
              (fun _ => 100) no_manifest
              ["0200000000000002_0.dat"; "0200000000000001_0.binlog"]
              (fun _ => OK) OK).

(** The state [s1] in which the guard [remove_linked_files] leaves a
    finish step that started in [s] and returns [st]. Up to the state
    [sb] in which the guarded scope is left nothing is deleted. On
    success that is all; on failure either the step was left before
    the first link succeeded and nothing else happens, or
    [batch_delete] is called in [sb] with exactly the destinations of
    the links that succeeded, in the order they were made. *)
Definition links_removed `{C : Collaborators} (s : St) (st : Status) (s1 : St)
  : Prop :=
  exists sb pre,
    trace sb = trace s ++ pre /\ Forall no_delete pre /\
    if ok st then s1 = sb
    else (successful_links pre = [] /\ s1 = sb) \/
         s1 = with_world sb
                (snd (fs_batch_delete (successful_links pre) (world sb)))
                [EvBatchDelete (successful_links pre)].

(** [created tablet metas w rowsets w']: [create_rowset] is called for
    the metas of [metas], one after the other from world [w] to world
    [w'], every call succeeds, and [rowsets] are the rowsets the calls
    return, in this order. *)
Inductive created `{C : Collaborators} (tablet : Tablet)
  : list RowsetMeta -> W -> list Rowset -> W -> Prop :=
| created_nil w : created tablet [] w [] w
| created_cons rs_meta metas w st rs w1 rowsets w2 :
    create_rowset tablet rs_meta w = ((st, rs), w1) ->
    ok st = true ->
    created tablet metas w1 rowsets w2 ->
    created tablet (rs_meta :: metas) w (rs :: rowsets) w2.

(** * Properties *)

(** ** The header file goes last *)
Section HdrLastFacts.
Context {A : Type} (name : A -> string).
Import HdrLast.
Abbreviation is_hdr := (is_hdr name).
Abbreviation hdr_loop := (hdr_loop name).
Abbreviation move_hdr_last := (move_hdr_last name).

Lemma swap_length (v : list A) i j : length (swap v i j) = length v.
Proof.
  unfold swap. destruct (v !! i), (v !! j); trivial.
  now rewrite !length_insert.
Qed.

Lemma swap_lookup_r (v : list A) i j x :
  v !! i = Some x -> (j < length v)%nat -> swap v i j !! j = Some x.
Proof.
  intros Hi Hj. unfold swap. rewrite Hi.
  destruct (lookup_lt_is_Some_2 v j Hj) as [y Hy]. rewrite Hy.
  apply list_lookup_insert_eq. now rewrite length_insert.
Qed.

Lemma insert_cons_Permutation (v : list A) j x y :
  v !! j = Some y -> y :: <[j:=x]> v ≡ₚ x :: v.
Proof.
  revert j. induction v as [|a v IH]; intros [|j] Hj; simpl in *; try discriminate.
  - injection Hj as ->. apply perm_swap.
  - rewrite perm_swap, (IH j Hj). apply perm_swap.
Qed.

Lemma swap_Permutation (v : list A) i j : swap v i j ≡ₚ v.
Proof.
  unfold swap.
  destruct (v !! i) as [x|] eqn:Hi; [|reflexivity].
  destruct (v !! j) as [y|] eqn:Hj; [|reflexivity].
  revert i j x y Hi Hj.
  induction v as [|a v IH]; intros [|i] [|j] x y Hi Hj; simpl in *;
    try discriminate.
  - now injection Hi as ->.
  - injection Hi as ->. now apply insert_cons_Permutation.
  - injection Hj as ->. now apply insert_cons_Permutation.
  - constructor. now apply (IH i j x y).
Qed.

Lemma hdr_loop_Permutation k i v : hdr_loop k i v ≡ₚ v.
Proof.
  revert i. induction k as [|k IH]; intros i; simpl; [reflexivity|].
  destruct (v !! i) as [x|]; [|reflexivity].
  destruct (is_hdr x); [apply swap_Permutation | apply IH].
Qed.

Lemma hdr_loop_length k i v : length (hdr_loop k i v) = length v.
Proof. apply Permutation_length, hdr_loop_Permutation. Qed.

Lemma hdr_loop_cases k i v :
  (i + k < length v)%nat ->
  (exists y, hdr_loop k i v !! (length v - 1)%nat = Some y /\ is_hdr y = true) \/
  (hdr_loop k i v = v /\
   forall j x, (i <= j < i + k)%nat -> v !! j = Some x -> is_hdr x = false).
Proof.
  revert i. induction k as [|k IH]; intros i Hlen.
  - right. split; [reflexivity|]. intros; lia.
  - simpl.
    destruct (lookup_lt_is_Some_2 v i ltac:(lia)) as [z Hz]. rewrite Hz.
    destruct (is_hdr z) eqn:Ez.
    + left. exists z. split; [|assumption]. apply swap_lookup_r; [assumption|lia].
    + destruct (IH (S i) ltac:(lia)) as [Hl|[Heq Hno]]; [left; assumption|].
      right. split; [assumption|]. intros j x Hj Hx.
      destruct (decide (j = i)) as [->|Hne]; [congruence|].
      apply (Hno j x); [lia|assumption].
Qed.

Lemma move_hdr_last_hdr v x :
  x ∈ v -> is_hdr x = true ->
  exists y, last (move_hdr_last v) = Some y /\ is_hdr y = true.
Proof.
  intros Hin Hh. apply list_elem_of_lookup in Hin as [j Hj].
  pose proof (lookup_lt_Some _ _ _ Hj) as Hlt.
  rewrite last_lookup. unfold move_hdr_last.
  rewrite hdr_loop_length.
  replace (Nat.pred (length v)) with (length v - 1)%nat by lia.
  destruct (hdr_loop_cases (length v - 1) 0 v ltac:(lia)) as [Hl|[Heq Hno]];
    [assumption|].
  rewrite Heq.
  destruct (decide (j = length v - 1)%nat) as [->|Hne]; [eauto|].
  rewrite (Hno j x) in Hh; [discriminate|lia|assumption].
Qed.

End HdrLastFacts.

(** ** The per-file timeout *)

Lemma two64_pos : 0 < two64.
Proof. reflexivity. Qed.

Lemma to_u64_small z : 0 <= z < two64 -> to_u64 z = z.
Proof. intros H. unfold to_u64. now apply Z.mod_small. Qed.

Lemma to_u64_range z : 0 <= to_u64 z < two64.
Proof. unfold to_u64. apply Z.mod_pos_bound, two64_pos. Qed.

Lemma estimate_timeout_defined kbps time size :
  estimate_timeout kbps time size <> None <-> to_u64 kbps <> 0.
Proof.
  unfold estimate_timeout, u64_div.
  destruct (Z.eqb_spec (to_u64 kbps) 0) as [->|Hne]; split; congruence.
Qed.

(** ** Reasoning about runs *)
Section Runs.
Context `{C : Collaborators}.

Lemma appended_refl P (s : St) : appended P s s.
Proof. exists []. split; [now rewrite app_nil_r | constructor]. Qed.

Lemma appended_trans P (s1 s2 s3 : St) :
  appended P s1 s2 -> appended P s2 s3 -> appended P s1 s3.
Proof.
  intros (n1 & E1 & F1) (n2 & E2 & F2). exists (n1 ++ n2). split.
  - now rewrite E2, E1, app_assoc.
  - now apply Forall_app.
Qed.

Lemma appended_with_world P (s : St) w e :
  Forall P e -> appended P s (with_world s w e).
Proof. intros H. exists e. split; [reflexivity | assumption]. Qed.

Lemma appended_step P (s1 s2 s3 : St) w e :
  s2 = with_world s1 w e -> Forall P e -> appended P s2 s3 -> appended P s1 s3.
Proof.
  intros -> He H. eapply appended_trans; [|exact H].
  now apply appended_with_world.
Qed.

Lemma appended_weaken (P Q : Event -> Prop) (s s' : St) :
  (forall e, P e -> Q e) -> appended P s s' -> appended Q s s'.
Proof.
  intros H (n & E & F). exists n. split; [assumption|].
  eapply Forall_impl; eauto.
Qed.

Lemma bind_read {A B} (f : W -> A) (k : A -> M B) (s : St) :
  bind (read f) k s = k (f (world s)) s.
Proof. reflexivity. Qed.

Lemma bind_ret {A B} (a : A) (k : A -> M B) (s : St) : bind (ret a) k s = k a s.
Proof. reflexivity. Qed.

Lemma bind_eq {A B} (m : M A) (k : A -> M B) (s s' : St) a :
  m s = (Ret a, s') -> bind m k s = k a s'.
Proof. intros H. unfold bind. now rewrite H. Qed.

Lemma set_copy_stats_appended P (s : St) a b :
  appended P s (set_copy_stats a b s).
Proof. exists []. split; [now rewrite app_nil_r | constructor]. Qed.

Lemma record_copy_stats_run P total (s : St) :
  exists s', record_copy_stats total s = (Ret OK, s') /\ appended P s s'.
Proof.
  unfold record_copy_stats. destruct (watch_elapsed_time (world s)) as [el w].
  eexists. split; [reflexivity|].
  eapply appended_trans; [apply (appended_with_world P s w []); constructor|].
  apply set_copy_stats_appended.
Qed.
End Runs.

Ltac run_call :=
  match goal with
  | |- context [call ?e ?op ?s] =>
      let r := fresh "r" in let w := fresh "w" in let E := fresh "E" in
      unfold call at 1; destruct (op (world s)) as [r w] eqn:E; cbn [fst snd]
  end.

(** ** The per-file download: totality and the timeout of each GET *)
Section Download.
Context `{C : Collaborators}.
Variable P : Event -> Prop.
Hypothesis divisor_nonzero : to_u64 download_low_speed_limit_kbps <> 0.
Hypothesis P_download :
  forall url local_file file_size t,
    estimate_timeout download_low_speed_limit_kbps download_low_speed_time
      file_size = Some t ->
    P (EvHttpDownload url local_file (u64_mul t 1000) file_size).
Hypothesis P_other :
  forall e, match e with EvHttpDownload _ _ _ _ => False | _ => True end -> P e.

Lemma download_loop_run data_dir prefix local files total (s : St) :
  exists r s', download_loop data_dir prefix local files total s = (Ret r, s') /\
               appended P s s'.
Proof.
  revert total s. induction files as [|f files IH]; intros total s; simpl.
  - eexists _, _. split; [reflexivity | apply appended_refl].
  - unfold bind at 1. run_call. destruct r as [st sz]. cbn [fst snd].
    set (s1 := with_world s w _).
    assert (H1 : appended P s s1).
    { apply appended_with_world. repeat constructor. now apply P_other. }
    destruct (ok st); cbn [negb].
    2:{ eexists _, _. split; [reflexivity | exact H1]. }
    unfold bind at 1, read at 1.
    destruct (reach_capacity_limit data_dir (to_u64 sz) (world s1)).
    { eexists _, _. split; [reflexivity | exact H1]. }
    destruct (estimate_timeout download_low_speed_limit_kbps
                download_low_speed_time (to_u64 sz)) as [t|] eqn:Et.
    2:{ now apply estimate_timeout_defined in Et. }
    unfold bind at 1. run_call.
    set (s2 := with_world s1 w0 _).
    assert (H2 : appended P s s2).
    { eapply appended_trans; [exact H1|].
      apply appended_with_world. repeat constructor. now apply P_download. }
    destruct (ok r).
    + destruct (IH (u64_add total (to_u64 sz)) s2) as (r' & s' & E' & H').
      eexists _, _. split; [exact E'|]. eapply appended_trans; eauto.
    + eexists _, _. split; [reflexivity | exact H2].
Qed.

Lemma download_files_run data_dir prefix local (s : St) :
  exists st s', _download_files data_dir prefix local s = (Ret st, s') /\
                appended P s s'.
Proof.
  unfold _download_files, return_if_error, return_if_error_with.
  unfold bind at 1. run_call.
  set (s1 := with_world s w _).
  assert (H1 : appended P s s1).
  { apply appended_with_world; repeat constructor. now apply P_other. }
  destruct (ok r).
  2:{ eexists _, _. split; [reflexivity | exact H1]. }
  unfold bind at 1. run_call.
  set (s2 := with_world s1 w0 _).
  assert (H2 : appended P s s2).
  { eapply appended_trans; [exact H1|].
    apply appended_with_world; repeat constructor. now apply P_other. }
  destruct (ok r0).
  2:{ eexists _, _. split; [reflexivity | exact H2]. }
  unfold bind at 1. run_call. destruct r1 as [st listing]. cbn [fst snd].
  set (s3 := with_world s2 w1 _).
  assert (H3 : appended P s s3).
  { eapply appended_trans; [exact H2|].
    apply appended_with_world; repeat constructor. now apply P_other. }
  destruct (ok st).
  2:{ eexists _, _. split; [reflexivity | exact H3]. }
  unfold bind at 1.
  destruct (download_loop_run data_dir prefix local
              (HdrLast.move_hdr_last id (str_split_lines_skip_whitespace listing))
              0 s3) as (r' & s' & E' & H').
  rewrite E'. destruct (ok (fst r')).
  - destruct (record_copy_stats_run P (snd r') s') as (s'' & E'' & H'').
    eexists _, _. split; [exact E''|].
    eapply appended_trans; [exact H3|]. eapply appended_trans; eauto.
  - eexists _, _. split; [reflexivity|]. eapply appended_trans; eauto.
Qed.
End Download.

Lemma estimate_timeout_value kbps time size :
  to_u64 kbps <> 0 ->
  estimate_timeout kbps time size
  = Some (Z.max (to_u64 time) (size / to_u64 kbps / 1024)).
Proof.
  intros Hne. unfold estimate_timeout, u64_div.
  destruct (Z.eqb_spec (to_u64 kbps) 0) as [E|_]; [contradiction|].
  f_equal. destruct (Z.ltb_spec (size / to_u64 kbps / 1024) (to_u64 time)); lia.
Qed.

(** The claim of C8 fails when [download_low_speed_time] is negative:
    with the value [-1] and a speed limit of 50 the claimed timeout of
    a file of 100 bytes is [max(-1, 100 / 50 / 1024) = 0] seconds, but
    the comparison is made in [uint64_t], where [-1] is [2^64 - 1],
    and the GET is issued with [(2^64 - 1) * 1000 mod 2^64 = 2^64 - 1000]
    milliseconds. *)
Lemma C8_negative_low_speed_time_counterexample :
  let prefix := "http://A:8040/api?file=/snapshot/A/7/3/" in
  let r := _download_files (C:=negative_time_world) tt prefix "/data/7/clone"
             (initial_state (C:=negative_time_world) tt) in
  download_low_speed_time (Collaborators:=negative_time_world) = -1 /\
  download_low_speed_limit_kbps (Collaborators:=negative_time_world) = 50 /\
  fst r = Ret OK /\
  trace (snd r)
  = [EvDeleteDirectory "/data/7/clone"; EvCreateDirectory "/data/7/clone";
     EvHttpList prefix;
     EvHttpHead (prefix +:+ "0200000000000001_0.dat");
     EvHttpDownload (prefix +:+ "0200000000000001_0.dat")
       "/data/7/clone/0200000000000001_0.dat" (two64 - 1000) 100;
     EvHttpHead (prefix +:+ "7.hdr");
     EvHttpDownload (prefix +:+ "7.hdr") "/data/7/clone/7.hdr" (two64 - 1000) 100] /\
  Z.max (-1) (100 / 50 / 1024) * 1000 = 0 /\
  two64 - 1000 <> Z.max (-1) (100 / 50 / 1024) * 1000.
Proof.
  split; [reflexivity|]. split; [reflexivity|].
  split; [vm_compute; reflexivity|]. split; [vm_compute; reflexivity|].
  split; [reflexivity | discriminate].
Qed.

(** C8 (amended): one iteration of the per-file loop. When the HEAD
    request of a file succeeds with content length [content_length]
    and the capacity check passes, the file is fetched by one GET from
    [remote_url_prefix + file_name] into [local_path/file_name], with
    the file size [to_u64 content_length] and the timeout
    [max(low_speed_time, file_size / low_speed_limit_kbps / 1024)]
    seconds, handed over in milliseconds; both config values enter
    this formula converted to [uint64_t], and the product with 1000
    wraps at [2^64]. The loop goes on with the next file when the GET
    succeeds and returns its status otherwise. For a speed limit and a
    low-speed time in the unsigned 64-bit range the timeout is the
    claimed [max] of the configured values. *)
Theorem C8_per_file_timeout `{C : Collaborators}
  data_dir remote_url_prefix local_path file_name rest total (s : St)
  head_st content_length w1 st w2 :
  let remote_file_url := remote_url_prefix +:+ file_name in
  let local_file_path := local_path +:+ "/" +:+ file_name in
  let file_size := to_u64 content_length in
  let seconds :=
    Z.max (to_u64 download_low_speed_time)
          (file_size / to_u64 download_low_speed_limit_kbps / 1024) in
  let timeout_ms := u64_mul seconds 1000 in
  http_get_file_size remote_file_url (world s) = ((head_st, content_length), w1) ->
  ok head_st = true ->
  reach_capacity_limit data_dir file_size w1 = false ->
  to_u64 download_low_speed_limit_kbps <> 0 ->
  http_download remote_file_url local_file_path timeout_ms file_size w1 = (st, w2) ->
  let s2 := with_world (with_world s w1 [EvHttpHead remote_file_url]) w2
              [EvHttpDownload remote_file_url local_file_path timeout_ms file_size] in
  download_loop data_dir remote_url_prefix local_path (file_name :: rest) total s
  = (if ok st
     then download_loop data_dir remote_url_prefix local_path rest
            (u64_add total file_size) s2
     else (Ret (st, u64_add total file_size), s2)) /\
  (0 < download_low_speed_limit_kbps < two64 ->
   0 <= download_low_speed_time < two64 ->
   seconds = Z.max download_low_speed_time
                   (file_size / download_low_speed_limit_kbps / 1024)).
Proof.
  intros url path size seconds ms Hhead Hok Hcap Hne Hget s2. split.
  - cbn [download_loop]. cbv zeta. unfold bind at 1, call at 1.
    fold url. rewrite Hhead. cbn [fst snd]. rewrite Hok. cbn [negb].
    unfold bind at 1, read at 1. cbn [world with_world]. fold size.
    rewrite Hcap. rewrite (estimate_timeout_value _ _ _ Hne).
    fold seconds ms. unfold bind at 1, call at 1. cbn [world with_world].
    fold path. rewrite Hget. fold s2. now destruct (ok st).
  - intros Hk Ht. unfold seconds.
    now rewrite (to_u64_small download_low_speed_time),
      (to_u64_small download_low_speed_limit_kbps) by lia.
Qed.

Lemma C8_per_file_timeout_witness :
  let prefix := "http://A:8040/api?file=/snapshot/A/7/3/" in
  fst (download_loop (C:=plain_world) tt prefix "/data/7/clone" ["7.hdr"] 0
         (initial_state (C:=plain_world) tt))
  = Ret (OK, 100).
Proof.
  intros prefix.
  rewrite (proj1 (C8_per_file_timeout (C:=plain_world) tt prefix "/data/7/clone"
                    "7.hdr" [] 0 (initial_state (C:=plain_world) tt)
                    OK 100 tt OK tt
                    ltac:(reflexivity) ltac:(reflexivity) ltac:(reflexivity)
                    ltac:(vm_compute; discriminate) ltac:(reflexivity))).
  reflexivity.
Defined.

(** The claim of C10 fails for a negative speed limit: with the value
    [-1] the precondition [download_low_speed_limit_kbps > 0] does not
    hold, but the divisor is [-1] converted to [uint64_t], that is
    [2^64 - 1], so the division is defined for every file size and the
    download returns. *)
Lemma C10_negative_limit_counterexample :
  let kbps := download_low_speed_limit_kbps (Collaborators:=negative_limit_world) in
  let time := download_low_speed_time (Collaborators:=negative_limit_world) in
  kbps = -1 /\ ~ 0 < kbps /\
  (forall file_size, estimate_timeout kbps time file_size <> None) /\
  fst (_download_files (C:=negative_limit_world) tt
         "http://A:8040/api?file=/snapshot/A/7/3/" "/data/7/clone"
         (initial_state (C:=negative_limit_world) tt))
  = Ret OK.
Proof.
  split; [reflexivity|]. split; [cbn; lia|]. split.
  - intros size. apply estimate_timeout_defined. vm_compute. discriminate.
  - vm_compute. reflexivity.
Qed.

(** C10 (amended): the per-file timeout divides by the configured
    speed limit without a guard, and the divisor is the limit converted
    to [uint64_t]. The division is defined for every file size exactly
    when the converted limit is not zero; then [_download_files] always
    returns. When the converted limit is zero, the first file that
    passes the HEAD request and the capacity check stops the task at
    the division. For a limit in the unsigned 64-bit range the
    converted limit is not zero exactly when the limit is positive. *)
Theorem C10_division_needs_nonzero_limit `{C : Collaborators} :
  ((forall file_size,
       estimate_timeout download_low_speed_limit_kbps download_low_speed_time
         file_size <> None)
   <-> to_u64 download_low_speed_limit_kbps <> 0) /\
  (to_u64 download_low_speed_limit_kbps <> 0 ->
   forall data_dir remote_url_prefix local_path (s : St),
     returns (_download_files data_dir remote_url_prefix local_path s)) /\
  (to_u64 download_low_speed_limit_kbps = 0 ->
   forall data_dir remote_url_prefix local_path file_name rest total (s : St)
          head_st size w,
     http_get_file_size (remote_url_prefix +:+ file_name) (world s)
     = ((head_st, size), w) ->
     ok head_st = true ->
     reach_capacity_limit data_dir (to_u64 size) w = false ->
     download_loop data_dir remote_url_prefix local_path (file_name :: rest) total s
     = (Crash "integer division by zero",
        with_world s w [EvHttpHead (remote_url_prefix +:+ file_name)])) /\
  (0 <= download_low_speed_limit_kbps < two64 ->
   (to_u64 download_low_speed_limit_kbps <> 0 <-> 0 < download_low_speed_limit_kbps)).
Proof.
  split; [|split; [|split]].
  - split.
    + intros H. exact (proj1 (estimate_timeout_defined _ _ 0) (H 0)).
    + intros Hne size. now apply estimate_timeout_defined.
  - intros Hne data_dir prefix local s.
    destruct (download_files_run (fun _ => True)) with
      (data_dir := data_dir) (prefix := prefix) (local := local) (s := s)
      as (st & s' & E & _).
    + exact Hne.
    + intros; exact I.
    + intros; exact I.
    + exists st. now rewrite E.
  - intros Hz data_dir prefix local f rest total s hst size w Hhead Hok Hcap.
    cbn [download_loop]. cbv zeta. unfold bind at 1, call at 1. rewrite Hhead.
    cbn [fst snd]. rewrite Hok. cbn [negb].
    unfold bind at 1, read at 1. cbn [world with_world]. rewrite Hcap.
    unfold estimate_timeout, u64_div. rewrite Hz. reflexivity.
  - intros Hr. rewrite to_u64_small by assumption. lia.
Qed.

Lemma C10_division_needs_nonzero_limit_witness :
  returns (_download_files (C:=plain_world) tt "http://A:8040/api?file=/snapshot/A/7/3/"
             "/data/7/clone" (initial_state (C:=plain_world) tt)).
Proof.
  apply (proj1 (proj2 (C10_division_needs_nonzero_limit (C:=plain_world)))).
  vm_compute. discriminate.
Defined.

(** ** Batch packing *)

Lemma BATCH_FILE_SIZE_value : BATCH_FILE_SIZE = 67108864.
Proof. reflexivity. Qed.

Lemma batch_size_snoc b f : batch_size (b ++ [f]) = u64_add (batch_size b) (snd f).
Proof. unfold batch_size. now rewrite foldl_app. Qed.

(** What one run of the inner loop does, started with [acc] already in
    the batch: it moves a prefix [pre] of [rest] into the batch. *)
Lemma take_batch_spec rest acc :
  exists pre post,
    rest = pre ++ post /\
    take_batch rest acc (batch_size acc) = (acc ++ pre, batch_size (acc ++ pre)) /\
    (forall k, (length acc <= k < length (acc ++ pre))%nat ->
               Z.of_nat k < BATCH_FILE_NUM /\
               batch_size (take k (acc ++ pre)) < BATCH_FILE_SIZE) /\
    (acc = [] -> rest <> [] -> pre <> []) /\
    (post = [] -> pre <> [] -> acc = [] /\ length pre = 1%nat) /\
    (post <> [] ->
     BATCH_FILE_NUM <= Z.of_nat (length (acc ++ pre)) \/
     BATCH_FILE_SIZE <= batch_size (acc ++ pre) \/
     (length post = 1%nat /\ acc ++ pre <> [])).
Proof.
  revert acc. induction rest as [|f rest IH]; intros acc.
  - exists [], []. rewrite (app_nil_r acc). simpl.
    split; [reflexivity|]. split; [reflexivity|].
    split; [intros; lia|]. split; [congruence|]. split; congruence.
  - simpl.
    destruct ((BATCH_FILE_NUM <=? Z.of_nat (length acc))
              || (BATCH_FILE_SIZE <=? batch_size acc)
              || (bool_decide (rest = []) && negb (bool_decide (acc = [])))) eqn:Hstop.
    + assert (Hwhy : BATCH_FILE_NUM <= Z.of_nat (length acc) \/
                     BATCH_FILE_SIZE <= batch_size acc \/
                     (length (f :: rest) = 1%nat /\ acc <> [])).
      { apply orb_prop in Hstop as [Hstop|Hstop];
          [apply orb_prop in Hstop as [Hstop|Hstop]|].
        - left. now apply Z.leb_le.
        - right. left. now apply Z.leb_le.
        - apply andb_prop in Hstop as [Hr Ha].
          apply bool_decide_eq_true in Hr. apply negb_true_iff in Ha.
          apply bool_decide_eq_false in Ha. subst rest. right. right. now split. }
      assert (Hne : acc <> []).
      { intros ->. destruct Hwhy as [H|[H|[_ H]]]; [| |congruence].
        - simpl in H. unfold BATCH_FILE_NUM in H. lia.
        - rewrite BATCH_FILE_SIZE_value in H. unfold batch_size in H. simpl in H. lia. }
      exists [], (f :: rest). rewrite (app_nil_r acc).
      split; [reflexivity|]. split; [reflexivity|].
      split; [intros; lia|]. split; [congruence|]. split; [discriminate|].
      intros _. exact Hwhy.
    + apply orb_false_elim in Hstop as [Hstop Hlast].
      apply orb_false_elim in Hstop as [Hnum Hsize].
      apply Z.leb_gt in Hnum. apply Z.leb_gt in Hsize.
      rewrite <- batch_size_snoc.
      destruct (IH (acc ++ [f])) as (pre & post & Hrest & Htake & Hbound & _ & Hfinal & Hwhy).
      exists (f :: pre), post.
      replace (acc ++ f :: pre) with ((acc ++ [f]) ++ pre)
        by (now rewrite <- app_assoc).
      split; [now rewrite Hrest|]. split; [exact Htake|].
      split; [|split; [|split]].
      * intros k Hk. destruct (decide (k = length acc)) as [->|Hne].
        -- split; [lia|]. rewrite <- app_assoc, take_app_length. exact Hsize.
        -- apply Hbound. rewrite length_app. simpl. lia.
      * intros _ _. discriminate.
      * intros Hpost _.
        destruct pre as [|p pre].
        -- simpl in Hrest. rewrite Hpost in Hrest. subst rest.
           rewrite bool_decide_eq_true_2 in Hlast by reflexivity.
           simpl in Hlast. apply negb_false_iff in Hlast.
           apply bool_decide_eq_true in Hlast. now split.
        -- destruct (Hfinal Hpost ltac:(discriminate)) as [Habs _].
           now destruct acc.
      * exact Hwhy.
Qed.

Lemma take_batch_empty remaining :
  exists pre post,
    remaining = pre ++ post /\
    take_batch remaining [] 0 = (pre, batch_size pre) /\
    (remaining <> [] -> batch_within_bounds pre) /\
    (post = [] -> pre <> [] -> length pre = 1%nat) /\
    (post <> [] ->
     BATCH_FILE_NUM <= Z.of_nat (length pre) \/
     BATCH_FILE_SIZE <= batch_size pre \/ length post = 1%nat).
Proof.
  destruct (take_batch_spec remaining [])
    as (pre & post & Hrest & Htake & Hbound & Hne & Hfinal & Hwhy).
  simpl in *. exists pre, post.
  split; [exact Hrest|]. split; [exact Htake|].
  split; [|split].
  - intros Hr. specialize (Hne eq_refl Hr). split; [exact Hne|]. split.
    + destruct pre as [|p pre]; [congruence|].
      destruct (Hbound (length pre)) as [H _]; [simpl; lia|]. simpl. lia.
    + intros k Hk. apply Hbound. lia.
  - intros Hp Hn. now destruct (Hfinal Hp Hn).
  - intros Hp. destruct (Hwhy Hp) as [H|[H|[H _]]]; auto.
Qed.

Lemma concat_singleton_nonempty (bs : list (list FileInfo)) f :
  Forall (fun b => b <> []) bs -> concat bs = [f] -> bs = [[f]].
Proof.
  intros Hne Hc. destruct bs as [|b bs]; [discriminate|].
  inversion Hne as [|? ? Hb Hbs]; subst. simpl in Hc.
  destruct b as [|x b]; [congruence|].
  injection Hc as -> Hc. apply app_eq_nil in Hc as [-> Hc].
  destruct bs as [|b' bs]; [reflexivity|].
  inversion Hbs; subst. simpl in Hc. apply app_eq_nil in Hc as [-> _]. congruence.
Qed.

Lemma pack_loop_spec fuel remaining :
  (length remaining <= fuel)%nat ->
  concat (pack_loop fuel remaining) = remaining /\
  Forall batch_within_bounds (pack_loop fuel remaining) /\
  (forall f, last remaining = Some f -> last (pack_loop fuel remaining) = Some [f]) /\
  (forall i b b',
      pack_loop fuel remaining !! i = Some b ->
      pack_loop fuel remaining !! Datatypes.S i = Some b' ->
      BATCH_FILE_NUM <= Z.of_nat (length b) \/
      BATCH_FILE_SIZE <= batch_size b \/
      Datatypes.S (Datatypes.S i) = length (pack_loop fuel remaining)).
Proof.
  revert remaining. induction fuel as [|fuel IH]; intros remaining Hlen.
  - destruct remaining; [|simpl in Hlen; lia]. simpl.
    repeat split; [constructor|discriminate|intros; discriminate].
  - destruct remaining as [|x r].
    { simpl. repeat split; [constructor|discriminate|intros; discriminate]. }
    cbn [pack_loop].
    destruct (take_batch_empty (x :: r)) as (pre & post & Hrest & Htake & Hgood & Hfinal & Hwhy).
    rewrite Htake. cbn [fst]. specialize (Hgood ltac:(discriminate)).
    assert (Hdrop : drop (length pre) (x :: r) = post)
      by (rewrite Hrest; apply drop_app_length).
    rewrite Hdrop.
    assert (Hpre : pre <> []) by apply Hgood.
    assert (Hpost : (length post <= fuel)%nat).
    { apply (f_equal length) in Hrest. rewrite length_app in Hrest. simpl in Hrest.
      destruct pre; [congruence|]. simpl in Hrest, Hlen. lia. }
    destruct (IH post Hpost) as (Hc & Hb & Hl & Hg).
    split; [simpl; now rewrite Hc|]. split; [now constructor|]. split.
    + intros f Hf. rewrite Hrest in Hf.
      destruct post as [|p post].
      * rewrite app_nil_r in Hf.
        specialize (Hfinal eq_refl Hpre).
        destruct pre as [|a [|? ?]]; try discriminate.
        simpl in Hf. injection Hf as ->.
        destruct fuel; reflexivity.
      * rewrite last_app in Hf.
        destruct (last (p :: post)) as [g|] eqn:Eg.
        -- injection Hf as ->. specialize (Hl f eq_refl).
           destruct (pack_loop fuel (p :: post)) as [|b bs] eqn:Eb; [discriminate|].
           rewrite last_cons. now rewrite Hl.
        -- apply last_None in Eg. discriminate.
    + intros [|i] b b' Hi Hi'.
      * simpl in Hi, Hi'. injection Hi as <-.
        destruct post as [|p post].
        { destruct fuel; discriminate. }
        destruct (Hwhy ltac:(discriminate)) as [H|[H|H]]; auto.
        right. right. destruct post; [|discriminate].
        assert (E : pack_loop fuel [p] = [[p]]).
        { apply concat_singleton_nonempty; [|exact Hc].
          eapply Forall_impl; [exact Hb|]. intros ? H'. apply H'. }
        now rewrite E.
      * simpl in Hi, Hi'. destruct (Hg i b b' Hi Hi') as [H|[H|H]]; auto.
        right. right. simpl. now rewrite <- H.
Qed.

Section BatchRun.
Context `{C : Collaborators}.

(** The outer loop asks for the batches of [pack_loop], one request
    per batch in order, and issues all of them when it returns [OK]. *)
Lemma batch_loop_run data_dir address remote_dir local_dir fuel remaining total
  (s : St) :
  exists r s' n,
    batch_loop fuel data_dir address remote_dir local_dir remaining total s
    = (Ret r, s') /\
    trace s' = trace s ++ map (EvDownloadFilesV2 address remote_dir local_dir)
                              (take n (pack_loop fuel remaining)) /\
    (ok (fst r) = true -> (length (pack_loop fuel remaining) <= n)%nat).
Proof.
  revert remaining total s.
  induction fuel as [|fuel IH]; intros remaining total s.
  - exists (OK, total), s, 0%nat. simpl.
    split; [reflexivity|]. split; [now rewrite app_nil_r | lia].
  - destruct remaining as [|x r].
    { exists (OK, total), s, 0%nat. simpl.
      split; [reflexivity|]. split; [now rewrite app_nil_r | lia]. }
    cbn [batch_loop pack_loop].
    destruct (take_batch (x :: r) [] 0) as [batch_files batch_file_size].
    cbn [fst]. unfold bind at 1, read at 1.
    destruct (reach_capacity_limit data_dir batch_file_size (world s)).
    { eexists _, s, 0%nat. split; [reflexivity|].
      split; [now rewrite app_nil_r | discriminate]. }
    unfold bind at 1. run_call.
    set (s1 := with_world s w _).
    destruct (ok r0) eqn:Hok.
    + destruct (IH (drop (length batch_files) (x :: r))
                  (u64_add total batch_file_size) s1) as (r' & s' & n & E' & T & L).
      exists r', s', (Datatypes.S n). split; [exact E'|]. split.
      * rewrite T. subst s1. simpl. now rewrite <- app_assoc.
      * intros H. specialize (L H). simpl. lia.
    + exists (r0, total), s1, 1%nat. split; [reflexivity|]. split.
      * subst s1. simpl. try rewrite take_0. reflexivity.
      * simpl. rewrite Hok. discriminate.
Qed.
End BatchRun.

(** The claim's first example does not hold: seven files of 10 MiB
    are not packed into a single batch of seven, because the final
    file never joins a batch that already has a file. *)
Lemma C5_seven_files_counterexample :
  pack_batches seven_files = [take 6 seven_files; drop 6 seven_files] /\
  ~ (exists b, pack_batches seven_files = [b] /\ length b = 7%nat).
Proof.
  assert (E : pack_batches seven_files = [take 6 seven_files; drop 6 seven_files])
    by (vm_compute; reflexivity).
  split; [exact E|]. intros (b & Hb & _). rewrite E in Hb. discriminate.
Qed.

(** C5 (amended): the batch strategy cuts the reordered listing into
    consecutive batches. A batch takes files while it holds fewer than
    64 files and its accumulated size is below 64 MiB, and the final
    file only ever goes into an empty batch, so it is always a batch
    of its own. Every batch but the last is closed because one of the
    two bounds was reached, or because only the final file was left.
    [_batch_download_files] requests exactly these batches, in order.
    Seven files of 10 MiB give a batch of six and a batch of one;
    seven files of 10 MiB followed by a 1 MiB header give a batch of
    seven and the header alone. *)
Theorem C5_batch_packing :
  (forall files : list FileInfo,
      concat (pack_batches files) = files /\
      Forall batch_within_bounds (pack_batches files) /\
      (forall f, last files = Some f -> last (pack_batches files) = Some [f]) /\
      (forall i b b',
          pack_batches files !! i = Some b ->
          pack_batches files !! Datatypes.S i = Some b' ->
          BATCH_FILE_NUM <= Z.of_nat (length b) \/
          BATCH_FILE_SIZE <= batch_size b \/
          Datatypes.S (Datatypes.S i) = length (pack_batches files))) /\
  (forall (C : Collaborators) data_dir address remote_dir local_dir files total
          (s : St),
      exists r s' n,
        batch_loop (length files) data_dir address remote_dir local_dir files total s
        = (Ret r, s') /\
        trace s' = trace s ++ map (EvDownloadFilesV2 address remote_dir local_dir)
                                  (take n (pack_batches files)) /\
        (ok (fst r) = true -> (length (pack_batches files) <= n)%nat)) /\
  pack_batches seven_files = [take 6 seven_files; drop 6 seven_files] /\
  pack_batches seven_files_and_hdr = [seven_files; [("7.hdr", 1 * MiB)]].
Proof.
  split; [|split; [|split]].
  - intros files. apply pack_loop_spec. lia.
  - intros. apply batch_loop_run.
  - vm_compute; reflexivity.
  - vm_compute; reflexivity.
Qed.

Lemma C5_batch_packing_witness :
  last (pack_batches seven_files_and_hdr) = Some [("7.hdr", 1 * MiB)].
Proof.
  apply (proj1 (proj2 (proj2 (proj1 C5_batch_packing seven_files_and_hdr)))).
  reflexivity.
Defined.

(** ** The full merge *)
Section FullClone.
Context `{C : Collaborators}.

Lemma full_clone_scan_cross (mv : Version) rowsets acc :
  (exists x, x ∈ rowsets /\ crosses (snd mv) (fst x)) ->
  exists x, x ∈ rowsets /\ crosses (snd mv) (fst x) /\
            full_clone_scan mv rowsets acc
            = ResultError (version_cross_error (snd mv) (fst x)).
Proof.
  revert acc. induction rowsets as [|[v rs] rowsets IH]; intros acc (x & Hin & Hx).
  - inversion Hin.
  - simpl.
    destruct ((fst v <=? snd mv) && (snd v >? snd mv)) eqn:Hc.
    + exists (v, rs). split; [apply list_elem_of_here|].
      apply andb_prop in Hc as [H1 H2]. apply Z.leb_le in H1.
      rewrite Z.gtb_ltb in H2. apply Z.ltb_lt in H2.
      split; [split; assumption | reflexivity].
    + assert (Hin' : x ∈ rowsets).
      { apply elem_of_cons in Hin as [->|Hin]; [|assumption].
        exfalso. destruct Hx as [H1 H2]. simpl in *.
        apply Z.leb_le in H1. rewrite H1 in Hc.
        apply Z.ltb_lt in H2. rewrite Z.gtb_ltb, H2 in Hc. discriminate. }
      destruct (snd v <=? snd mv);
        (edestruct IH as (y & Hy & Hcy & E); [eauto|];
         exists y; split; [now apply list_elem_of_further|]; split; [exact Hcy|exact E]).
Qed.

Lemma full_clone_scan_no_cross (mv : Version) rowsets acc :
  (forall x, x ∈ rowsets -> ~ crosses (snd mv) (fst x)) ->
  full_clone_scan mv rowsets acc
  = Val (acc ++ deleted_by_full_clone (snd mv) rowsets).
Proof.
  revert acc. induction rowsets as [|[v rs] rowsets IH]; intros acc Hno.
  - simpl. unfold deleted_by_full_clone. simpl. now rewrite app_nil_r.
  - simpl.
    assert (Hv : ~ crosses (snd mv) v) by (apply (Hno (v, rs)), list_elem_of_here).
    assert (Hrest : forall x, x ∈ rowsets -> ~ crosses (snd mv) (fst x))
      by (intros x Hx; apply Hno; now apply list_elem_of_further).
    unfold crosses in Hv.
    destruct ((fst v <=? snd mv) && (snd v >? snd mv)) eqn:Hc.
    { exfalso. apply Hv. apply andb_prop in Hc as [H1 H2]. apply Z.leb_le in H1.
      rewrite Z.gtb_ltb in H2. apply Z.ltb_lt in H2. lia. }
    unfold deleted_by_full_clone. rewrite filter_cons. cbn [fst snd].
    destruct (Z.leb_spec (snd v) (snd mv)) as [Hle|Hgt].
    + rewrite decide_True by assumption. rewrite IH by assumption.
      simpl. unfold deleted_by_full_clone. now rewrite <- app_assoc.
    + rewrite decide_False by lia. now apply IH.
Qed.

Lemma create_rowsets_returns tablet metas acc (s : St) :
  exists r s', create_rowsets tablet metas acc s = (Ret r, s').
Proof.
  revert acc s. induction metas as [|m metas IH]; intros acc s; simpl.
  - eexists _, _. reflexivity.
  - unfold bind at 1. run_call. destruct (ok (fst r)); cbn [negb].
    + apply IH.
    + eexists _, _. reflexivity.
Qed.
End FullClone.

(** C3: in the full merge, with [M] the end of the cloned max version,
    a local range [a,b] with [a <= M < b] makes the merge return
    INTERNAL_ERROR "version cross src latest" with the tablet, the
    world and the trace exactly as they were; otherwise the ranges
    with [b <= M] are the ones handed to [revise_tablet_meta] for
    deletion and every other range has [a > M] and is kept. With local
    ranges [0-1], [2-10], [12-14] (in any traversal order) and
    [M = 13] the merge returns the version-cross error and touches
    nothing. *)
Theorem C3_full_merge_partition `{C : Collaborators} tablet cloned (s : St) :
  let M := snd (max_version cloned) in
  let rowsets := rowset_map tablet (world s) in
  ((exists x, x ∈ rowsets /\ crosses M (fst x)) ->
   exists x, x ∈ rowsets /\ crosses M (fst x) /\
             _finish_full_clone tablet cloned s
             = (Ret (version_cross_error M (fst x)), s)) /\
  ((forall x, x ∈ rowsets -> ~ crosses M (fst x)) ->
   full_clone_scan (max_version cloned) rowsets []
   = Val (deleted_by_full_clone M rowsets) /\
   (forall x, x ∈ rowsets ->
      (snd (fst x) <= M /\ snd x ∈ deleted_by_full_clone M rowsets) \/
      (M < fst (fst x) /\ x ∉ filter (fun y => snd (fst y) <= M) rowsets)) /\
   exists r s1,
     create_rowsets tablet (all_rs_metas cloned) [] s = (Ret r, s1) /\
     (ok (fst r) = false -> _finish_full_clone tablet cloned s = (Ret (fst r), s1)) /\
     (ok (fst r) = true ->
      exists s2,
        _finish_full_clone tablet cloned s
        = call (EvReviseTabletMeta (length (snd r))
                  (length (deleted_by_full_clone M rowsets)) false)
               (revise_tablet_meta tablet (snd r)
                  (deleted_by_full_clone M rowsets) false) s2)) /\
  (map fst rowsets ≡ₚ [(0, 1); (2, 10); (12, 14)] -> M = 13 ->
   _finish_full_clone tablet cloned s = (Ret (version_cross_error 13 (12, 14)), s)).
Proof.
  intros M rowsets.
  assert (Hcross : (exists x, x ∈ rowsets /\ crosses M (fst x)) ->
                   exists x, x ∈ rowsets /\ crosses M (fst x) /\
                             _finish_full_clone tablet cloned s
                             = (Ret (version_cross_error M (fst x)), s)).
  { intros Hex.
    destruct (full_clone_scan_cross (max_version cloned) rowsets [] Hex)
      as (x & Hin & Hx & E).
    exists x. split; [exact Hin|]. split; [exact Hx|].
    unfold _finish_full_clone, bind at 1, read at 1.
    fold rowsets. now rewrite E. }
  split; [exact Hcross|]. split.
  - intros Hno.
    pose proof (full_clone_scan_no_cross (max_version cloned) rowsets [] Hno) as E.
    simpl in E. fold M in E.
    split; [exact E|]. split.
    + intros x Hin. specialize (Hno x Hin). unfold crosses in Hno.
      destruct (decide (snd (fst x) <= M)) as [Hle|Hgt].
      * left. split; [exact Hle|]. unfold deleted_by_full_clone.
        apply list_elem_of_fmap. exists x. split; [reflexivity|].
        apply list_elem_of_filter. now split.
      * right. split; [destruct x as [[a b] rs]; simpl in *; lia|].
        intros Hf. apply list_elem_of_filter in Hf as [Hf _]. contradiction.
    + destruct (create_rowsets_returns tablet (all_rs_metas cloned) [] s)
        as (r & s1 & Ec).
      exists r, s1. split; [exact Ec|].
      split; intros Hok;
        unfold _finish_full_clone, bind at 1, read at 1; fold rowsets; rewrite E;
        unfold return_if_error_with, bind at 1; rewrite Ec; cbv beta iota;
        rewrite Hok; [reflexivity|].
      unfold bind at 1, read at 1. unfold bind at 1, read at 1.
      unfold bind at 1.
      destruct (cooldown_replica_id tablet (world s1) =? tablet_replica_id tablet (world s1)).
      * destruct (gen_uid (world s1)) as [uid w].
        unfold bind at 1, read at 1.
        destruct (enable_unique_key_merge_on_write tablet _);
          unfold bind at 1, do_, ret; eexists; reflexivity.
      * unfold do_ at 1. unfold bind at 1, read at 1.
        destruct (enable_unique_key_merge_on_write tablet _);
          unfold bind at 1, do_, ret; eexists; reflexivity.
  - intros Hperm HM.
    assert (Hex : exists x, x ∈ rowsets /\ crosses M (fst x)).
    { assert (Hin : (12, 14) ∈ map fst rowsets).
      { rewrite Hperm. apply list_elem_of_In. simpl. tauto. }
      apply list_elem_of_fmap in Hin as (x & Hx & Hin).
      exists x. split; [exact Hin|]. rewrite <- Hx, HM. unfold crosses. simpl. lia. }
    destruct (Hcross Hex) as (x & Hin & Hx & E).
    assert (Hv : fst x ∈ [(0, 1); (2, 10); (12, 14)]).
    { rewrite <- Hperm. apply list_elem_of_fmap. eauto. }
    rewrite E, HM. rewrite HM in Hx. unfold crosses in Hx.
    repeat (apply elem_of_cons in Hv as [Hv|Hv];
            [rewrite Hv in *; simpl in Hx; try lia|]).
    + reflexivity.
    + inversion Hv.
Qed.

Lemma C3_full_merge_partition_witness :
  _finish_full_clone (C:=version_cross_world) tt tt
    (initial_state (C:=version_cross_world) tt)
  = (Ret (version_cross_error 13 (12, 14)), initial_state (C:=version_cross_world) tt).
Proof.
  apply (proj2 (proj2 (C3_full_merge_partition (C:=version_cross_world) tt tt
                         (initial_state (C:=version_cross_world) tt)))).
  - reflexivity.
  - reflexivity.
Defined.

(** ** The peer loop *)

(** The claim of C1 fails on two peers: peer A's download stops with
    EXCEEDED_LIMIT, and the task goes on to peer B, whose download
    succeeds, and returns OK. *)
Lemma C1_capacity_error_counterexample :
  let s0 := initial_state (C:=capacity_world) tt in
  fst (transfer (C:=capacity_world) (clone_request 7 ["A"; "B"]) tt "/data/7/clone"
         (peer "A") "/snapshot/A/" s0)
  = Ret (capacity_error (C:=capacity_world) tt 5000) /\
  exists l s',
    _make_and_download_snapshots (C:=capacity_world) (clone_request 7 ["A"; "B"])
      tt "/data/7/clone" default_backend "" [(6, 6); (7, 7)] false s0
    = (Ret l, s') /\
    status l = OK /\ src_host l = peer "B" /\
    exists req, EvMakeSnapshot "B" 9060 req ∈ trace s'.
Proof.
  split; [vm_compute; reflexivity|].
  eexists _, _. split; [vm_compute; reflexivity|].
  split; [reflexivity|]. split; [reflexivity|].
  eexists. apply list_elem_of_In. simpl. do 6 right. left. reflexivity.
Qed.

(** C1 (amended): a capacity error of the download step is absorbed at
    the peer-loop boundary like any other transfer failure. The
    snapshot of the failed attempt is released and the loop goes on
    with the remaining peers, the capacity error being the current
    status; it is the function's result when no peer is left. *)
Theorem C1_capacity_error_tries_next_peer `{C : Collaborators}
  req data_dir local_data_path timeout_s missed src rest l (s s1 s2 : St) p a size :
  _make_snapshot req (host src) (be_port src) (tablet_id req) (schema_hash req)
    timeout_s missed (snapshot_path l) (allow_incremental_clone l) s
  = (Ret (OK, (p, a)), s1) ->
  transfer req data_dir local_data_path src p s1
  = (Ret (capacity_error data_dir size), s2) ->
  let l1 := {| status := capacity_error data_dir size; src_host := src;
               snapshot_path := p; allow_incremental_clone := a |} in
  let s3 := release_guard (host src) (be_port src) p s2 in
  peer_loop req data_dir local_data_path timeout_s missed (src :: rest) l s
  = peer_loop req data_dir local_data_path timeout_s missed rest l1 s3 /\
  (rest = [] ->
   peer_loop req data_dir local_data_path timeout_s missed (src :: rest) l s
   = (Ret l1, s3)).
Proof.
  intros Hsnap Htransfer l1 s3.
  assert (E : peer_loop req data_dir local_data_path timeout_s missed (src :: rest) l s
              = peer_loop req data_dir local_data_path timeout_s missed rest l1 s3).
  { cbn [peer_loop]. unfold bind at 1, attempt, bind at 1. rewrite Hsnap.
    cbn [fst snd ok negb]. unfold defer, download_from, bind at 1.
    cbn [snapshot_path]. rewrite Htransfer. reflexivity. }
  split; [exact E|]. intros ->. rewrite E. reflexivity.
Qed.

Lemma C1_capacity_error_tries_next_peer_witness :
  let req := clone_request 7 ["A"; "B"] in
  let l0 := {| status := OK; src_host := default_backend; snapshot_path := "";
               allow_incremental_clone := false |} in
  let s0 := initial_state (C:=capacity_world) tt in
  let s1 := snd (_make_snapshot (C:=capacity_world) req "A" 9060 7 3 0
                   [(6, 6); (7, 7)] "" false s0) in
  let s2 := snd (transfer (C:=capacity_world) req tt "/data/7/clone" (peer "A")
                   "/snapshot/A/" s1) in
  peer_loop (C:=capacity_world) req tt "/data/7/clone" 0 [(6, 6); (7, 7)]
    [peer "A"; peer "B"] l0 s0
  = peer_loop (C:=capacity_world) req tt "/data/7/clone" 0 [(6, 6); (7, 7)]
      [peer "B"]
      {| status := capacity_error (C:=capacity_world) tt 5000; src_host := peer "A";
         snapshot_path := "/snapshot/A/"; allow_incremental_clone := true |}
      (release_guard (C:=capacity_world) "A" 9060 "/snapshot/A/" s2).
Proof.
  intros req l0 s0 s1 s2.
  apply (proj1 (C1_capacity_error_tries_next_peer (C:=capacity_world)
                  req tt "/data/7/clone" 0 [(6, 6); (7, 7)] (peer "A") [peer "B"]
                  l0 s0 s1 s2 "/snapshot/A/" true 5000
                  ltac:(vm_compute; reflexivity) ltac:(vm_compute; reflexivity))).
Defined.

(** C9: with an empty candidate list [_make_and_download_snapshots]
    returns its initial [OK] status and changes nothing: no event is
    issued (no snapshot, no download, no staging directory) and the
    out-parameters keep the caller's values. The missing data shows
    only later: the finish step stops at its "clone dir not existed"
    check when the staging directory is absent, which is what the
    branch for an existing tablet then returns. *)
Theorem C9_no_candidate_peer_returns_ok `{C : Collaborators} req :
  src_backends req = [] ->
  (forall data_dir local_data_path src_host0 snapshot_path0 missed allow (s : St),
      _make_and_download_snapshots req data_dir local_data_path src_host0
        snapshot_path0 missed allow s
      = (Ret {| status := OK; src_host := src_host0; snapshot_path := snapshot_path0;
                allow_incremental_clone := allow |}, s)) /\
  (forall tablet clone_dir version is_incremental (s : St) w,
      fs_exists clone_dir (world s) = ((OK, false), w) ->
      _finish_clone tablet clone_dir version is_incremental s
      = (Ret (InternalError "clone dir not existed. clone_dir={}" [AStr clone_dir]),
         call_void (EvRemoveAll clone_dir) (fs_remove_all clone_dir)
           (with_world s w [EvExists clone_dir]))) /\
  (forall tablet (s : St) w,
      let clone_dir := tablet_path tablet (world s) +:+ "/" +:+ CLONE_PREFIX in
      let specified_version :=
        if enable_unique_key_merge_on_write tablet (world s)
           && (get_pending_publish_min_version
                 (tablet_tablet_id tablet (world s)) (world s) - 1 <? version req)
        then get_pending_publish_min_version
               (tablet_tablet_id tablet (world s)) (world s) - 1
        else version req in
      try_lock_migration tablet (world s) = true ->
      replica_id req <= tablet_replica_id tablet (world s) ->
      get_missed_versions tablet specified_version (world s) <> [] ->
      fs_exists clone_dir (world s) = ((OK, false), w) ->
      clone_existing req tablet s
      = (Ret (Some (InternalError "clone dir not existed. clone_dir={}"
                      [AStr clone_dir])),
         call_void (EvRemoveAll clone_dir) (fs_remove_all clone_dir)
           (with_world s w [EvExists clone_dir]))).
Proof.
  intros Hempty.
  assert (Hpeers : forall data_dir local_data_path src_host0 snapshot_path0 missed
                          allow (s : St),
             _make_and_download_snapshots req data_dir local_data_path src_host0
               snapshot_path0 missed allow s
             = (Ret {| status := OK; src_host := src_host0;
                       snapshot_path := snapshot_path0;
                       allow_incremental_clone := allow |}, s)).
  { intros. unfold _make_and_download_snapshots. rewrite Hempty. reflexivity. }
  assert (Hfinish : forall tablet clone_dir version is_incremental (s : St) w,
             fs_exists clone_dir (world s) = ((OK, false), w) ->
             _finish_clone tablet clone_dir version is_incremental s
             = (Ret (InternalError "clone dir not existed. clone_dir={}"
                       [AStr clone_dir]),
                call_void (EvRemoveAll clone_dir) (fs_remove_all clone_dir)
                  (with_world s w [EvExists clone_dir]))).
  { intros tablet clone_dir version is_incremental s w Hex.
    unfold _finish_clone, defer, return_if_error_with, bind at 1, call at 1.
    rewrite Hex. reflexivity. }
  split; [exact Hpeers|]. split; [exact Hfinish|].
  intros tablet s w clone_dir specified_version Hlock Hreplica Hmissed Hex.
  unfold clone_existing.
  rewrite bind_read, Hlock. cbn [negb].
  rewrite bind_read.
  destruct (Z.ltb_spec (tablet_replica_id tablet (world s)) (replica_id req)); [lia|].
  rewrite bind_ret, !bind_read.
  rewrite bool_decide_eq_false_2 by exact Hmissed.
  rewrite bind_read, (bind_eq _ _ _ _ _ (Hpeers _ _ _ _ _ _ _)).
  cbn [status ok negb allow_incremental_clone].
  rewrite (bind_eq _ _ _ _ _ (Hfinish _ _ _ _ _ _ Hex)).
  reflexivity.
Qed.

Lemma C9_no_candidate_peer_returns_ok_witness :
  clone_existing (C:=nothing_staged_world) (clone_request 7 []) tt
    (initial_state (C:=nothing_staged_world) tt)
  = (Ret (Some (InternalError "clone dir not existed. clone_dir={}"
                  [AStr "/data/7/clone"])),
     call_void (C:=nothing_staged_world) (EvRemoveAll "/data/7/clone")
       (fs_remove_all (Collaborators:=nothing_staged_world) "/data/7/clone")
       (with_world (C:=nothing_staged_world)
          (initial_state (C:=nothing_staged_world) tt) tt
          [EvExists "/data/7/clone"])).
Proof.
  apply (proj2 (proj2 (C9_no_candidate_peer_returns_ok (C:=nothing_staged_world)
                         (clone_request 7 []) eq_refl))
           tt (initial_state (C:=nothing_staged_world) tt) tt).
  - reflexivity.
  - cbn. lia.
  - vm_compute. discriminate.
  - reflexivity.
Defined.

(** ** Composing runs *)
Section Compose.
Context `{C : Collaborators}.

Lemma runs_ret {A} (G : A -> list Event -> Prop) a : G a [] -> runs G (ret a).
Proof.
  intros H s. exists a, s, []. split; [reflexivity|].
  split; [now rewrite app_nil_r | exact H].
Qed.

Lemma runs_call {A} (G : A -> list Event -> Prop) e (op : W -> A * W) :
  (forall a, G a [e]) -> runs G (call e op).
Proof.
  intros H s. unfold call. destruct (op (world s)) as [a w].
  exists a, (with_world s w [e]), [e]. split; [reflexivity|].
  split; [reflexivity | apply H].
Qed.

Lemma runs_call_logged {A} (G : A -> list Event -> Prop) e (op : W -> A * W) :
  (forall a, G a [e a]) -> runs G (call_logged e op).
Proof.
  intros H s. unfold call_logged. destruct (op (world s)) as [a w].
  exists a, (with_world s w [e a]), [e a]. split; [reflexivity|].
  split; [reflexivity | apply H].
Qed.

Lemma runs_read {A} (G : A -> list Event -> Prop) (f : W -> A) :
  (forall a, G a []) -> runs G (read f).
Proof.
  intros H s. exists (f (world s)), s, []. split; [reflexivity|].
  split; [now rewrite app_nil_r | apply H].
Qed.

Lemma runs_bind {A B} (G1 : A -> list Event -> Prop)
  (G2 : A -> B -> list Event -> Prop) (G : B -> list Event -> Prop)
  (m : M A) (k : A -> M B) :
  runs G1 m -> (forall a, runs (G2 a) (k a)) ->
  (forall a e1 b e2, G1 a e1 -> G2 a b e2 -> G b (e1 ++ e2)) ->
  runs G (bind m k).
Proof.
  intros Hm Hk HG s. destruct (Hm s) as (a & s1 & e1 & E1 & T1 & G1a).
  destruct (Hk a s1) as (b & s2 & e2 & E2 & T2 & G2b).
  exists b, s2, (e1 ++ e2). unfold bind. rewrite E1. split; [exact E2|].
  split; [now rewrite T2, T1, app_assoc | eauto].
Qed.

Lemma runs_weaken {A} (G G' : A -> list Event -> Prop) (m : M A) :
  (forall a evs, G a evs -> G' a evs) -> runs G m -> runs G' m.
Proof.
  intros H Hm s. destruct (Hm s) as (a & s' & evs & E & T & Ga).
  exists a, s', evs. auto.
Qed.

Lemma quietly_ret {A} P (a : A) : quietly P (ret a).
Proof. apply runs_ret. constructor. Qed.

Lemma quietly_call {A} P e (op : W -> A * W) : P e -> quietly P (call e op).
Proof. intros H. apply runs_call. intros _. now repeat constructor. Qed.

Lemma quietly_read {A} P (f : W -> A) : quietly P (read f).
Proof. apply runs_read. constructor. Qed.

Lemma quietly_state {A} P (f : St -> A) : quietly P (fun s => (Ret (f s), s)).
Proof.
  intros s. exists (f s), s, []. split; [reflexivity|].
  split; [now rewrite app_nil_r | constructor].
Qed.

Lemma quietly_do_void P e (op : W -> W) : P e -> quietly P (do_ (call_void e op)).
Proof.
  intros H s. exists tt, (call_void e op s), [e]. split; [reflexivity|].
  split; [reflexivity | now repeat constructor].
Qed.

Lemma quietly_do_field P (f : St -> St) :
  (forall s, trace (f s) = trace s) -> quietly P (do_ f).
Proof.
  intros H s. exists tt, (f s), []. split; [reflexivity|].
  split; [now rewrite H, app_nil_r | constructor].
Qed.

Lemma quietly_bind {A B} P (m : M A) (k : A -> M B) :
  quietly P m -> (forall a, quietly P (k a)) -> quietly P (bind m k).
Proof.
  intros Hm Hk.
  apply (runs_bind (fun _ evs => Forall P evs) (fun _ _ evs => Forall P evs));
    [exact Hm | exact Hk |].
  intros. now apply Forall_app.
Qed.

Lemma quietly_return_if_error P (m k : M Status) :
  quietly P m -> quietly P k -> quietly P (return_if_error m k).
Proof.
  intros Hm Hk. apply quietly_bind; [exact Hm|].
  intros st. destruct (ok st); [exact Hk | apply quietly_ret].
Qed.

Lemma quietly_return_if_error_with {A} P (m : M (Status * A)) (k : A -> M Status) :
  quietly P m -> (forall a, quietly P (k a)) -> quietly P (return_if_error_with m k).
Proof.
  intros Hm Hk. apply quietly_bind; [exact Hm|].
  intros st. destruct (ok (fst st)); [apply Hk | apply quietly_ret].
Qed.

Lemma quietly_weaken {A} (P Q : Event -> Prop) (m : M A) :
  (forall e, P e -> Q e) -> quietly P m -> quietly Q m.
Proof.
  intros H. apply runs_weaken. intros _ evs Hevs.
  eapply Forall_impl; [exact Hevs | exact H].
Qed.
End Compose.

Ltac quietly_step :=
  lazymatch goal with
  | |- quietly _ (bind _ _) => apply quietly_bind; [|intros ?]
  | |- quietly _ (return_if_error_with _ _) =>
      apply quietly_return_if_error_with; [|intros ?]
  | |- quietly _ (return_if_error _ _) => apply quietly_return_if_error
  | |- quietly _ (call _ _) => apply quietly_call; exact I
  | |- quietly _ (read _) => apply quietly_read
  | |- quietly _ (ret _) => apply quietly_ret
  | |- quietly _ (do_ (call_void _ _)) => apply quietly_do_void; exact I
  | |- quietly _ (if ?b then _ else _) => destruct b
  | |- quietly _ (match ?x with _ => _ end) => destruct x
  end.

Section MergeIsQuiet.
Context `{C : Collaborators}.
Variable P : Event -> Prop.
Hypothesis P_create : P EvCreateRowset.
Hypothesis P_cooldown : P EvSetCooldownMetaId.
Hypothesis P_bitmap : P EvMergeDeleteBitmap.
Hypothesis P_revise : forall a d i, P (EvReviseTabletMeta a d i).

Lemma create_rowsets_quiet tablet metas acc :
  quietly P (create_rowsets tablet metas acc).
Proof.
  revert acc. induction metas as [|m metas IH]; intros acc; simpl.
  - apply quietly_ret.
  - apply quietly_bind; [now apply quietly_call|]. intros r.
    destruct (negb (ok (fst r))); [apply quietly_ret | apply IH].
Qed.

Lemma rowsets_for_missed_quiet tablet cloned missed acc :
  quietly P (rowsets_for_missed tablet cloned missed acc).
Proof.
  revert acc. induction missed as [|v missed IH]; intros acc; simpl.
  - apply quietly_ret.
  - destruct (acquire_rs_meta_by_version cloned v) as [rs_meta|]; [|apply quietly_ret].
    apply quietly_bind; [now apply quietly_call|]. intros res.
    destruct (negb (ok (fst res))); [apply quietly_ret | apply IH].
Qed.

Lemma finish_incremental_clone_quiet tablet cloned version :
  quietly P (_finish_incremental_clone tablet cloned version).
Proof.
  unfold _finish_incremental_clone.
  apply quietly_bind; [apply quietly_read|]. intros missed.
  apply quietly_return_if_error_with; [apply rowsets_for_missed_quiet|].
  intros rs. apply quietly_call. apply P_revise.
Qed.

Lemma finish_full_clone_quiet tablet cloned :
  quietly P (_finish_full_clone tablet cloned).
Proof.
  unfold _finish_full_clone.
  apply quietly_bind; [apply quietly_read|]. intros rowsets.
  destruct (full_clone_scan _ _ _); [|apply quietly_ret].
  apply quietly_return_if_error_with; [apply create_rowsets_quiet|].
  intros to_add.
  apply quietly_bind; [apply quietly_read|]. intros cr.
  apply quietly_bind; [apply quietly_read|]. intros mr.
  apply quietly_bind.
  { destruct (cr =? mr).
    - intros s. cbv beta. destruct (gen_uid (world s)) as [uid w].
      eexists tt, _, [EvSetCooldownMetaId].
      split; [reflexivity|]. split; [reflexivity | now repeat constructor].
    - now apply quietly_do_void. }
  intros _. apply quietly_bind; [apply quietly_read|]. intros mow.
  apply quietly_bind.
  { destruct mow; [now apply quietly_do_void | apply quietly_ret]. }
  intros _. apply quietly_call. apply P_revise.
Qed.
End MergeIsQuiet.

(** ** The finish step cleans up *)

Lemma successful_links_app e1 e2 :
  successful_links (e1 ++ e2) = successful_links e1 ++ successful_links e2.
Proof. apply omap_app. Qed.

Lemma successful_links_quiet evs : Forall quiet evs -> successful_links evs = [].
Proof.
  induction 1 as [|e evs He _ IH]; [reflexivity|].
  destruct e; try (destruct He); exact IH.
Qed.

Lemma quiet_no_delete e : quiet e -> no_delete e.
Proof. destruct e; simpl; auto. Qed.

Section FinishCleanup.
Context `{C : Collaborators}.

(** [m] always returns and leaves the links as [links_removed] says. *)
Definition cleans (m : M (S:=St) Status) : Prop :=
  forall s, exists st s1, m s = (Ret st, s1) /\ links_removed s st s1.

Lemma links_removed_prefix (s s' : St) q st s1 :
  trace s' = trace s ++ q -> Forall quiet q ->
  links_removed s' st s1 -> links_removed s st s1.
Proof.
  intros T Hq (sb & pre & Tb & Hpre & H).
  exists sb, (q ++ pre). split; [now rewrite Tb, T, app_assoc|]. split.
  - apply Forall_app. split; [|exact Hpre].
    eapply Forall_impl; [exact Hq | exact quiet_no_delete].
  - now rewrite successful_links_app, (successful_links_quiet q Hq).
Qed.

Lemma cleans_ret st : cleans (ret st).
Proof.
  intros s. exists st, s. split; [reflexivity|].
  exists s, []. split; [now rewrite app_nil_r|]. split; [constructor|].
  destruct (ok st); [reflexivity | now left].
Qed.

Lemma cleans_bind {A} (m : M A) (k : A -> M Status) :
  quietly quiet m -> (forall a, cleans (k a)) -> cleans (bind m k).
Proof.
  intros Hm Hk s. destruct (Hm s) as (a & s' & q & E & T & Hq).
  destruct (Hk a s') as (st & s1 & E1 & H).
  exists st, s1. split; [now rewrite (bind_eq _ _ _ _ _ E)|].
  now apply (links_removed_prefix s s' q).
Qed.

Lemma cleans_return_if_error (m k : M Status) :
  quietly quiet m -> cleans k -> cleans (return_if_error m k).
Proof.
  intros Hm Hk. apply cleans_bind; [exact Hm|].
  intros st. destruct (ok st); [exact Hk | apply cleans_ret].
Qed.

Lemma cleans_return_if_error_with {A} (m : M (Status * A)) (k : A -> M Status) :
  quietly quiet m -> (forall a, cleans (k a)) -> cleans (return_if_error_with m k).
Proof.
  intros Hm Hk. apply cleans_bind; [exact Hm|].
  intros st. destruct (ok (fst st)); [apply Hk | apply cleans_ret].
Qed.

Lemma check_dest_binlog_valid_quiet tablet_dir clone_dir clone_file :
  quietly quiet (check_dest_binlog_valid tablet_dir clone_dir clone_file).
Proof. unfold check_dest_binlog_valid. repeat quietly_step. Qed.

(** The link loop only adds to [linked_success_files], and what it
    adds are the destinations of the links that succeeded. *)
Definition link_loop_post (linked : list string) (ls : LinkState)
  (evs : list Event) : Prop :=
  Forall no_delete evs /\
  linked_success_files ls = linked ++ successful_links evs.

Lemma link_loop_runs tablet_dir clone_dir contain_binlog local files status linked :
  runs (link_loop_post linked)
       (link_loop tablet_dir clone_dir contain_binlog local files status linked).
Proof.
  revert status linked.
  induction files as [|f files IH]; intros status linked.
  - apply runs_ret. split; [constructor | now rewrite app_nil_r].
  - cbn [link_loop]. cbv zeta.
    destruct (bool_decide (f ∈ local)); [apply IH|].
    assert (Hstop : forall st,
               runs (link_loop_post linked)
                    (ret {| returned := true; link_status := st;
                            linked_success_files := linked |})).
    { intros st. apply runs_ret. split; [constructor | now rewrite app_nil_r]. }
    assert (Hlink : forall to skip,
      runs (link_loop_post linked)
        (if negb skip
         then st <- call_logged (EvLinkFile (clone_dir +:+ "/" +:+ f) to)
                      (fs_link_file (clone_dir +:+ "/" +:+ f) to) ;;
              if negb (ok st)
              then ret {| returned := true; link_status := st;
                          linked_success_files := linked |}
              else link_loop tablet_dir clone_dir contain_binlog local files st
                     (linked ++ [to])
         else link_loop tablet_dir clone_dir contain_binlog local files status
                linked)).
    { intros to skip. destruct skip; cbn [negb]; [apply IH|].
      apply (runs_bind
               (fun st evs => evs = [EvLinkFile (clone_dir +:+ "/" +:+ f) to st])
               (fun st ls evs =>
                  Forall no_delete evs /\
                  linked_success_files ls
                  = linked ++ (if ok st then [to] else []) ++ successful_links evs)).
      - apply runs_call_logged. reflexivity.
      - intros st. destruct (ok st) eqn:Hok; cbn [negb].
        + eapply runs_weaken; [|apply IH].
          intros ls evs [H1 H2]. split; [exact H1|].
          now rewrite H2, <- app_assoc.
        + apply runs_ret. split; [constructor | now rewrite !app_nil_r].
      - intros st e1 ls e2 -> [H1 H2]. split.
        + constructor; [exact I | exact H1].
        + rewrite H2. unfold successful_links at 2. simpl.
          destruct (ok st); reflexivity. }
    destruct (ends_with f ".binlog" || ends_with f ".binlog-index").
    + destruct contain_binlog; cbn [negb].
      * apply (runs_bind (fun _ evs => Forall quiet evs)
                 (fun _ => link_loop_post linked)).
        -- apply check_dest_binlog_valid_quiet.
        -- intros r. destruct (fst r) as [to|e]; [apply Hlink | apply Hstop].
        -- intros _ e1 ls e2 Hq [H1 H2]. split.
           ++ apply Forall_app. split; [|exact H1].
              eapply Forall_impl; [exact Hq | exact quiet_no_delete].
           ++ now rewrite successful_links_app, (successful_links_quiet e1 Hq).
      * apply runs_ret. split; [constructor | now rewrite app_nil_r].
    + apply (Hlink _ false).
Qed.
End FinishCleanup.

Section FinishCleanup2.
Context `{C : Collaborators}.

Lemma merge_quiet tablet cloned version (is_incremental : bool) :
  quietly quiet
    (if is_incremental
     then _finish_incremental_clone tablet cloned version
     else _finish_full_clone tablet cloned).
Proof.
  destruct is_incremental.
  - apply finish_incremental_clone_quiet; intros; exact I.
  - apply finish_full_clone_quiet; intros; exact I.
Qed.

Lemma link_and_merge_body_runs tablet tablet_dir clone_dir contain_binlog pb cloned
  version is_incremental local files :
  runs (link_loop_post [])
       (link_and_merge_body tablet tablet_dir clone_dir contain_binlog pb cloned
          version is_incremental local files).
Proof.
  unfold link_and_merge_body.
  apply (runs_bind (link_loop_post [])
           (fun ls ls' evs =>
              Forall quiet evs /\
              linked_success_files ls' = linked_success_files ls)).
  - apply link_loop_runs.
  - intros ls.
    assert (Hfinish : forall st,
               runs (fun ls' evs => Forall quiet evs /\
                                    linked_success_files ls' = linked_success_files ls)
                    (ret {| returned := true; link_status := st;
                            linked_success_files := linked_success_files ls |})).
    { intros st. apply runs_ret. split; [constructor | reflexivity]. }
    assert (Hmerge :
      runs (fun ls' evs => Forall quiet evs /\
                           linked_success_files ls' = linked_success_files ls)
        (status <-
           (if is_incremental
            then _finish_incremental_clone tablet cloned version
            else _finish_full_clone tablet cloned) ;;
         _ <- (if negb is_incremental && ok status
               then do_ (call_void
                           (EvSetCumulativeLayerPoint K_INVALID_CUMULATIVE_POINT)
                           (set_cumulative_layer_point tablet
                              K_INVALID_CUMULATIVE_POINT))
               else ret tt) ;;
         ret {| returned := true; link_status := status;
                linked_success_files := linked_success_files ls |})).
    { apply (runs_bind (fun _ evs => Forall quiet evs)
               (fun _ ls' evs => Forall quiet evs /\
                                 linked_success_files ls' = linked_success_files ls)).
      - apply merge_quiet.
      - intros status.
        apply (runs_bind (fun _ evs => Forall quiet evs)
                 (fun _ ls' evs => Forall quiet evs /\
                                   linked_success_files ls' = linked_success_files ls)).
        + destruct (negb is_incremental && ok status).
          * now apply quietly_do_void.
          * apply quietly_ret.
        + intros _. apply Hfinish.
        + intros _ e1 ls' e2 H1 [H2 H3]. split; [now apply Forall_app | exact H3].
      - intros _ e1 ls' e2 H1 [H2 H3]. split; [now apply Forall_app | exact H3]. }
    destruct (returned ls).
    { apply runs_ret. split; [constructor | reflexivity]. }
    cbv zeta. destruct contain_binlog; [|exact Hmerge].
    apply (runs_bind (fun _ evs => Forall quiet evs)
             (fun _ ls' evs => Forall quiet evs /\
                               linked_success_files ls' = linked_success_files ls)).
    + now apply quietly_call.
    + intros status. destruct (negb (ok status)); [apply Hfinish | exact Hmerge].
    + intros _ e1 ls' e2 H1 [H2 H3]. split; [now apply Forall_app | exact H3].
  - intros ls e1 ls' e2 [H1 H2] [H3 H4]. split.
    + apply Forall_app. split; [exact H1|].
      eapply Forall_impl; [exact H3 | exact quiet_no_delete].
    + rewrite H4, H2. simpl.
      now rewrite successful_links_app, (successful_links_quiet e2 H3), app_nil_r.
Qed.

Lemma link_and_merge_cleans tablet tablet_dir clone_dir contain_binlog pb cloned
  version is_incremental local files :
  cleans (link_and_merge tablet tablet_dir clone_dir contain_binlog pb cloned
            version is_incremental local files).
Proof.
  intros s. unfold link_and_merge.
  destruct (link_and_merge_body_runs tablet tablet_dir clone_dir contain_binlog pb
              cloned version is_incremental local files s)
    as (ls & sb & evs & E & T & Hnd & Hlinked).
  rewrite E. simpl in Hlinked. eexists _, _. split; [reflexivity|].
  exists sb, evs. split; [exact T|]. split; [exact Hnd|].
  unfold remove_linked_files. rewrite Hlinked.
  destruct (ok (link_status ls)); cbn [negb]; [reflexivity|].
  right. now destruct (fs_batch_delete (successful_links evs) (world sb)).
Qed.
End FinishCleanup2.

(** X16: the finish step always returns, and on every exit path its
    last action is [remove_all] of the staging directory. Before that
    no link is deleted when the step returns [OK]. When it returns an
    error, either it was left before a link succeeded, or the action
    before [remove_all] is one [batch_delete], called with exactly the
    destinations of the links that succeeded in this step. (A failure
    of [remove_all] or of [batch_delete] itself is only logged or
    dropped by the source and does not change the status.) *)
Theorem finish_clone_removes_links_and_staging `{C : Collaborators}
  tablet clone_dir version is_incremental (s : St) :
  exists st s1,
    _finish_clone tablet clone_dir version is_incremental s
    = (Ret st, call_void (EvRemoveAll clone_dir) (fs_remove_all clone_dir) s1) /\
    links_removed s st s1.
Proof.
  unfold _finish_clone, defer.
  match goal with
  | |- context [match ?body s with _ => _ end] =>
      assert (H : cleans body)
  end.
  { apply cleans_return_if_error_with; [now apply quietly_call|]. intros ex.
    destruct (negb ex); [apply cleans_ret|].
    apply cleans_bind; [apply quietly_read|]. intros tid.
    apply cleans_return_if_error_with; [now apply quietly_call|]. intros cloned.
    apply cleans_return_if_error; [now apply quietly_call|].
    apply cleans_bind; [apply quietly_read|]. intros tablet_dir.
    apply cleans_return_if_error_with; [now apply quietly_call|]. intros mex.
    apply cleans_return_if_error_with.
    { destruct mex; [|apply quietly_ret].
      apply quietly_bind; [now apply quietly_call|]. intros sz.
      destruct (fst sz); [apply quietly_ret|].
      apply quietly_bind.
      { destruct (0 <? to_u64 (snd sz)); [|apply quietly_ret].
        apply quietly_bind; [now apply quietly_call|]. intros r. apply quietly_ret. }
      intros pb. destruct (negb (ok (fst pb))); [apply quietly_ret|].
      apply quietly_bind; [now apply quietly_call|]. intros del. apply quietly_ret. }
    intros binlog.
    apply cleans_return_if_error.
    { destruct (fst binlog); [now apply quietly_call | apply quietly_ret]. }
    apply cleans_return_if_error_with; [now apply quietly_call|]. intros clone_files.
    apply cleans_return_if_error_with; [now apply quietly_call|]. intros local_files.
    apply link_and_merge_cleans. }
  destruct (H s) as (st & s1 & E & Hc). rewrite E.
  exists st, s1. split; [reflexivity | exact Hc].
Qed.

(** ** A staged binlog file without a manifest *)

(** The link loop leaves through its [break], with [status] as it was
    and without linking the file or anything after it. *)
Lemma link_loop_binlog_without_manifest `{C : Collaborators}
  tablet_dir clone_dir local clone_file rest status linked (s : St) :
  clone_file ∉ local ->
  ends_with clone_file ".binlog" || ends_with clone_file ".binlog-index" = true ->
  link_loop tablet_dir clone_dir false local (clone_file :: rest) status linked s
  = (Ret {| returned := false; link_status := status;
            linked_success_files := linked |}, s).
Proof.
  intros Hlocal Hbinlog. cbn [link_loop]. cbv zeta.
  rewrite bool_decide_eq_false_2 by exact Hlocal.
  rewrite Hbinlog. reflexivity.
Qed.

(** C2, on the failing input: the staging directory holds a [.binlog]
    file and a data file, and no [rowset_binlog_metas.pb]. The finish
    step does not fail: it leaves the link loop at the binlog file,
    links nothing, runs the full merge and returns [OK]. *)
Theorem C2_binlog_without_manifest_returns_ok :
  let r := _finish_clone (C:=binlog_world) tt "/data/7/clone" 7 false
             (initial_state (C:=binlog_world) tt) in
  fs_list (Collaborators:=binlog_world) "/data/7/clone" tt
  = ((OK, ["0200000000000001_0.binlog"; "0200000000000002_0.dat"]), tt) /\
  fst r = Ret OK /\
  successful_links (trace (snd r)) = [] /\
  EvReviseTabletMeta 4 2 false ∈ trace (snd r).
Proof.
  split; [reflexivity|]. split; [vm_compute; reflexivity|].
  split; [vm_compute; reflexivity|].
  apply list_elem_of_In. vm_compute. tauto.
Qed.

(** C7, on the failing input: the staging directory holds a data file
    and a [.binlog] file, and no [rowset_binlog_metas.pb]; the tablet
    directory has neither. In both orders in which the two staged
    names can be traversed the finish step returns [OK] and removes
    the staging directory as its last action, although a staged file
    was not linked into the tablet directory: when the binlog file
    comes first no file at all is linked, and when the data file comes
    first only the data file is linked. No link is removed. *)
Theorem C7_staged_files_left_unlinked :
  let binlog_first := _finish_clone (C:=binlog_world) tt "/data/7/clone" 7 false
                        (initial_state (C:=binlog_world) tt) in
  let binlog_last := _finish_clone (C:=binlog_last_world) tt "/data/7/clone" 7 false
                       (initial_state (C:=binlog_last_world) tt) in
  (fs_list (Collaborators:=binlog_world) "/data/7/clone" tt
   = ((OK, ["0200000000000001_0.binlog"; "0200000000000002_0.dat"]), tt) /\
   fs_list (Collaborators:=binlog_world) "/data/7" tt = ((OK, []), tt) /\
   fst binlog_first = Ret OK /\
   trace (snd binlog_first)
   = [EvExists "/data/7/clone"; EvCreateFromFile "/data/7/clone/7.hdr";
      EvDeleteFile "/data/7/clone/7.hdr";
      EvExists "/data/7/clone/rowset_binlog_metas.pb";
      EvListDir "/data/7/clone"; EvListDir "/data/7";
      EvCreateRowset; EvCreateRowset; EvCreateRowset; EvCreateRowset;
      EvSetCooldownMetaId; EvReviseTabletMeta 4 2 false;
      EvSetCumulativeLayerPoint (-1); EvRemoveAll "/data/7/clone"]) /\
  (fs_list (Collaborators:=binlog_last_world) "/data/7/clone" tt
   = ((OK, ["0200000000000002_0.dat"; "0200000000000001_0.binlog"]), tt) /\
   fs_list (Collaborators:=binlog_last_world) "/data/7" tt = ((OK, []), tt) /\
   fst binlog_last = Ret OK /\
   trace (snd binlog_last)
   = [EvExists "/data/7/clone"; EvCreateFromFile "/data/7/clone/7.hdr";
      EvDeleteFile "/data/7/clone/7.hdr";
      EvExists "/data/7/clone/rowset_binlog_metas.pb";
      EvListDir "/data/7/clone"; EvListDir "/data/7";
      EvLinkFile "/data/7/clone/0200000000000002_0.dat"
        "/data/7/0200000000000002_0.dat" OK;
      EvCreateRowset; EvCreateRowset; EvCreateRowset; EvCreateRowset;
      EvSetCooldownMetaId; EvReviseTabletMeta 4 2 false;
      EvSetCumulativeLayerPoint (-1); EvRemoveAll "/data/7/clone"]).
Proof.
  split; (split; [reflexivity|]); (split; [reflexivity|]);
    (split; [vm_compute; reflexivity|]); vm_compute; reflexivity.
Qed.

(** ** Nothing is missing locally *)

(** The claim of C4 fails for a merge-on-write tablet whose versions
    from 5 on are pending publish: for the requested version 7 the
    target is clamped to 4, nothing is missed, and the report step
    returns INTERNAL_ERROR because the reported version 4 is below 7. *)
Lemma C4_empty_missed_versions_counterexample :
  let req := clone_request 7 ["A"; "B"] in
  let s0 := initial_state (C:=pending_publish_world) tt in
  get_missed_versions (Collaborators:=pending_publish_world) tt 4 tt = [] /\
  fst (_do_clone (C:=pending_publish_world) req s0)
  = Ret (InternalError "unexpected version. tablet version: {}, expected version: {}"
           [AInt 4; AInt 7]) /\
  Forall not_peer (trace (snd (_do_clone (C:=pending_publish_world) req s0))).
Proof.
  split; [vm_compute; reflexivity|]. split; [vm_compute; reflexivity|].
  vm_compute. repeat constructor.
Qed.

(** C4 (amended): for an existing local tablet whose
    [get_missed_versions(specified_version)] is empty, the task makes
    no snapshot RPC and no file transfer; it reconciles the replica id,
    reports the tablet info and returns what the report step gives:
    the error of [report_tablet_info], INTERNAL_ERROR "unexpected
    version" when the reported version is below the requested one (the
    local tablet is kept), and otherwise [OK] with the tablet info
    appended to the task's list. With local [0-1], [2-5], [6-8] and
    requested version 7 the task returns [OK] with version 8 and
    issues only the transition registration, the report and the
    unregistration. *)
Theorem C4_empty_missed_versions_reports_only :
  (forall (C : Collaborators) req tablet (s : St) rst ti w,
      let s1 := if tablet_replica_id tablet (world s) <? replica_id req
                then call_void (EvSetReplicaId (replica_id req))
                       (set_replica_id tablet (replica_id req)) s
                else s in
      let specified_version :=
        if enable_unique_key_merge_on_write tablet (world s1)
           && (get_pending_publish_min_version
                 (tablet_tablet_id tablet (world s1)) (world s1) - 1 <? version req)
        then get_pending_publish_min_version
               (tablet_tablet_id tablet (world s1)) (world s1) - 1
        else version req in
      let s2 := with_world s1 w [EvReportTabletInfo (tablet_id req)] in
      try_lock_migration tablet (world s) = true ->
      _is_new_tablet s = false ->
      get_missed_versions tablet specified_version (world s1) = [] ->
      report_tablet_info
        {| ti_tablet_id := tablet_id req; ti_replica_id := replica_id req;
           ti_schema_hash := schema_hash req; ti_version := 0 |} (world s1)
      = ((rst, ti), w) ->
      clone_existing req tablet s
      = (if negb (ok rst) then (Ret (Some rst), s2)
         else if isset_version req && (ti_version ti <? version req)
              then (Ret (Some (InternalError
                                 "unexpected version. tablet version: {}, expected version: {}"
                                 [AInt (ti_version ti); AInt (version req)])), s2)
              else (Ret (Some OK), push_tablet_info ti s2)) /\
      appended not_peer s s2) /\
  (let r := _do_clone (C:=covered_world) (clone_request 7 ["A"; "B"])
              (initial_state (C:=covered_world) tt) in
   get_missed_versions (Collaborators:=covered_world) tt 7 tt = [] /\
   fst r = Ret OK /\
   _tablet_infos (snd r)
   = [{| ti_tablet_id := 7; ti_replica_id := 1; ti_schema_hash := 3;
         ti_version := 8 |}] /\
   trace (snd r)
   = [EvRegisterTransition 7; EvReportTabletInfo 7; EvUnregisterTransition 7]).
Proof.
  split.
  - intros C req tablet s rst ti w s1 specified_version s2 Hlock Hnew Hmissed Hreport.
    assert (Hs1 : (if tablet_replica_id tablet (world s) <? replica_id req
                   then do_ (call_void (EvSetReplicaId (replica_id req))
                               (set_replica_id tablet (replica_id req)))
                   else ret tt) s = (Ret tt, s1)).
    { subst s1. destruct (_ <? _); reflexivity. }
    assert (Hnew1 : _is_new_tablet s1 = false).
    { subst s1. destruct (_ <? _); exact Hnew. }
    split.
    + assert (Hcall : call (EvReportTabletInfo (tablet_id req))
                        (report_tablet_info
                           {| ti_tablet_id := tablet_id req;
                              ti_replica_id := replica_id req;
                              ti_schema_hash := schema_hash req; ti_version := 0 |}) s1
                      = (Ret (rst, ti), s2)).
      { unfold call. now rewrite Hreport. }
      assert (Hset : _set_tablet_info req s1
                     = (if negb (ok rst) then (Ret rst, s2)
                        else if isset_version req && (ti_version ti <? version req)
                             then (Ret (InternalError
                                          "unexpected version. tablet version: {}, expected version: {}"
                                          [AInt (ti_version ti); AInt (version req)]), s2)
                             else (Ret OK, push_tablet_info ti s2))).
      { unfold _set_tablet_info, return_if_error_with.
        rewrite (bind_eq _ _ _ _ _ Hcall). cbn [fst snd].
        destruct (ok rst); cbn [negb]; [|reflexivity].
        destruct (isset_version req && (ti_version ti <? version req)); [|reflexivity].
        assert (Hnew2 : _is_new_tablet s2 = false) by exact Hnew1.
        unfold bind at 1. rewrite Hnew2. reflexivity. }
      unfold clone_existing.
      rewrite bind_read, Hlock. cbn [negb].
      rewrite bind_read, (bind_eq _ _ _ _ _ Hs1), !bind_read.
      fold specified_version. rewrite Hmissed.
      rewrite bool_decide_eq_true_2 by reflexivity.
      destruct (ok rst) eqn:Hok; cbn [negb] in *.
      * destruct (isset_version req && (ti_version ti <? version req));
          rewrite (bind_eq _ _ _ _ _ Hset); reflexivity.
      * rewrite (bind_eq _ _ _ _ _ Hset). cbv beta. now rewrite Hok.
    + subst s2. eapply appended_trans; [|apply appended_with_world; repeat constructor].
      subst s1. destruct (_ <? _); [|apply appended_refl].
      exists [EvSetReplicaId (replica_id req)]. split; [reflexivity|].
      repeat constructor.
  - split; [vm_compute; reflexivity|]. split; [vm_compute; reflexivity|].
    split; vm_compute; reflexivity.
Qed.

Lemma C4_empty_missed_versions_reports_only_witness :
  clone_existing (C:=covered_world) (clone_request 7 ["A"; "B"]) tt
    (initial_state (C:=covered_world) tt)
  = (Ret (Some OK),
     push_tablet_info (C:=covered_world)
       {| ti_tablet_id := 7; ti_replica_id := 1; ti_schema_hash := 3;
          ti_version := 8 |}
       (with_world (C:=covered_world) (initial_state (C:=covered_world) tt) tt
          [EvReportTabletInfo 7])).
Proof.
  apply (proj1 (proj1 C4_empty_missed_versions_reports_only covered_world
                  (clone_request 7 ["A"; "B"]) tt
                  (initial_state (C:=covered_world) tt) OK
                  {| ti_tablet_id := 7; ti_replica_id := 1; ti_schema_hash := 3;
                     ti_version := 8 |} tt
                  ltac:(reflexivity) ltac:(reflexivity)
                  ltac:(vm_compute; reflexivity) ltac:(vm_compute; reflexivity))).
Defined.

(** * Further properties of the task *)

(** ** Strings *)

Lemma string_length_app s t :
  String.length (s +:+ t) = (String.length s + String.length t)%nat.
Proof. induction s as [|c s IH]; simpl; [reflexivity | now rewrite IH]. Qed.

Lemma substring_full t : String.substring 0 (String.length t) t = t.
Proof. induction t as [|c t IH]; simpl; [reflexivity | now rewrite IH]. Qed.

Lemma substring_app_skip s t n m :
  String.substring (String.length s + n) m (s +:+ t) = String.substring n m t.
Proof. induction s as [|c s IH]; simpl; [reflexivity | exact IH]. Qed.

Lemma substring_app_prefix s t :
  String.substring 0 (String.length s) (s +:+ t) = s.
Proof.
  induction s as [|c s IH]; simpl.
  - destruct t; reflexivity.
  - now rewrite IH.
Qed.

Lemma ends_with_app s suffix : ends_with (s +:+ suffix) suffix = true.
Proof.
  unfold ends_with. rewrite string_length_app.
  apply andb_true_intro. split.
  - apply Nat.leb_le. lia.
  - replace (String.length s + String.length suffix - String.length suffix)%nat
      with (String.length s + 0)%nat by lia.
    rewrite substring_app_skip, substring_full. apply String.eqb_refl.
Qed.

(** ** Snapshot negotiation *)


(** X1: [_make_snapshot] issues exactly one [make_snapshot] RPC. Its
    request marks [missing_version] as set and fills it with the
    starts of the missed versions, asks for a binlog copy, and carries
    a timeout only when [timeout_s] is positive. A snapshot path that
    comes back with an [OK] status always ends in a slash; on every
    failure the out-parameters keep the caller's values. *)
Theorem make_snapshot_one_rpc_normalised_path `{C : Collaborators}
  req ip port tid sh timeout missed sp0 aic0 (s : St) :
  let request :=
    {| sr_tablet_id := tid; sr_schema_hash := sh;
       sr_preferred_snapshot_version := TPREFER_SNAPSHOT_REQ_VERSION;
       sr_version := version req; sr_is_copy_binlog := true;
       sr_isset_missing_version := true; sr_missing_version := map fst missed;
       sr_timeout := if 0 <? timeout then Some timeout else None |} in
  exists o w,
    _make_snapshot req ip port tid sh timeout missed sp0 aic0 s
    = (o, with_world s w [EvMakeSnapshot ip port request]) /\
    match o with
    | Ret (st, (p, a)) =>
        if ok st then ends_with p "/" = true else p = sp0 /\ a = aic0
    | Throw _ => True
    | Crash _ => False
    end.
Proof.
  intros request. unfold _make_snapshot. fold request.
  unfold bind at 1, call at 1.
  destruct (rpc_make_snapshot ip port request (world s)) as [[rst res] w].
  cbn [fst snd].
  destruct (ok rst) eqn:Hrst; cbn [negb].
  2:{ eexists _, w. split; [reflexivity|]. cbn. now rewrite Hrst. }
  destruct (ok (ar_status res)) eqn:Hres; cbn [negb].
  2:{ eexists _, w. split; [reflexivity|]. cbn. now rewrite Hres. }
  destruct (ar_snapshot_path res) as [p|].
  2:{ eexists _, w. split; [reflexivity|]. cbn. now split. }
  destruct (String.length p =? 0)%nat.
  { eexists _, w. split; [reflexivity | exact I]. }
  eexists _, w. split; [reflexivity|]. cbn [ok].
  unfold back_is_slash. destruct (ends_with p "/") eqn:Hp; [exact Hp|].
  apply ends_with_app.
Qed.

(** ** When the peer loop stops *)

(** X2: once the transfer of an attempt has succeeded, no further peer
    is tried, whatever [convert_rowset_ids] returns. Its error is
    returned at once (it is the one failure of an attempt that is not
    retried with the next peer); on success the pending rowset guards
    are stored and the transfer's status is returned. In both cases
    the attempt's snapshot is released last. *)
Theorem peer_loop_stops_after_transfer `{C : Collaborators}
  req data_dir local_data_path timeout_s missed src rest l (s s1 s2 : St) p a st r w :
  _make_snapshot req (host src) (be_port src) (tablet_id req) (schema_hash req)
    timeout_s missed (snapshot_path l) (allow_incremental_clone l) s
  = (Ret (OK, (p, a)), s1) ->
  transfer req data_dir local_data_path src p s1 = (Ret st, s2) ->
  ok st = true ->
  convert_rowset_ids local_data_path (tablet_id req) (replica_id req) (table_id req)
    (partition_id req) (schema_hash req) (world s2) = (r, w) ->
  let s3 := with_world s2 w [EvConvertRowsetIds local_data_path] in
  peer_loop req data_dir local_data_path timeout_s missed (src :: rest) l s
  = (Ret {| status := match r with Val _ => st | ResultError e => e end;
            src_host := src; snapshot_path := p; allow_incremental_clone := a |},
     release_guard (host src) (be_port src) p
       (match r with Val g => set_pending_rs_guards g s3 | ResultError _ => s3 end)).
Proof.
  intros Hsnap Htransfer Hok Hconvert s3.
  assert (Hattempt :
    attempt req data_dir local_data_path timeout_s missed src l s
    = (Ret (Stop {| status := match r with Val _ => st | ResultError e => e end;
                    src_host := src; snapshot_path := p;
                    allow_incremental_clone := a |}),
       release_guard (host src) (be_port src) p
         (match r with Val g => set_pending_rs_guards g s3 | ResultError _ => s3 end))).
  { unfold attempt. rewrite (bind_eq _ _ _ _ _ Hsnap).
    cbn [fst snd ok negb snapshot_path]. unfold defer, download_from.
    rewrite (bind_eq _ _ _ _ _ Htransfer). rewrite Hok. cbn [negb].
    unfold bind at 1, call at 1. rewrite Hconvert. fold s3.
    destruct r; reflexivity. }
  cbn [peer_loop]. now rewrite (bind_eq _ _ _ _ _ Hattempt).
Qed.

Lemma peer_loop_stops_after_transfer_witness :
  let req := clone_request 7 ["A"; "B"] in
  let l0 := {| status := OK; src_host := default_backend; snapshot_path := "";
               allow_incremental_clone := false |} in
  let s0 := initial_state (C:=convert_failure_world) tt in
  fst (peer_loop (C:=convert_failure_world) req tt "/data/7/clone" 0
         [(6, 6); (7, 7)] [peer "A"; peer "B"] l0 s0)
  = Ret {| status := InternalError "convert rowset id failed" [];
           src_host := peer "A"; snapshot_path := "/snapshot/A/";
           allow_incremental_clone := true |}.
Proof.
  intros req l0 s0.
  set (s1 := snd (_make_snapshot (C:=convert_failure_world) req "A" 9060 7 3 0
                    [(6, 6); (7, 7)] "" false s0)).
  set (s2 := snd (transfer (C:=convert_failure_world) req tt "/data/7/clone"
                    (peer "A") "/snapshot/A/" s1)).
  rewrite (peer_loop_stops_after_transfer (C:=convert_failure_world)
             req tt "/data/7/clone" 0 [(6, 6); (7, 7)] (peer "A") [peer "B"]
             l0 s0 s1 s2 "/snapshot/A/" true OK
             (ResultError (InternalError "convert rowset id failed" [])) tt
             ltac:(vm_compute; reflexivity) ltac:(vm_compute; reflexivity)
             ltac:(reflexivity) ltac:(reflexivity)).
  reflexivity.
Defined.

(** X3: a peer that answers [make_snapshot] with an [OK] status and an
    empty snapshot path makes the task unwind with the exception of
    [std::string::at]: the peer loop does not go on to the next peer,
    and the snapshot of that attempt is not released. *)
Theorem empty_snapshot_path_throws `{C : Collaborators}
  req data_dir local_data_path timeout_s missed src rest l (s : St) rst res w :
  rpc_make_snapshot (host src) (be_port src) (snapshot_request req timeout_s missed)
    (world s) = ((rst, res), w) ->
  ok rst = true -> ok (ar_status res) = true -> ar_snapshot_path res = Some "" ->
  peer_loop req data_dir local_data_path timeout_s missed (src :: rest) l s
  = (Throw "std::out_of_range",
     with_world s w [EvMakeSnapshot (host src) (be_port src)
                       (snapshot_request req timeout_s missed)]).
Proof.
  intros Hrpc Hrst Hres Hpath.
  cbn [peer_loop]. unfold bind at 1, attempt, bind at 1, _make_snapshot.
  unfold bind at 1, call at 1. fold (snapshot_request req timeout_s missed).
  rewrite Hrpc. cbn [fst snd]. rewrite Hrst, Hres, Hpath. reflexivity.
Qed.

Lemma empty_snapshot_path_throws_witness :
  fst (peer_loop (C:=empty_path_world) (clone_request 7 ["A"; "B"]) tt
         "/data/7/clone" 0 [(6, 6); (7, 7)] [peer "A"; peer "B"]
         {| status := OK; src_host := default_backend; snapshot_path := "";
            allow_incremental_clone := false |}
         (initial_state (C:=empty_path_world) tt))
  = Throw "std::out_of_range".
Proof.
  rewrite (empty_snapshot_path_throws (C:=empty_path_world)
             (clone_request 7 ["A"; "B"]) tt "/data/7/clone" 0 [(6, 6); (7, 7)]
             (peer "A") [peer "B"] _ (initial_state (C:=empty_path_world) tt)
             OK (ok_snapshot "") tt
             ltac:(reflexivity) ltac:(reflexivity) ltac:(reflexivity)
             ltac:(reflexivity)).
  reflexivity.
Defined.

(** X4: an attempt whose [make_snapshot] succeeded releases that
    snapshot as its last action, whether the download and the id
    rewrite return or unwind (a crash of the process apart); an
    attempt whose [make_snapshot] failed issues no release and the
    loop moves on with that status. *)
Theorem attempt_releases_its_snapshot `{C : Collaborators}
  req data_dir local_data_path timeout_s missed src l (s s1 : St) st p a :
  _make_snapshot req (host src) (be_port src) (tablet_id req) (schema_hash req)
    timeout_s missed (snapshot_path l) (allow_incremental_clone l) s
  = (Ret (st, (p, a)), s1) ->
  let r := attempt req data_dir local_data_path timeout_s missed src l s in
  if ok st
  then match fst r with
       | Crash _ => True
       | _ => last (trace (snd r)) = Some (EvReleaseSnapshot (host src) (be_port src) p)
       end
  else r = (Ret (Next {| status := st; src_host := src; snapshot_path := p;
                         allow_incremental_clone := a |}), s1).
Proof.
  intros Hsnap r. subst r. unfold attempt.
  rewrite (bind_eq _ _ _ _ _ Hsnap). cbn [fst snd snapshot_path].
  destruct (ok st); cbn [negb]; [|reflexivity].
  unfold defer.
  destruct (download_from req data_dir local_data_path src _ s1) as [[x|e|e] s2];
    cbn [fst snd]; try exact I.
  - unfold release_guard, _release_snapshot, bind at 1, call at 1.
    destruct (rpc_release_snapshot _ _ _ _) as [[rst res] w]. cbn [fst snd].
    destruct (negb (ok rst)); cbn; apply last_snoc.
  - unfold release_guard, _release_snapshot, bind at 1, call at 1.
    destruct (rpc_release_snapshot _ _ _ _) as [[rst res] w]. cbn [fst snd].
    destruct (negb (ok rst)); cbn; apply last_snoc.
Qed.

Lemma attempt_releases_its_snapshot_witness :
  last (trace (snd (attempt (C:=capacity_world) (clone_request 7 ["A"; "B"]) tt
                      "/data/7/clone" 0 [(6, 6); (7, 7)] (peer "A")
                      {| status := OK; src_host := default_backend;
                         snapshot_path := ""; allow_incremental_clone := false |}
                      (initial_state (C:=capacity_world) tt))))
  = Some (EvReleaseSnapshot "A" 9060 "/snapshot/A/").
Proof.
  exact (attempt_releases_its_snapshot (C:=capacity_world)
           (clone_request 7 ["A"; "B"]) tt "/data/7/clone" 0 [(6, 6); (7, 7)]
           (peer "A") _ (initial_state (C:=capacity_world) tt) _ OK
           "/snapshot/A/" true ltac:(vm_compute; reflexivity)).
Defined.

(** ** The order of the per-file download *)

Lemma substring_split s n m :
  (n + m = String.length s)%nat ->
  s = String.substring 0 n s +:+ String.substring n m s.
Proof.
  revert n m. induction s as [|c s IH]; intros n m Hn; simpl in *.
  - destruct n; [|discriminate]. destruct m; [reflexivity | discriminate].
  - destruct n; simpl.
    + destruct m; [discriminate|]. injection Hn as Hn.
      rewrite Hn. now rewrite substring_full.
    + injection Hn as Hn.
      change (String c s = String c (String.substring 0 n s +:+ String.substring n m s)).
      f_equal. now apply IH.
Qed.

Lemma ends_with_split s suffix :
  ends_with s suffix = true -> exists p, s = p +:+ suffix.
Proof.
  unfold ends_with. intros H. apply andb_prop in H as [Hlen Heq].
  apply Nat.leb_le in Hlen. apply String.eqb_eq in Heq.
  exists (String.substring 0 (String.length s - String.length suffix) s).
  pose proof (substring_split s (String.length s - String.length suffix)
                (String.length suffix) ltac:(lia)) as E.
  rewrite Heq in E. exact E.
Qed.

Lemma string_app_assoc x y z : (x +:+ y) +:+ z = x +:+ y +:+ z.
Proof.
  induction x as [|c x IH]; [reflexivity|].
  change (String c ((x +:+ y) +:+ z) = String c (x +:+ y +:+ z)). now rewrite IH.
Qed.

Lemma ends_with_app_l x y suffix :
  ends_with y suffix = true -> ends_with (x +:+ y) suffix = true.
Proof.
  intros H. apply ends_with_split in H as [p ->].
  rewrite <- string_app_assoc. apply ends_with_app.
Qed.

Section DownloadOrder.
Context `{C : Collaborators}.

Lemma downloaded_app e1 e2 : downloaded (e1 ++ e2) = downloaded e1 ++ downloaded e2.
Proof. apply omap_app. Qed.

Lemma downloaded_sizes_app e1 e2 :
  downloaded_sizes (e1 ++ e2) = downloaded_sizes e1 ++ downloaded_sizes e2.
Proof. apply omap_app. Qed.

Lemma download_loop_order data_dir prefix local files total (s s' : St) st total' :
  download_loop data_dir prefix local files total s = (Ret (st, total'), s') ->
  exists evs n,
    trace s' = trace s ++ evs /\
    downloaded evs = map (fun f => local +:+ "/" +:+ f) (take n files) /\
    (ok st = true ->
     n = length files /\
     total' = foldl u64_add total (downloaded_sizes evs)).
Proof.
  revert total s. induction files as [|f files IH]; intros total s H.
  - simpl in H. injection H as <- <- <-. exists [], 0%nat.
    split; [now rewrite app_nil_r|]. split; [reflexivity|]. now split.
  - cbn [download_loop] in H. unfold bind at 1, call at 1 in H.
    destruct (http_get_file_size (prefix +:+ f) (world s)) as [[hst sz] w].
    cbn [fst snd] in H. set (s1 := with_world s w _) in H.
    destruct (ok hst) eqn:Hh; cbn [negb] in H.
    2:{ injection H as <- <- <-. exists [EvHttpHead (prefix +:+ f)], 0%nat.
        split; [reflexivity|]. split; [reflexivity|]. rewrite Hh. discriminate. }
    unfold bind at 1, read at 1 in H.
    destruct (reach_capacity_limit data_dir (to_u64 sz) (world s1)).
    { injection H as <- <- <-. exists [EvHttpHead (prefix +:+ f)], 0%nat.
      split; [reflexivity|]. split; [reflexivity|]. discriminate. }
    destruct (estimate_timeout _ _ _) as [t|]; [|discriminate].
    unfold bind at 1, call at 1 in H.
    destruct (http_download _ _ _ _ (world s1)) as [dst w2].
    set (s2 := with_world s1 w2 _) in H.
    destruct (ok dst) eqn:Hd.
    + destruct (IH _ _ H) as (evs & n & T & D & Hok).
      exists ([EvHttpHead (prefix +:+ f);
               EvHttpDownload (prefix +:+ f) (local +:+ "/" +:+ f)
                 (u64_mul t 1000) (to_u64 sz)] ++ evs), (Datatypes.S n).
      split; [rewrite T; subst s2 s1; simpl; now rewrite <- !app_assoc|].
      split; [rewrite downloaded_app, D; reflexivity|].
      intros Hst. destruct (Hok Hst) as [-> ->].
      split; [reflexivity|]. rewrite downloaded_sizes_app. reflexivity.
    + injection H as <- <- <-.
      exists [EvHttpHead (prefix +:+ f);
              EvHttpDownload (prefix +:+ f) (local +:+ "/" +:+ f)
                (u64_mul t 1000) (to_u64 sz)], 1%nat.
      split; [subst s2 s1; simpl; now rewrite <- !app_assoc|].
      split; [simpl; try rewrite take_0; reflexivity|]. rewrite Hd. discriminate.
Qed.
End DownloadOrder.

Lemma new_events_app `{C : Collaborators} (s s' : St) evs :
  trace s' = trace s ++ evs -> new_events s s' = evs.
Proof. intros H. unfold new_events. rewrite H. apply drop_app_length. Qed.

(** X5: when [_download_files] returns [OK], it has fetched exactly
    the files of the listing (split at newlines), each once, into the
    staging directory under its listed name, in the order of the
    reordered listing; so if the listing has a header, the header is
    the last file written. The copy size it records is the sum of the
    content lengths of the fetched files. *)
Theorem download_files_fetches_listing_header_last `{C : Collaborators}
  data_dir prefix local (s s' : St) st st1 w1 st2 w2 st3 listing w3 :
  fs_delete_directory local (world s) = (st1, w1) ->
  fs_create_directory local w1 = (st2, w2) ->
  http_list_files prefix w2 = ((st3, listing), w3) ->
  _download_files data_dir prefix local s = (Ret st, s') ->
  ok st = true ->
  let names := str_split_lines_skip_whitespace listing in
  downloaded (new_events s s')
  = map (fun f => local +:+ "/" +:+ f) (HdrLast.move_hdr_last id names) /\
  _copy_size s' = to_i64 (foldl u64_add 0 (downloaded_sizes (new_events s s'))) /\
  ((exists x, x ∈ names /\ ends_with x ".hdr" = true) ->
   exists f, last (downloaded (new_events s s')) = Some f /\
             ends_with f ".hdr" = true).
Proof.
  intros H1 H2 H3 Hrun Hok names.
  unfold _download_files, return_if_error, return_if_error_with in Hrun.
  unfold bind at 1, call at 1 in Hrun. rewrite H1 in Hrun.
  destruct (ok st1) eqn:E1.
  2:{ injection Hrun as <- _. congruence. }
  unfold bind at 1, call at 1 in Hrun. cbn [world with_world] in Hrun.
  rewrite H2 in Hrun.
  destruct (ok st2) eqn:E2.
  2:{ injection Hrun as <- _. congruence. }
  unfold bind at 1, call at 1 in Hrun. cbn [world with_world] in Hrun.
  rewrite H3 in Hrun. cbn [fst snd] in Hrun.
  destruct (ok st3) eqn:E3.
  2:{ injection Hrun as <- _. congruence. }
  fold names in Hrun. unfold bind at 1 in Hrun.
  match type of Hrun with
  | context [download_loop ?d ?p ?l ?fs ?t ?s0] =>
      destruct (download_loop d p l fs t s0) as [[[lst total]|e|e] s1] eqn:Hloop;
        try discriminate;
        set (sa := s0) in *
  end.
  cbn [fst snd] in Hrun.
  destruct (download_loop_order _ _ _ _ _ _ _ _ _ Hloop) as (evs & n & T & D & Hall).
  destruct (ok lst) eqn:El.
  2:{ injection Hrun as <- _. congruence. }
  destruct (Hall eq_refl) as [-> ->].
  unfold record_copy_stats in Hrun.
  destruct (watch_elapsed_time (world s1)) as [el w4].
  injection Hrun as <- <-.
  assert (T' : trace (set_copy_stats
                        (to_i64 (foldl u64_add 0 (downloaded_sizes evs)))
                        (to_i64 (to_u64 el / 1000 / 1000)) (with_world s1 w4 []))
               = trace s ++ [EvDeleteDirectory local; EvCreateDirectory local;
                             EvHttpList prefix] ++ evs).
  { cbn [trace set_copy_stats with_world]. rewrite app_nil_r, T. subst sa.
    cbn [trace with_world]. now rewrite <- !app_assoc. }
  rewrite (new_events_app _ _ _ T').
  assert (Hd : downloaded ([EvDeleteDirectory local; EvCreateDirectory local;
                            EvHttpList prefix] ++ evs)
               = map (fun f => local +:+ "/" +:+ f) (HdrLast.move_hdr_last id names)).
  { rewrite downloaded_app, D, firstn_all. reflexivity. }
  split; [exact Hd|]. split; [reflexivity|].
  intros Hex. rewrite Hd.
  destruct Hex as (x & Hin & Hx).
  destruct (move_hdr_last_hdr id names x Hin Hx) as (y & Hy & Hh).
  exists (local +:+ "/" +:+ y). split.
  - rewrite last_lookup in *. rewrite length_map, list_lookup_fmap, Hy. reflexivity.
  - rewrite <- string_app_assoc. now apply ends_with_app_l.
Qed.

Lemma download_files_fetches_listing_header_last_witness :
  let s0 := initial_state (C:=plain_world) tt in
  let r := _download_files (C:=plain_world) tt "http://A:8040/api?file=/snapshot/A/7/3/"
             "/data/7/clone" s0 in
  downloaded (new_events (C:=plain_world) s0 (snd r))
  = ["/data/7/clone/0200000000000001_0.dat"; "/data/7/clone/7.hdr"].
Proof.
  intros s0 r.
  exact (proj1 (download_files_fetches_listing_header_last (C:=plain_world)
                  tt "http://A:8040/api?file=/snapshot/A/7/3/" "/data/7/clone"
                  s0 (snd r) OK OK tt OK tt OK _ tt
                  ltac:(reflexivity) ltac:(reflexivity) ltac:(reflexivity)
                  ltac:(vm_compute; reflexivity) ltac:(reflexivity))).
Defined.

(** ** What the transfer touches *)
Section Only.
Context `{C : Collaborators}.

Lemma only_of_quietly {A} P (m : M A) : quietly P m -> only P m.
Proof.
  intros H s. destruct (H s) as (a & s' & evs & E & T & F).
  exists evs. rewrite E. auto.
Qed.

Lemma only_bind {A B} P (m : M A) (k : A -> M B) :
  only P m -> (forall a, only P (k a)) -> only P (bind m k).
Proof.
  intros Hm Hk s. destruct (Hm s) as (e1 & T1 & F1). unfold bind.
  destruct (m s) as [[a|e|e] s1]; cbn [fst snd] in *.
  - destruct (Hk a s1) as (e2 & T2 & F2). exists (e1 ++ e2).
    split; [now rewrite T2, T1, app_assoc | now apply Forall_app].
  - exists e1. auto.
  - exists e1. auto.
Qed.

Lemma only_stop {A} P (o : Outcome A) : only P (fun s => (o, s)).
Proof. intros s. exists []. split; [now rewrite app_nil_r | constructor]. Qed.

Lemma quietly_of_appended {A} P (m : M A) :
  (forall s, exists a s', m s = (Ret a, s') /\ appended P s s') -> quietly P m.
Proof.
  intros H s. destruct (H s) as (a & s' & E & evs & T & F).
  exists a, s', evs. auto.
Qed.

Lemma download_loop_only P data_dir prefix local files total :
  (forall url, P (EvHttpHead url)) ->
  (forall f t sz, P (EvHttpDownload (prefix +:+ f) (local +:+ "/" +:+ f) t sz)) ->
  only P (download_loop data_dir prefix local files total).
Proof.
  intros Hhead Hget. revert total.
  induction files as [|f files IH]; intros total; cbn [download_loop].
  - apply only_of_quietly, quietly_ret.
  - apply only_bind; [apply only_of_quietly, quietly_call, Hhead|]. intros h.
    destruct (negb (ok (fst h))); [apply only_of_quietly, quietly_ret|].
    apply only_bind; [apply only_of_quietly, quietly_read|]. intros full.
    destruct full; [apply only_of_quietly, quietly_ret|].
    destruct (estimate_timeout _ _ _) as [t|]; [|apply only_stop].
    apply only_bind; [apply only_of_quietly, quietly_call, Hget|]. intros st.
    destruct (ok st); [apply IH | apply only_of_quietly, quietly_ret].
Qed.

Lemma record_copy_stats_quiet P total : quietly P (record_copy_stats total).
Proof.
  apply quietly_of_appended. intros s.
  destruct (record_copy_stats_run P total s) as (s' & E & H). eauto.
Qed.

Lemma batch_loop_quiet P data_dir address remote_dir local fuel remaining total :
  (forall b, P (EvDownloadFilesV2 address remote_dir local b)) ->
  quietly P (batch_loop fuel data_dir address remote_dir local remaining total).
Proof.
  intros HP s.
  destruct (batch_loop_run data_dir address remote_dir local fuel remaining total s)
    as (r & s' & n & E & T & _).
  exists r, s', (map (EvDownloadFilesV2 address remote_dir local)
                     (take n (pack_loop fuel remaining))).
  split; [exact E|]. split; [exact T|].
  apply Forall_forall. intros e He. apply list_elem_of_fmap in He as (b & -> & _).
  apply HP.
Qed.
End Only.

(** A transfer issues no other events than those of [staging_only]. *)
Lemma transfer_staging `{C : Collaborators}
  req data_dir local_data_path src p :
  only (staging_only local_data_path) (transfer req data_dir local_data_path src p).
Proof.
  unfold transfer. apply only_bind.
  { destruct enable_batch_download; apply only_of_quietly.
    - apply quietly_bind; [now apply quietly_call|]. intros st. apply quietly_ret.
    - apply quietly_ret. }
  intros [|].
  - apply only_of_quietly. unfold _batch_download_files.
    apply quietly_return_if_error; [now apply quietly_call|].
    apply quietly_return_if_error; [now apply quietly_call|].
    apply quietly_return_if_error_with; [now apply quietly_call|]. intros listed.
    apply quietly_bind; [now apply batch_loop_quiet|]. intros r.
    destruct (ok (fst r)); [apply record_copy_stats_quiet | apply quietly_ret].
  - unfold _download_files, return_if_error, return_if_error_with.
    apply only_bind; [apply only_of_quietly; now apply quietly_call|]. intros st1.
    destruct (ok st1); [|apply only_of_quietly, quietly_ret].
    apply only_bind; [apply only_of_quietly; now apply quietly_call|]. intros st2.
    destruct (ok st2); [|apply only_of_quietly, quietly_ret].
    apply only_bind; [apply only_of_quietly; now apply quietly_call|]. intros l.
    destruct (ok (fst l)); [|apply only_of_quietly, quietly_ret].
    apply only_bind.
    + apply download_loop_only; [intros; exact I|]. intros f t sz. now exists f.
    + intros r. apply only_of_quietly.
      destruct (ok (fst r)); [apply record_copy_stats_quiet | apply quietly_ret].
Qed.

(** ** Binlog files *)

Lemma ends_with_binlog_index stem :
  ends_with (stem +:+ ".binlog-index") ".binlog" = false.
Proof.
  unfold ends_with. rewrite string_length_app.
  replace (String.length stem + String.length ".binlog-index"
           - String.length ".binlog")%nat
    with (String.length stem + 6)%nat by (simpl; lia).
  rewrite substring_app_skip. simpl. apply andb_false_r.
Qed.

Lemma replace_suffix_app stem old new :
  replace_suffix (stem +:+ old) (String.length old) new = stem +:+ new.
Proof.
  unfold replace_suffix. rewrite string_length_app.
  replace (String.length stem + String.length old - String.length old)%nat
    with (String.length stem) by lia.
  now rewrite substring_app_prefix.
Qed.

(** X7: [check_dest_binlog_valid] places a staged [x.binlog] at
    [<tablet_dir>/_binlog/x.dat] and a staged [x.binlog-index] at
    [<tablet_dir>/_binlog/x.idx]. If the destination does not exist
    it is returned and the file is to be linked; if it exists, the
    MD5 sums of the staged file and of the destination are compared:
    equal sums ask to skip the link, different sums are an
    INTERNAL_ERROR. *)
Theorem check_dest_binlog_valid_renames_and_compares `{C : Collaborators}
  tablet_dir clone_dir stem (index : bool) (s : St) present w1 :
  let clone_file := stem +:+ (if index then ".binlog-index" else ".binlog") in
  let to := tablet_dir +:+ "/_binlog/" +:+ stem
              +:+ (if index then ".idx" else ".dat") in
  let from := clone_dir +:+ "/" +:+ clone_file in
  let s1 := with_world s w1 [EvExists to] in
  fs_exists to (world s) = ((OK, present), w1) ->
  (present = false ->
   check_dest_binlog_valid tablet_dir clone_dir clone_file s
   = (Ret (Val to, false), s1)) /\
  (present = true ->
   forall m1 w2 m2 w3,
     fs_md5sum from w1 = ((OK, m1), w2) ->
     fs_md5sum to w2 = ((OK, m2), w3) ->
     check_dest_binlog_valid tablet_dir clone_dir clone_file s
     = (Ret (if String.eqb m1 m2
             then (Val to, true)
             else (ResultError
                     (InternalError
                        "binlog file already exist, but md5sum not equal. tablet_dir={}, clone_file={}"
                        [AStr tablet_dir; AStr clone_file]), false)),
        with_world (with_world s1 w2 [EvMd5sum from]) w3 [EvMd5sum to])).
Proof.
  intros clone_file to from s1 Hex.
  assert (Hto : check_dest_binlog_valid tablet_dir clone_dir clone_file
                = (e <- call (EvExists to) (fs_exists to) ;;
                   if negb (ok (fst e)) then ret (ResultError (fst e), false) else
                   if negb (snd e) then ret (Val to, false) else
                   m1 <- call (EvMd5sum from) (fs_md5sum from) ;;
                   if negb (ok (fst m1)) then ret (ResultError (fst m1), false) else
                   m2 <- call (EvMd5sum to) (fs_md5sum to) ;;
                   if negb (ok (fst m2)) then ret (ResultError (fst m2), false) else
                   if String.eqb (snd m1) (snd m2) then ret (Val to, true)
                   else ret (ResultError
                               (InternalError
                                  "binlog file already exist, but md5sum not equal. tablet_dir={}, clone_file={}"
                                  [AStr tablet_dir; AStr clone_file]),
                             false))).
  { unfold check_dest_binlog_valid. subst clone_file to from. destruct index.
    - rewrite ends_with_binlog_index, ends_with_app.
      pose proof (replace_suffix_app stem ".binlog-index" ".idx") as E.
      cbn [String.length] in E. now rewrite E.
    - rewrite ends_with_app.
      pose proof (replace_suffix_app stem ".binlog" ".dat") as E.
      cbn [String.length] in E. now rewrite E. }
  rewrite Hto.
  assert (Hcall : call (EvExists to) (fs_exists to) s = (Ret (OK, present), s1)).
  { unfold call. now rewrite Hex. }
  rewrite (bind_eq _ _ _ _ _ Hcall). cbn [fst snd ok negb].
  split; intros ->; cbn [negb]; [reflexivity|].
  intros m1 w2 m2 w3 Hm1 Hm2.
  unfold bind at 1, call at 1. cbn [world s1 with_world]. rewrite Hm1.
  cbn [fst snd ok negb]. unfold bind at 1, call at 1. cbn [world with_world].
  rewrite Hm2. cbn [fst snd ok negb].
  destruct (String.eqb m1 m2); reflexivity.
Qed.

Lemma check_dest_binlog_valid_renames_and_compares_witness :
  check_dest_binlog_valid (C:=empty_disk_world) "/data/7" "/data/7/clone"
    "0200000000000001_0.binlog-index" (initial_state (C:=empty_disk_world) tt)
  = (Ret (Val "/data/7/_binlog/0200000000000001_0.idx", false),
     with_world (C:=empty_disk_world) (initial_state (C:=empty_disk_world) tt) tt
       [EvExists "/data/7/_binlog/0200000000000001_0.idx"]).
Proof.
  exact (proj1 (check_dest_binlog_valid_renames_and_compares (C:=empty_disk_world)
                  "/data/7" "/data/7/clone" "0200000000000001_0" true
                  (initial_state (C:=empty_disk_world) tt) false tt
                  ltac:(reflexivity)) eq_refl).
Defined.

(** ** What the merges hand to [revise_tablet_meta] *)
Section Merges.
Context `{C : Collaborators}.

Lemma create_rowsets_trace tablet metas acc (s : St) :
  exists r s' k,
    create_rowsets tablet metas acc s = (Ret r, s') /\
    trace s' = trace s ++ replicate k EvCreateRowset /\
    (k <= length metas)%nat /\
    (ok (fst r) = true ->
     k = length metas /\ length (snd r) = (length acc + length metas)%nat).
Proof.
  revert acc s. induction metas as [|m metas IH]; intros acc s.
  - exists (OK, acc), s, 0%nat. simpl. rewrite app_nil_r.
    repeat split; lia.
  - cbn [create_rowsets]. unfold bind at 1, call at 1.
    destruct (create_rowset tablet m (world s)) as [[st rs] w]. cbn [fst snd].
    destruct (ok st) eqn:Hst; cbn [negb].
    + destruct (IH (acc ++ [rs]) (with_world s w [EvCreateRowset]))
        as (r & s' & k & E & T & Hk & Hok).
      exists r, s', (Datatypes.S k). split; [exact E|].
      split; [rewrite T; simpl; now rewrite <- app_assoc|].
      split; [simpl; lia|]. intros H. destruct (Hok H) as [-> Hlen].
      rewrite length_app in Hlen. simpl in *. lia.
    + exists (st, acc), (with_world s w [EvCreateRowset]), 1%nat.
      split; [reflexivity|]. split; [reflexivity|]. split; [simpl; lia|].
      simpl. rewrite Hst. discriminate.
Qed.

End Merges.

Lemma full_clone_scan_result `{C : Collaborators} (mv : Version)
  (rowsets : list (Version * Rowset)) acc :
  (exists x : Version * Rowset,
      full_clone_scan mv rowsets acc
      = ResultError (version_cross_error (snd mv) (fst x))) \/
  full_clone_scan mv rowsets acc = Val (acc ++ deleted_by_full_clone (snd mv) rowsets).
Proof.
  revert acc. induction rowsets as [|[v rs] rowsets IH]; intros acc.
  - right. simpl. unfold deleted_by_full_clone. simpl. now rewrite app_nil_r.
  - simpl. destruct ((fst v <=? snd mv) && (snd v >? snd mv)).
    { left. exists (v, rs). reflexivity. }
    unfold deleted_by_full_clone. rewrite filter_cons. cbn [fst snd].
    destruct (Z.leb_spec (snd v) (snd mv)) as [Hle|Hgt].
    + rewrite decide_True by assumption.
      destruct (IH (acc ++ [rs])) as [Herr|Hval]; [now left|].
      right. rewrite Hval. unfold deleted_by_full_clone. simpl.
      now rewrite <- app_assoc.
    + rewrite decide_False by lia. apply IH.
Qed.

(** The trace of a full merge, by the place it stops at. *)
Lemma finish_full_clone_shape `{C : Collaborators} tablet cloned (s : St) :
  let M := snd (max_version cloned) in
  let rowsets := rowset_map tablet (world s) in
  let n := length (all_rs_metas cloned) in
  let revise := EvReviseTabletMeta n (length (deleted_by_full_clone M rowsets)) false in
  exists st s' evs,
    _finish_full_clone tablet cloned s = (Ret st, s') /\
    trace s' = trace s ++ evs /\
    ((exists bitmap,
        (bitmap = [] \/ bitmap = [EvMergeDeleteBitmap]) /\
        evs = replicate n EvCreateRowset ++ [EvSetCooldownMetaId] ++ bitmap ++ [revise])
     \/ (ok st = false /\ Forall (fun e => e = EvCreateRowset) evs)).
Proof.
  intros M rowsets n revise. unfold _finish_full_clone.
  rewrite bind_read. fold rowsets.
  destruct (full_clone_scan_result (max_version cloned) rowsets []) as [[x E]|E];
    rewrite E.
  { eexists _, s, []. split; [reflexivity|]. split; [now rewrite app_nil_r|].
    right. split; [reflexivity | constructor]. }
  cbn [app]. fold M. unfold return_if_error_with.
  destruct (create_rowsets_trace tablet (all_rs_metas cloned) [] s)
    as (r & s1 & k & Ec & T & Hk & Hok).
  rewrite (bind_eq _ _ _ _ _ Ec).
  destruct (ok (fst r)) eqn:Hr.
  2:{ exists (fst r), s1, (replicate k EvCreateRowset).
      split; [reflexivity|]. split; [exact T|]. right. split; [exact Hr|].
      apply Forall_forall. intros e He. now apply elem_of_replicate in He as [-> _]. }
  destruct (Hok eq_refl) as [-> Hlen]. simpl in Hlen. fold n in Hlen, T.
  rewrite !bind_read.
  assert (Hcool : exists s2,
    (if cooldown_replica_id tablet (world s1) =? tablet_replica_id tablet (world s1)
     then fun s0 : St =>
            let '(uid, w) := gen_uid (world s0) in
            (Ret tt, with_world s0 (set_cooldown_meta_id tablet uid w)
                       [EvSetCooldownMetaId])
     else do_ (call_void EvSetCooldownMetaId
                 (set_cooldown_meta_id tablet (cooldown_meta_id cloned)))) s1
    = (Ret tt, s2) /\ trace s2 = trace s1 ++ [EvSetCooldownMetaId]).
  { destruct (_ =? _).
    - cbv beta. destruct (gen_uid (world s1)) as [uid w]. eexists.
      split; reflexivity.
    - eexists. split; reflexivity. }
  destruct Hcool as (s2 & Ecool & T2).
  rewrite (bind_eq _ _ _ _ _ Ecool), bind_read.
  assert (Hlast : forall (s3 : St) bitmap,
             trace s3 = trace s2 ++ bitmap ->
             bitmap = [] \/ bitmap = [EvMergeDeleteBitmap] ->
             exists st s' evs,
               call (EvReviseTabletMeta (length (snd r))
                       (length (deleted_by_full_clone M rowsets)) false)
                    (revise_tablet_meta tablet (snd r)
                       (deleted_by_full_clone M rowsets) false) s3 = (Ret st, s') /\
               trace s' = trace s ++ evs /\
               ((exists bitmap,
                   (bitmap = [] \/ bitmap = [EvMergeDeleteBitmap]) /\
                   evs = replicate n EvCreateRowset ++ [EvSetCooldownMetaId]
                         ++ bitmap ++ [revise])
                \/ (ok st = false /\ Forall (fun e => e = EvCreateRowset) evs))).
  { intros s3 bitmap T3 Hb. unfold call.
    destruct (revise_tablet_meta _ _ _ _ _) as [st w].
    eexists st, _, _. split; [reflexivity|]. split.
    - cbn [trace with_world]. rewrite T3, T2, T, Hlen. rewrite <- !app_assoc.
      reflexivity.
    - left. exists bitmap. split; [exact Hb | reflexivity]. }
  destruct (enable_unique_key_merge_on_write tablet (world s2)).
  - unfold bind at 1, do_ at 1.
    apply (Hlast _ [EvMergeDeleteBitmap]); [reflexivity | now right].
  - rewrite bind_ret. apply (Hlast _ []); [now rewrite app_nil_r | now left].
Qed.

(** ** The cumulative layer point *)
Section CumulativePoint.
Context `{C : Collaborators}.
Variable is_incremental : bool.

Lemma reset_prefix st q evs :
  Forall no_reset q -> reset_after_full_merge is_incremental st evs ->
  reset_after_full_merge is_incremental st (q ++ evs).
Proof.
  unfold reset_after_full_merge. intros Hq H.
  destruct (negb is_incremental && ok st).
  - destruct H as (pre & a & d & -> & Hpre). exists (q ++ pre), a, d.
    split; [now rewrite app_assoc | now apply Forall_app].
  - now apply Forall_app.
Qed.

Lemma reset_failed st evs :
  ok st = false -> Forall no_reset evs ->
  reset_after_full_merge is_incremental st evs.
Proof.
  unfold reset_after_full_merge. intros -> H. now rewrite andb_false_r.
Qed.

Lemma reset_bind {A} (m : M A) (k : A -> M Status) :
  quietly no_reset m -> (forall a, runs (reset_after_full_merge is_incremental) (k a)) ->
  runs (reset_after_full_merge is_incremental) (bind m k).
Proof.
  intros Hm Hk.
  apply (runs_bind (fun _ evs => Forall no_reset evs)
           (fun _ => reset_after_full_merge is_incremental));
    [exact Hm | exact Hk |].
  intros _ e1 st e2. apply reset_prefix.
Qed.

Lemma reset_return_if_error (m k : M Status) :
  quietly no_reset m -> runs (reset_after_full_merge is_incremental) k ->
  runs (reset_after_full_merge is_incremental) (return_if_error m k).
Proof.
  intros Hm Hk. apply reset_bind; [exact Hm|].
  intros st. destruct (ok st) eqn:E; [exact Hk|].
  apply runs_ret, reset_failed; [exact E | constructor].
Qed.

Lemma reset_return_if_error_with {A} (m : M (Status * A)) (k : A -> M Status) :
  quietly no_reset m -> (forall a, runs (reset_after_full_merge is_incremental) (k a)) ->
  runs (reset_after_full_merge is_incremental) (return_if_error_with m k).
Proof.
  intros Hm Hk. apply reset_bind; [exact Hm|].
  intros st. destruct (ok (fst st)) eqn:E; [apply Hk|].
  apply runs_ret, reset_failed; [exact E | constructor].
Qed.

(** An error of [check_dest_binlog_valid] never carries an [OK] status. *)
Lemma check_dest_binlog_valid_error tablet_dir clone_dir clone_file :
  runs (fun r evs => Forall no_reset evs /\
                     match fst r with
                     | ResultError e => ok e = false
                     | Val _ => True
                     end)
       (check_dest_binlog_valid tablet_dir clone_dir clone_file).
Proof.
  unfold check_dest_binlog_valid. intros s.
  unfold bind at 1, call at 1. destruct (fs_exists _ _) as [[est ex] w1].
  cbn [fst snd]. destruct (ok est) eqn:E1; cbn [negb].
  2:{ eexists _, _, [_]. split; [reflexivity|]. split; [reflexivity|].
      split; [repeat constructor | exact E1]. }
  destruct ex; cbn [negb].
  2:{ eexists _, _, [_]. split; [reflexivity|]. split; [reflexivity|].
      split; [repeat constructor | exact I]. }
  unfold bind at 1, call at 1. destruct (fs_md5sum _ _) as [[m1st m1] w2].
  cbn [fst snd]. destruct (ok m1st) eqn:E2; cbn [negb].
  2:{ eexists _, _, [_; _]. split; [reflexivity|].
      split; [cbn; now rewrite <- app_assoc|].
      split; [repeat constructor | exact E2]. }
  unfold bind at 1, call at 1. destruct (fs_md5sum _ _) as [[m2st m2] w3].
  cbn [fst snd]. destruct (ok m2st) eqn:E3; cbn [negb].
  2:{ eexists _, _, [_; _; _]. split; [reflexivity|].
      split; [cbn; now rewrite <- !app_assoc|].
      split; [repeat constructor | exact E3]. }
  destruct (String.eqb m1 m2).
  - eexists _, _, [_; _; _]. split; [reflexivity|].
    split; [cbn; now rewrite <- !app_assoc|].
    split; [repeat constructor | exact I].
  - eexists _, _, [_; _; _]. split; [reflexivity|].
    split; [cbn; now rewrite <- !app_assoc|].
    split; [repeat constructor | reflexivity].
Qed.

(** A [return] inside the link loop carries an error. *)
Lemma link_loop_returns_error tablet_dir clone_dir contain_binlog local files
  status linked :
  runs (fun ls evs => Forall no_reset evs /\
                      (returned ls = true -> ok (link_status ls) = false))
       (link_loop tablet_dir clone_dir contain_binlog local files status linked).
Proof.
  revert status linked.
  induction files as [|f files IH]; intros status linked.
  - apply runs_ret. split; [constructor | discriminate].
  - cbn [link_loop]. cbv zeta.
    destruct (bool_decide (f ∈ local)); [apply IH|].
    assert (Hlink : forall to skip,
      runs (fun ls evs => Forall no_reset evs /\
                          (returned ls = true -> ok (link_status ls) = false))
        (if negb skip
         then st <- call_logged (EvLinkFile (clone_dir +:+ "/" +:+ f) to)
                      (fs_link_file (clone_dir +:+ "/" +:+ f) to) ;;
              if negb (ok st)
              then ret {| returned := true; link_status := st;
                          linked_success_files := linked |}
              else link_loop tablet_dir clone_dir contain_binlog local files st
                     (linked ++ [to])
         else link_loop tablet_dir clone_dir contain_binlog local files status
                linked)).
    { intros to skip. destruct skip; cbn [negb]; [apply IH|].
      apply (runs_bind (fun _ evs => Forall no_reset evs)
               (fun _ ls evs => Forall no_reset evs /\
                                (returned ls = true -> ok (link_status ls) = false))).
      - apply runs_call_logged. intros st. now repeat constructor.
      - intros st. destruct (ok st) eqn:Hok; cbn [negb]; [apply IH|].
        apply runs_ret. split; [constructor | intros _; exact Hok].
      - intros _ e1 ls e2 H1 [H2 H3]. split; [now apply Forall_app | exact H3]. }
    destruct (ends_with f ".binlog" || ends_with f ".binlog-index").
    + destruct contain_binlog; cbn [negb].
      * apply (runs_bind
                 (fun r evs => Forall no_reset evs /\
                               match fst r with
                               | ResultError e => ok e = false
                               | Val _ => True
                               end)
                 (fun r ls evs =>
                    match fst r with ResultError e => ok e = false | Val _ => True end ->
                    Forall no_reset evs /\
                    (returned ls = true -> ok (link_status ls) = false))).
        -- apply check_dest_binlog_valid_error.
        -- intros r. destruct (fst r) as [to|e].
           ++ eapply runs_weaken; [|apply Hlink]. intros ls evs H _. exact H.
           ++ intros s. exists {| returned := true; link_status := e;
                                  linked_success_files := linked |}, s, [].
              split; [reflexivity|]. split; [now rewrite app_nil_r|].
              intros He. split; [constructor | intros _; exact He].
        -- intros r e1 ls e2 [H1 Hr] H2. destruct (H2 Hr) as [H3 H4].
           split; [now apply Forall_app | exact H4].
      * apply runs_ret. split; [constructor | discriminate].
    + apply (Hlink _ false).
Qed.
End CumulativePoint.

Section CumulativePoint2.
Context `{C : Collaborators}.

Lemma merge_then_reset tablet cloned version (is_incremental : bool) :
  runs (fun st evs =>
          Forall no_reset evs /\
          (is_incremental = false -> ok st = true ->
           exists pre a d, evs = pre ++ [EvReviseTabletMeta a d false]))
    (if is_incremental
     then _finish_incremental_clone tablet cloned version
     else _finish_full_clone tablet cloned).
Proof.
  destruct is_incremental.
  - eapply runs_weaken;
      [|apply (finish_incremental_clone_quiet no_reset); intros; exact I].
    intros st evs H. split; [exact H | discriminate].
  - intros s.
    destruct (finish_full_clone_shape tablet cloned s)
      as (st & s' & evs & E & T & H).
    exists st, s', evs. split; [exact E|]. split; [exact T|].
    destruct H as [(bitmap & Hb & ->)|[Hst Hevs]].
    + split.
      * apply Forall_app. split.
        { apply Forall_forall. intros e He.
          now apply elem_of_replicate in He as [-> _]. }
        destruct Hb as [-> | ->]; now repeat constructor.
      * intros _ _.
        exists (replicate (length (all_rs_metas cloned)) EvCreateRowset
                ++ [EvSetCooldownMetaId] ++ bitmap).
        eexists _, _. rewrite <- app_assoc. reflexivity.
    + split.
      * eapply Forall_impl; [exact Hevs|]. now intros e ->.
      * intros _ Hok. congruence.
Qed.

Lemma link_and_merge_body_reset tablet tablet_dir clone_dir contain_binlog pb
  cloned version is_incremental local files :
  runs (fun ls evs => reset_after_full_merge is_incremental (link_status ls) evs)
       (link_and_merge_body tablet tablet_dir clone_dir contain_binlog pb cloned
          version is_incremental local files).
Proof.
  unfold link_and_merge_body.
  apply (runs_bind
           (fun ls evs => Forall no_reset evs /\
                          (returned ls = true -> ok (link_status ls) = false))
           (fun ls ls' evs =>
              (returned ls = true -> ok (link_status ls) = false) ->
              reset_after_full_merge is_incremental (link_status ls') evs)).
  - apply link_loop_returns_error.
  - intros ls.
    assert (Hmerge :
      runs (fun ls' evs =>
              reset_after_full_merge is_incremental (link_status ls') evs)
        (status <-
           (if is_incremental
            then _finish_incremental_clone tablet cloned version
            else _finish_full_clone tablet cloned) ;;
         _ <- (if negb is_incremental && ok status
               then do_ (call_void
                           (EvSetCumulativeLayerPoint K_INVALID_CUMULATIVE_POINT)
                           (set_cumulative_layer_point tablet
                              K_INVALID_CUMULATIVE_POINT))
               else ret tt) ;;
         ret {| returned := true; link_status := status;
                linked_success_files := linked_success_files ls |})).
    { intros s.
      destruct (merge_then_reset tablet cloned version is_incremental s)
        as (st & s1 & evs & E & T & Hq & Hrev).
      rewrite (bind_eq _ _ _ _ _ E).
      destruct (negb is_incremental && ok st) eqn:Hc.
      - apply andb_true_iff in Hc as [Hi Hok].
        apply negb_true_iff in Hi.
        destruct (Hrev Hi Hok) as (pre & a & d & ->).
        eexists _, _, (pre ++ [EvReviseTabletMeta a d false;
                               EvSetCumulativeLayerPoint K_INVALID_CUMULATIVE_POINT]).
        split; [reflexivity|]. split.
        + unfold call_void. cbn [trace with_world]. rewrite T, <- !app_assoc.
          reflexivity.
        + unfold reset_after_full_merge. cbn [link_status].
          rewrite Hi, Hok. cbn [negb andb]. exists pre, a, d.
          split; [reflexivity|].
          apply Forall_app in Hq as [Hq _]. exact Hq.
      - rewrite bind_ret. eexists _, s1, evs. split; [reflexivity|].
        split; [exact T|]. unfold reset_after_full_merge. cbn [link_status].
        now rewrite Hc. }
    destruct (returned ls) eqn:Hret.
    { intros s. exists ls, s, []. split; [reflexivity|].
      split; [now rewrite app_nil_r|]. intros H.
      apply reset_failed; [now apply H | constructor]. }
    cbv zeta. destruct contain_binlog.
    2:{ eapply runs_weaken; [|exact Hmerge]. intros ls' evs H _. exact H. }
    apply (runs_bind (fun _ evs => Forall no_reset evs)
             (fun _ ls' evs =>
                reset_after_full_merge is_incremental (link_status ls') evs)).
    + now apply quietly_call.
    + intros status. destruct (ok status) eqn:Hok; cbn [negb]; [exact Hmerge|].
      apply runs_ret. apply reset_failed; [exact Hok | constructor].
    + intros _ e1 ls' e2 H1 H2 _. now apply reset_prefix.
  - intros ls e1 ls' e2 [H1 H2] H3. apply reset_prefix; [exact H1|].
    now apply H3.
Qed.

Lemma link_and_merge_reset tablet tablet_dir clone_dir contain_binlog pb cloned
  version is_incremental local files :
  runs (reset_after_full_merge is_incremental)
       (link_and_merge tablet tablet_dir clone_dir contain_binlog pb cloned
          version is_incremental local files).
Proof.
  intros s. unfold link_and_merge.
  destruct (link_and_merge_body_reset tablet tablet_dir clone_dir contain_binlog
              pb cloned version is_incremental local files s)
    as (ls & s1 & evs & E & T & H).
  rewrite E. unfold remove_linked_files.
  destruct (ok (link_status ls)) eqn:Hok; cbn [negb].
  - exists (link_status ls), s1, evs. now repeat split.
  - destruct (fs_batch_delete _ _) as [u w].
    eexists _, _, (evs ++ [_]). split; [reflexivity|]. split.
    + cbn [trace with_world]. now rewrite T, <- app_assoc.
    + apply reset_failed; [exact Hok|].
      unfold reset_after_full_merge in H. rewrite Hok, andb_false_r in H.
      apply Forall_app. split; [exact H | now repeat constructor].
Qed.
End CumulativePoint2.

(** X10: the finish step resets the cumulative layer point exactly
    when it ran a full merge that returned [OK]: the reset is then
    the action right after that merge's [revise_tablet_meta], it is
    made once, and the step returns [OK]. An incremental clone, and a
    finish step that returns an error, never touch the cumulative
    layer point. *)
Theorem finish_clone_resets_cumulative_point `{C : Collaborators}
  tablet clone_dir version is_incremental (s : St) :
  exists st s' evs,
    _finish_clone tablet clone_dir version is_incremental s = (Ret st, s') /\
    trace s' = trace s ++ evs ++ [EvRemoveAll clone_dir] /\
    reset_after_full_merge is_incremental st evs.
Proof.
  unfold _finish_clone, defer.
  match goal with
  | |- context [match ?body s with _ => _ end] =>
      assert (H : runs (reset_after_full_merge is_incremental) body)
  end.
  { apply reset_return_if_error_with; [now apply quietly_call|]. intros ex.
    destruct (negb ex).
    { apply runs_ret, reset_failed; [reflexivity | constructor]. }
    apply reset_bind; [apply quietly_read|]. intros tid.
    apply reset_return_if_error_with; [now apply quietly_call|]. intros cloned.
    apply reset_return_if_error; [now apply quietly_call|].
    apply reset_bind; [apply quietly_read|]. intros tablet_dir.
    apply reset_return_if_error_with; [now apply quietly_call|]. intros mex.
    apply reset_return_if_error_with.
    { destruct mex; [|apply quietly_ret].
      apply quietly_bind; [now apply quietly_call|]. intros sz.
      destruct (fst sz); [apply quietly_ret|].
      apply quietly_bind.
      { destruct (0 <? to_u64 (snd sz)); [|apply quietly_ret].
        apply quietly_bind; [now apply quietly_call|]. intros r. apply quietly_ret. }
      intros pb. destruct (negb (ok (fst pb))); [apply quietly_ret|].
      apply quietly_bind; [now apply quietly_call|]. intros del. apply quietly_ret. }
    intros binlog.
    apply reset_return_if_error.
    { destruct (fst binlog); [now apply quietly_call | apply quietly_ret]. }
    apply reset_return_if_error_with; [now apply quietly_call|]. intros clone_files.
    apply reset_return_if_error_with; [now apply quietly_call|]. intros local_files.
    apply link_and_merge_reset. }
  destruct (H s) as (st & s1 & evs & E & T & Hc). rewrite E.
  exists st, (call_void (EvRemoveAll clone_dir) (fs_remove_all clone_dir) s1), evs.
  split; [reflexivity|]. split; [|exact Hc].
  simpl. now rewrite T, app_assoc.
Qed.

(** ** The steps of the coordinator *)
Ltac steps :=
  repeat first
    [ quietly_step
    | lazymatch goal with
      | |- quietly _ (call_logged _ _) =>
          apply runs_call_logged; intros ?; repeat constructor
      | |- quietly _ (fun s => (Ret _, s)) => apply quietly_state
      end ].

Ltac only_step :=
  lazymatch goal with
  | |- only _ (bind _ _) => apply only_bind; [|intros ?]
  | |- only _ (call _ _) => apply only_of_quietly, quietly_call; exact I
  | |- only _ (read _) => apply only_of_quietly, quietly_read
  | |- only _ (ret _) => apply only_of_quietly, quietly_ret
  | |- only _ (do_ (call_void _ _)) => apply only_of_quietly, quietly_do_void; exact I
  | |- only _ (fun s => (_, s)) => apply only_stop
  | |- only _ (if ?b then _ else _) => destruct b
  | |- only _ (match ?x with _ => _ end) => destruct x
  end.

Section Steps.
Context `{C : Collaborators}.

Lemma quietly_defer {A} P (cleanup : St -> St) (body : M A) :
  quietly P body -> (forall s, appended P s (cleanup s)) ->
  quietly P (defer cleanup body).
Proof.
  intros Hb Hc s. destruct (Hb s) as (a & s1 & e1 & E & T & F).
  destruct (Hc s1) as (e2 & T2 & F2).
  exists a, (cleanup s1), (e1 ++ e2). unfold defer. rewrite E.
  split; [reflexivity|].
  split; [now rewrite T2, T, app_assoc | now apply Forall_app].
Qed.

Lemma only_defer {A} P (cleanup : St -> St) (body : M A) :
  only P body -> (forall s, appended P s (cleanup s)) ->
  only P (defer cleanup body).
Proof.
  intros Hb Hc s. destruct (Hb s) as (e1 & T & F). unfold defer.
  destruct (body s) as [[a|e|e] s1]; cbn [fst snd] in *.
  - destruct (Hc s1) as (e2 & T2 & F2). exists (e1 ++ e2).
    split; [now rewrite T2, T, app_assoc | now apply Forall_app].
  - destruct (Hc s1) as (e2 & T2 & F2). exists (e1 ++ e2).
    split; [now rewrite T2, T, app_assoc | now apply Forall_app].
  - exists e1. auto.
Qed.

Lemma only_weaken {A} (P Q : Event -> Prop) (m : M A) :
  (forall e, P e -> Q e) -> only P m -> only Q m.
Proof.
  intros H Hm s. destruct (Hm s) as (evs & T & F). exists evs.
  split; [exact T|]. eapply Forall_impl; [exact F | exact H].
Qed.

Lemma check_dest_binlog_valid_steps tablet_dir clone_dir clone_file :
  quietly step_event (check_dest_binlog_valid tablet_dir clone_dir clone_file).
Proof. unfold check_dest_binlog_valid. steps. Qed.

Lemma link_loop_steps tablet_dir clone_dir contain_binlog local files status linked :
  quietly step_event
    (link_loop tablet_dir clone_dir contain_binlog local files status linked).
Proof.
  revert status linked.
  induction files as [|f files IH]; intros status linked; cbn [link_loop]; cbv zeta.
  - apply quietly_ret.
  - repeat first [ apply IH | apply check_dest_binlog_valid_steps | progress steps ].
Qed.

Lemma link_and_merge_steps tablet tablet_dir clone_dir contain_binlog pb cloned
  version is_incremental local files :
  quietly step_event
    (link_and_merge tablet tablet_dir clone_dir contain_binlog pb cloned
       version is_incremental local files).
Proof.
  assert (Hmerge : quietly step_event
            (if is_incremental
             then _finish_incremental_clone tablet cloned version
             else _finish_full_clone tablet cloned)).
  { destruct is_incremental.
    - apply finish_incremental_clone_quiet; intros; exact I.
    - apply finish_full_clone_quiet; intros; exact I. }
  assert (Hbody : quietly step_event
            (link_and_merge_body tablet tablet_dir clone_dir contain_binlog pb
               cloned version is_incremental local files)).
  { unfold link_and_merge_body.
    apply quietly_bind; [apply link_loop_steps|]. intros ls.
    repeat first [ exact Hmerge | progress steps ]. }
  intros s. unfold link_and_merge.
  destruct (Hbody s) as (ls & s1 & evs & E & T & F). rewrite E.
  unfold remove_linked_files. destruct (negb (ok (link_status ls))).
  - destruct (fs_batch_delete _ _) as [u w].
    eexists _, _, (evs ++ [_]). split; [reflexivity|]. split.
    + cbn [trace with_world]. now rewrite T, <- app_assoc.
    + apply Forall_app. split; [exact F | now repeat constructor].
  - exists (link_status ls), s1, evs. auto.
Qed.

Lemma finish_clone_steps tablet clone_dir version is_incremental :
  quietly step_event (_finish_clone tablet clone_dir version is_incremental).
Proof.
  unfold _finish_clone. apply quietly_defer.
  - repeat first [ apply link_and_merge_steps | progress steps ].
  - intros s. exists [EvRemoveAll clone_dir]. split; [reflexivity|].
    now repeat constructor.
Qed.

Lemma set_tablet_info_steps req :
  quietly step_event (_set_tablet_info req).
Proof.
  unfold _set_tablet_info.
  repeat first [ (apply quietly_do_field; reflexivity) | progress steps ].
Qed.

Lemma staging_only_step local_dir e : staging_only local_dir e -> step_event e.
Proof. destruct e; simpl; tauto. Qed.

Lemma make_snapshot_steps req ip port tablet_id schema_hash timeout_s missed
  snapshot_path allow :
  only step_event
    (_make_snapshot req ip port tablet_id schema_hash timeout_s missed
       snapshot_path allow).
Proof. unfold _make_snapshot. repeat only_step. Qed.

Lemma release_guard_steps ip port snapshot_path (s : St) :
  appended step_event s (release_guard ip port snapshot_path s).
Proof.
  unfold release_guard.
  assert (H : quietly step_event (_release_snapshot ip port snapshot_path)).
  { unfold _release_snapshot. steps. }
  destruct (H s) as (a & s1 & evs & E & T & F). rewrite E. now exists evs.
Qed.

Lemma attempt_steps req data_dir local timeout_s missed src l :
  only step_event (attempt req data_dir local timeout_s missed src l).
Proof.
  unfold attempt. apply only_bind; [apply make_snapshot_steps|]. intros r.
  cbv zeta. destruct (negb (ok (fst r))); [only_step|].
  apply only_defer; [|intros s; apply release_guard_steps].
  unfold download_from. apply only_bind.
  { eapply only_weaken; [apply staging_only_step | apply transfer_staging]. }
  intros st. repeat only_step.
  apply only_of_quietly, quietly_do_field. reflexivity.
Qed.

Lemma peer_loop_steps req data_dir local timeout_s missed backends l :
  only step_event (peer_loop req data_dir local timeout_s missed backends l).
Proof.
  revert l. induction backends as [|src rest IH]; intros l; cbn [peer_loop].
  - only_step.
  - apply only_bind; [apply attempt_steps|]. intros [l'|l']; [apply IH | only_step].
Qed.

Lemma make_and_download_snapshots_steps req data_dir local src0 path0 missed allow0 :
  only step_event
    (_make_and_download_snapshots req data_dir local src0 path0 missed allow0).
Proof. apply peer_loop_steps. Qed.

Lemma clone_existing_steps req tablet :
  only step_event (clone_existing req tablet).
Proof.
  unfold clone_existing.
  repeat first
    [ apply make_and_download_snapshots_steps
    | apply only_of_quietly, set_tablet_info_steps
    | apply only_of_quietly, finish_clone_steps
    | only_step ].
Qed.
End Steps.

Section NewTablet.
Context `{C : Collaborators}.
Variable req : TCloneReq.

Lemma bind_call {A B} e (op : W -> A * W) (k : A -> M B) (s : St) :
  bind (call e op) k s
  = k (fst (op (world s))) (with_world s (snd (op (world s))) [e]).
Proof. unfold bind, call. now destruct (op (world s)). Qed.

(** The scope of the guard, from the download on. *)
Definition clone_new_rest (store : DataDir) (tablet_dir : string)
  : M (S:=St) (option Status * Status) :=
  l <- _make_and_download_snapshots req store tablet_dir
         default_backend "" [] false ;;
  if negb (ok (status l)) then ret (Some (status l), status l) else
  ld <- call (EvLoadTabletFromDir tablet_dir)
             (load_tablet_from_dir store (tablet_id req)
                (schema_hash req) tablet_dir) ;;
  if negb (ok ld) then ret (Some ld, ld) else
  t <- read (get_tablet (tablet_id req)) ;;
  match t with
  | None =>
      let st := Error NOT_FOUND "tablet not found, tablet_id={}"
                  [AInt (tablet_id req)] in
      ret (Some st, st)
  | Some tablet =>
      _ <- do_ (call_void (EvSetReplicaId (replica_id req))
                  (set_replica_id tablet (replica_id req))) ;;
      let header_path := construct_header_file_path tablet_dir (tablet_id req) in
      d <- call (EvDeleteFile header_path) (fs_delete_file header_path) ;;
      if negb (ok d) then ret (Some d, ld) else ret (None, ld)
  end.

Definition body_shape (tablet_dir : string) (early : list Event -> Prop)
  (o : Outcome (option Status * Status)) (evs : list Event) : Prop :=
  match o with
  | Ret (None, st) =>
      ok st = true /\
      exists pre, evs = pre ++ new_tablet_loaded req tablet_dir /\ Forall step_event pre
  | Ret (Some e, st) =>
      ok e = false /\ Forall step_event evs /\
      (ok st = true ->
       early evs \/
       exists pre, evs = pre ++ new_tablet_loaded req tablet_dir)
  | Throw _ | Crash _ => Forall step_event evs
  end.

Lemma clone_new_rest_shape store tablet_dir (s0 s1 : St) pre0 :
  trace s1 = trace s0 ++ pre0 -> Forall step_event pre0 ->
  exists o s' evs,
    clone_new_rest store tablet_dir s1 = (o, s') /\
    trace s' = trace s0 ++ evs /\
    body_shape tablet_dir (fun _ => False) o evs.
Proof.
  intros T0 F0. unfold clone_new_rest.
  destruct (make_and_download_snapshots_steps req store tablet_dir
              default_backend "" [] false s1) as (e1 & T1 & F1).
  unfold bind at 1.
  destruct (_make_and_download_snapshots _ _ _ _ _ _ _ s1) as [[l|e|e] s2];
    cbn [fst snd] in *.
  2,3: eexists _, _, (pre0 ++ e1); (split; [reflexivity|]);
       (split; [now rewrite T1, T0, app_assoc | now apply Forall_app]).
  assert (T2 : trace s2 = trace s0 ++ (pre0 ++ e1))
    by now rewrite T1, T0, app_assoc.
  assert (F2 : Forall step_event (pre0 ++ e1)) by now apply Forall_app.
  clear T0 T1 F0 F1. revert T2 F2. generalize (pre0 ++ e1). clear pre0 e1.
  intros pre T2 F2.
  destruct (ok (status l)) eqn:El; cbn [negb].
  2:{ eexists _, _, pre. split; [reflexivity|]. split; [exact T2|]. cbn.
      rewrite El. split; [reflexivity|]. split; [exact F2 | discriminate]. }
  rewrite bind_call.
  destruct (load_tablet_from_dir _ _ _ _ (world s2)) as [ld w3]. cbn [fst snd].
  destruct (ok ld) eqn:Eld; cbn [negb].
  2:{ eexists _, _, (pre ++ [EvLoadTabletFromDir tablet_dir]).
      split; [reflexivity|]. split.
      - cbn [trace with_world]. now rewrite T2, app_assoc.
      - cbn. rewrite Eld. split; [reflexivity|].
        split; [|discriminate].
        apply Forall_app. split; [exact F2 | now repeat constructor]. }
  rewrite bind_read. cbn [world with_world].
  destruct (get_tablet (tablet_id req) w3) as [tablet|].
  2:{ eexists _, _, (pre ++ [EvLoadTabletFromDir tablet_dir]).
      split; [reflexivity|]. split.
      - cbn [trace with_world]. now rewrite T2, app_assoc.
      - cbn. split; [reflexivity|]. split; [|discriminate].
        apply Forall_app. split; [exact F2 | now repeat constructor]. }
  unfold bind at 1, do_ at 1. cbv zeta. rewrite bind_call.
  destruct (fs_delete_file _ _) as [d w4]. cbn [fst snd].
  destruct (ok d) eqn:Ed; cbn [negb];
    eexists _, _, (pre ++ new_tablet_loaded req tablet_dir);
    (split; [reflexivity|]);
    (split; [cbn [trace with_world call_void]; rewrite T2, <- !app_assoc;
             reflexivity|]);
    cbn [body_shape].
  - split; [exact Eld|]. exists pre. split; [reflexivity | exact F2].
  - split; [exact Ed|]. split.
    + apply Forall_app. split; [exact F2 | now repeat constructor].
    + intros _. right. now exists pre.
Qed.

Lemma clone_new_body_shape store tablet_dir (s0 : St) :
  exists o s' evs,
    clone_new_body req store tablet_dir s0 = (o, s') /\
    trace s' = trace s0 ++ evs /\
    body_shape tablet_dir
      (fun evs => evs = [EvExists tablet_dir] \/
                  evs = [EvExists tablet_dir; EvDeleteDirectory tablet_dir])
      o evs.
Proof.
  assert (Hrest : forall (s1 : St) pre0,
    trace s1 = trace s0 ++ pre0 -> Forall step_event pre0 ->
    exists o s' evs,
      clone_new_rest store tablet_dir s1 = (o, s') /\
      trace s' = trace s0 ++ evs /\
      body_shape tablet_dir
        (fun evs => evs = [EvExists tablet_dir] \/
                    evs = [EvExists tablet_dir; EvDeleteDirectory tablet_dir])
        o evs).
  { intros s1 pre0 T0 F0.
    destruct (clone_new_rest_shape store tablet_dir s0 s1 pre0 T0 F0)
      as (o & s' & evs & E & T & H).
    exists o, s', evs. split; [exact E|]. split; [exact T|].
    destruct o as [[[e|] st]|e|e]; cbn [body_shape] in *; try exact H.
    destruct H as (H1 & H2 & H3). split; [exact H1|]. split; [exact H2|].
    intros Hst. destruct (H3 Hst) as [[]|H4]. now right. }
  unfold clone_new_body. fold (clone_new_rest store tablet_dir).
  rewrite bind_call.
  destruct (fs_exists tablet_dir (world s0)) as [[est ex] w1]. cbn [fst snd].
  destruct (ok est) eqn:E1; cbn [negb].
  2:{ eexists _, _, [EvExists tablet_dir]. split; [reflexivity|].
      split; [reflexivity|]. cbn [body_shape]. split; [exact E1|].
      split; [now repeat constructor | intros _; left; now left]. }
  destruct ex.
  - rewrite bind_call. cbn [world with_world].
    destruct (fs_delete_directory tablet_dir w1) as [del w2]. cbn [fst snd].
    destruct (ok del) eqn:E2; cbn [negb].
    + apply (Hrest _ [EvExists tablet_dir; EvDeleteDirectory tablet_dir]);
        [cbn [trace with_world]; now rewrite <- app_assoc|].
      now repeat constructor.
    + eexists _, _, [EvExists tablet_dir; EvDeleteDirectory tablet_dir].
      split; [reflexivity|].
      split; [cbn [trace with_world]; now rewrite <- app_assoc|].
      cbn [body_shape]. split; [exact E2|].
      split; [now repeat constructor | intros _; left; now right].
  - rewrite bind_ret. change (negb (ok OK)) with false. cbv iota.
    apply (Hrest _ [EvExists tablet_dir]); [reflexivity | now repeat constructor].
Qed.

Lemma clone_new_shape (s : St) :
  let tablet_dir := new_tablet_dir req (world s) in
  exists o s' evs,
    clone_new req s = (o, s') /\
    trace s' = trace s ++ EvObtainShardPath :: evs /\
    match o with
    | Ret None =>
        exists pre, evs = pre ++ new_tablet_loaded req tablet_dir /\
                    Forall step_event pre
    | Ret (Some st) =>
        ok st = false /\
        (evs = [] \/ evs = [EvExists tablet_dir] \/
         evs = [EvExists tablet_dir; EvDeleteDirectory tablet_dir] \/
         exists pre,
           Forall step_event pre /\
           (evs = pre ++ new_tablet_loaded req tablet_dir \/
            evs = pre ++ [EvDeleteDirectory tablet_dir;
                          EvDeleteTabletParentPathIfEmpty tablet_dir]))
    | Throw _ | Crash _ => Forall step_event evs
    end.
Proof.
  intros tablet_dir. unfold clone_new. rewrite bind_call.
  fold (new_tablet_dir req (world s)). fold tablet_dir.
  destruct (ok (fst (fst (obtain_shard_path _ _ _ (world s))))) eqn:E0;
    cbn [negb].
  2:{ eexists _, _, []. split; [reflexivity|]. split; [reflexivity|].
      split; [exact E0 | now left]. }
  match goal with
  | |- context [clone_new_body req ?store tablet_dir ?s0] =>
      destruct (clone_new_body_shape store tablet_dir s0)
        as (o & s1 & evs & E & T & H); rewrite E
  end.
  cbn [trace with_world] in T. rewrite <- app_assoc in T.
  change ([EvObtainShardPath] ++ evs) with (EvObtainShardPath :: evs) in T.
  destruct o as [[[e|] st]|e|e]; cbn [body_shape fst snd] in *.
  - destruct H as (He & Hevs & Hearly). unfold remove_useless_dir.
    destruct (ok st) eqn:Est.
    + eexists _, _, evs. split; [reflexivity|]. split; [exact T|].
      split; [exact He|].
      destruct (Hearly eq_refl) as [[->| ->]|[pre ->]]; auto.
      do 3 right. exists pre. apply Forall_app in Hevs as [Hpre _]. auto.
    + destruct (fs_delete_directory _ _) as [u1 w1].
      cbn [world with_world].
      destruct (delete_tablet_parent_path_if_empty _ _) as [u2 w2].
      eexists _, _, (evs ++ [_; _]). split; [reflexivity|]. split.
      * cbn [trace with_world]. rewrite T, <- !app_assoc. reflexivity.
      * split; [exact He|]. do 3 right. exists evs. auto.
  - destruct H as (Hst & pre & -> & Hpre). unfold remove_useless_dir.
    rewrite Hst. eexists _, _, _. split; [reflexivity|]. split; [exact T|].
    exists pre. auto.
  - eexists _, _, evs. split; [reflexivity|]. split; [exact T | exact H].
  - eexists _, _, evs. split; [reflexivity|]. split; [exact T | exact H].
Qed.
End NewTablet.

(** X11: the branch for a new tablet never returns [OK] from inside:
    it falls through to the final [_set_tablet_info] only after the
    tablet was loaded, its replica id set and the header file deleted,
    and nothing was removed. An error is returned with the tablet
    directory removed, by [delete_directory] and
    [delete_tablet_parent_path_if_empty] as the last two actions,
    except on four paths that leave the directory as it is: the
    failure of [obtain_shard_path], of the [exists] check, of the
    removal of an old directory, and of the deletion of the header
    file after the tablet was loaded. An exception removes nothing. *)
Theorem new_tablet_dir_removed_on_failure `{C : Collaborators} req (s : St) :
  let tablet_dir := new_tablet_dir req (world s) in
  exists o s' evs,
    clone_new req s = (o, s') /\
    trace s' = trace s ++ EvObtainShardPath :: evs /\
    match o with
    | Ret None =>
        exists pre, evs = pre ++ new_tablet_loaded req tablet_dir /\
                    Forall step_event pre
    | Ret (Some st) =>
        ok st = false /\
        (evs = [] \/ evs = [EvExists tablet_dir] \/
         evs = [EvExists tablet_dir; EvDeleteDirectory tablet_dir] \/
         exists pre,
           Forall step_event pre /\
           (evs = pre ++ new_tablet_loaded req tablet_dir \/
            evs = pre ++ [EvDeleteDirectory tablet_dir;
                          EvDeleteTabletParentPathIfEmpty tablet_dir]))
    | Throw _ | Crash _ => Forall step_event evs
    end.
Proof. exact (clone_new_shape req s). Qed.

Section Transition.
Context `{C : Collaborators}.
Variable req : TCloneReq.

Lemma step_event_inside e : step_event e -> inside_transition e.
Proof. destruct e; simpl; tauto. Qed.

Lemma clone_new_inside : only inside_transition (clone_new req).
Proof.
  intros s. destruct (clone_new_shape req s) as (o & s' & evs & E & T & H).
  rewrite E. exists (EvObtainShardPath :: evs). split; [exact T|].
  constructor; [exact I|].
  assert (Hin : forall pre, Forall step_event pre -> Forall inside_transition pre).
  { intros pre Hpre. eapply Forall_impl; [exact Hpre | exact step_event_inside]. }
  destruct o as [[st|]|e|e]; auto.
  - destruct H as (_ & [-> | [-> | [-> | (pre & Hpre & [-> | ->])]]]);
      try (apply Forall_app; split; [now apply Hin|]);
      now repeat constructor.
  - destruct H as (pre & -> & Hpre).
    apply Forall_app. split; [now apply Hin | now repeat constructor].
Qed.

Lemma do_clone_shape (s : St) :
  let register := EvRegisterTransition (tablet_id req) in
  let unregister := EvUnregisterTransition (tablet_id req) in
  exists o s' evs,
    _do_clone req s = (o, s') /\
    trace s' = trace s ++ evs /\
    match o with
    | Ret st =>
        (evs = [] /\ ok st = false) \/
        (evs = [register] /\ ok st = false) \/
        (exists mid, evs = register :: mid ++ [unregister] /\
                     Forall inside_transition mid)
    | Throw _ =>
        exists mid, evs = register :: mid ++ [unregister] /\
                    Forall inside_transition mid
    | Crash _ =>
        exists mid, evs = register :: mid /\ Forall inside_transition mid
    end.
Proof.
  intros register unregister. unfold _do_clone. rewrite bind_read.
  destruct (debug_failed_clone (world s)).
  { eexists _, s, []. split; [reflexivity|]. split; [now rewrite app_nil_r|].
    left. split; reflexivity. }
  unfold return_if_error. rewrite bind_call.
  destruct (register_transition_tablet _ (world s)) as [rst w1]. cbn [fst snd].
  destruct (ok rst) eqn:Er.
  2:{ eexists _, _, [register]. split; [reflexivity|]. split; [reflexivity|].
      right. left. split; [reflexivity | exact Er]. }
  match goal with
  | |- context [defer _ ?body] =>
      assert (Hbody : only inside_transition body)
  end.
  { repeat first
      [ apply clone_new_inside
      | (eapply only_weaken; [exact step_event_inside|]; apply clone_existing_steps)
      | (eapply only_weaken; [exact step_event_inside|];
         apply only_of_quietly, set_tablet_info_steps)
      | (apply only_of_quietly, quietly_do_field; reflexivity)
      | only_step ]. }
  unfold defer.
  match goal with
  | |- context [match ?body ?s1 with _ => _ end] =>
      destruct (Hbody s1) as (mid & T & F); destruct (body s1) as [[st|e|e] s2]
  end; cbn [fst snd trace with_world] in T.
  - eexists _, _, (register :: mid ++ [unregister]). split; [reflexivity|]. split.
    + cbn [trace call_void with_world]. rewrite T, <- !app_assoc. reflexivity.
    + do 2 right. now exists mid.
  - eexists _, _, (register :: mid ++ [unregister]). split; [reflexivity|]. split.
    + cbn [trace call_void with_world]. rewrite T, <- !app_assoc. reflexivity.
    + now exists mid.
  - eexists _, _, (register :: mid). split; [reflexivity|]. split.
    + rewrite T, <- !app_assoc. reflexivity.
    + now exists mid.
Qed.
End Transition.

(** X12: [execute] holds the tablet's transition registration around
    the whole clone. When it returns, the visible-version update of
    the request's partition is its last action, made once, and before
    it either nothing happened (the debug point), or only the failed
    registration, or the registration, the clone steps and the release
    of the registration, in this order. When an exception leaves it,
    the registration was released and the visible version is not
    updated. The clone steps never register or release the
    transition and never update the visible version themselves. *)
Theorem execute_brackets_transition `{C : Collaborators} req (s : St) :
  let register := EvRegisterTransition (tablet_id req) in
  let unregister := EvUnregisterTransition (tablet_id req) in
  let update := EvUpdatePartitionsVisibleVersion (partition_id req) (version req) in
  exists o s' evs,
    execute req s = (o, s') /\
    trace s' = trace s ++ evs /\
    match o with
    | Ret st =>
        (evs = [update] /\ ok st = false) \/
        (evs = [register; update] /\ ok st = false) \/
        (exists mid, evs = register :: mid ++ [unregister; update] /\
                     Forall inside_transition mid)
    | Throw _ =>
        exists mid, evs = register :: mid ++ [unregister] /\
                    Forall inside_transition mid
    | Crash _ =>
        exists mid, evs = register :: mid /\ Forall inside_transition mid
    end.
Proof.
  intros register unregister update. unfold execute.
  destruct (do_clone_shape req s) as (o & s1 & evs & E & T & H).
  unfold bind at 1. rewrite E. destruct o as [st|e|e].
  - eexists _, _, (evs ++ [update]). split; [reflexivity|]. split.
    + cbn [trace call_void with_world]. now rewrite T, <- app_assoc.
    + destruct H as [[-> Hst]|[[-> Hst]|(mid & -> & Hmid)]]; auto.
      do 2 right. exists mid. split; [|exact Hmid].
      cbn [app]. now rewrite <- app_assoc.
  - eexists _, _, evs. auto.
  - eexists _, _, evs. auto.
Qed.

(** ** The reported tablet info *)
Section Keeps.
Context `{C : Collaborators}.

Lemma keeps_bind {A B} (m : M A) (k : A -> M B) :
  keeps m -> (forall a, keeps (k a)) -> keeps (bind m k).
Proof.
  intros Hm Hk s. specialize (Hm s). unfold bind.
  destruct (m s) as [[a|e|e] s1]; cbn [fst snd] in *; [|exact Hm|exact Hm].
  now rewrite Hk.
Qed.

Lemma keeps_call {A} e (op : W -> A * W) : keeps (call e op).
Proof. intros s. unfold call. now destruct (op (world s)). Qed.

Lemma keeps_call_logged {A} e (op : W -> A * W) : keeps (call_logged e op).
Proof. intros s. unfold call_logged. now destruct (op (world s)). Qed.

Lemma keeps_defer {A} (cleanup : St -> St) (body : M A) :
  keeps body -> (forall s, _tablet_infos (cleanup s) = _tablet_infos s) ->
  keeps (defer cleanup body).
Proof.
  intros Hb Hc s. specialize (Hb s). unfold defer.
  destruct (body s) as [[a|e|e] s1]; cbn [fst snd] in *; now rewrite ?Hc.
Qed.

End Keeps.

Ltac keeps_step :=
  lazymatch goal with
  | |- keeps (bind _ _) => apply keeps_bind; [|intros ?]
  | |- keeps (return_if_error _ _) => unfold return_if_error
  | |- keeps (return_if_error_with _ _) => unfold return_if_error_with
  | |- keeps (call _ _) => apply keeps_call
  | |- keeps (call_logged _ _) => apply keeps_call_logged
  | |- keeps (defer _ _) => apply keeps_defer; [|try (intros ?; reflexivity)]
  | |- keeps (if ?b then _ else _) => destruct b
  | |- keeps (match ?x with _ => _ end) => destruct x
  | |- keeps _ => intros ?; reflexivity
  end.

Section Infos.
Context `{C : Collaborators}.
Variable req : TCloneReq.

Lemma record_copy_stats_keeps total : keeps (record_copy_stats total).
Proof.
  intros s. unfold record_copy_stats. now destruct (watch_elapsed_time (world s)).
Qed.

Lemma download_loop_keeps data_dir prefix local files total :
  keeps (download_loop data_dir prefix local files total).
Proof.
  revert total.
  induction files as [|f files IH]; intros total; cbn [download_loop]; cbv zeta.
  - keeps_step.
  - repeat first [ apply IH | keeps_step ].
Qed.

Lemma batch_loop_keeps fuel data_dir address remote_dir local remaining total :
  keeps (batch_loop fuel data_dir address remote_dir local remaining total).
Proof.
  revert remaining total.
  induction fuel as [|fuel IH]; intros remaining total; cbn [batch_loop].
  - keeps_step.
  - destruct remaining as [|f rest]; [keeps_step|].
    destruct (take_batch (f :: rest) [] 0) as [batch_files batch_file_size].
    repeat first [ apply IH | keeps_step ].
Qed.

Lemma transfer_keeps data_dir local src p : keeps (transfer req data_dir local src p).
Proof.
  unfold transfer, _batch_download_files, _download_files. cbv zeta.
  repeat first
    [ apply download_loop_keeps | apply batch_loop_keeps
    | apply record_copy_stats_keeps | keeps_step ].
Qed.

Lemma make_snapshot_keeps ip port tablet_id schema_hash timeout_s missed path allow :
  keeps (_make_snapshot req ip port tablet_id schema_hash timeout_s missed path allow).
Proof. unfold _make_snapshot. cbv zeta. repeat keeps_step. Qed.

Lemma release_guard_keeps ip port path (s : St) :
  _tablet_infos (release_guard ip port path s) = _tablet_infos s.
Proof.
  unfold release_guard.
  assert (H : keeps (_release_snapshot ip port path)).
  { unfold _release_snapshot. repeat keeps_step. }
  apply H.
Qed.

Lemma peer_loop_keeps data_dir local timeout_s missed backends l :
  keeps (peer_loop req data_dir local timeout_s missed backends l).
Proof.
  revert l. induction backends as [|src rest IH]; intros l; cbn [peer_loop].
  - keeps_step.
  - apply keeps_bind.
    + unfold attempt, download_from. cbv zeta.
      repeat first
        [ apply make_snapshot_keeps | apply transfer_keeps
        | (intros s; apply release_guard_keeps) | keeps_step ].
    + intros [l'|l']; [apply IH | keeps_step].
Qed.

Lemma create_rowsets_keeps tablet metas acc : keeps (create_rowsets tablet metas acc).
Proof.
  revert acc. induction metas as [|m metas IH]; intros acc; cbn [create_rowsets].
  - keeps_step.
  - repeat first [ apply IH | keeps_step ].
Qed.

Lemma rowsets_for_missed_keeps tablet cloned missed acc :
  keeps (rowsets_for_missed tablet cloned missed acc).
Proof.
  revert acc. induction missed as [|v missed IH]; intros acc; cbn [rowsets_for_missed].
  - keeps_step.
  - repeat first [ apply IH | keeps_step ].
Qed.

Lemma link_loop_keeps tablet_dir clone_dir contain_binlog local files status linked :
  keeps (link_loop tablet_dir clone_dir contain_binlog local files status linked).
Proof.
  revert status linked.
  induction files as [|f files IH]; intros status linked; cbn [link_loop]; cbv zeta.
  - keeps_step.
  - unfold check_dest_binlog_valid. repeat first [ apply IH | keeps_step ].
Qed.

Lemma finish_clone_keeps tablet clone_dir version is_incremental :
  keeps (_finish_clone tablet clone_dir version is_incremental).
Proof.
  assert (Hfull : forall cloned, keeps (_finish_full_clone tablet cloned)).
  { intros cloned. unfold _finish_full_clone.
    repeat first
      [ apply create_rowsets_keeps
      | lazymatch goal with
        | |- keeps (fun s0 => let '(_, _) := gen_uid (world s0) in _) =>
            intros s0; cbv beta; now destruct (gen_uid (world s0))
        end
      | keeps_step ]. }
  assert (Hinc : forall cloned,
             keeps (_finish_incremental_clone tablet cloned version)).
  { intros cloned. unfold _finish_incremental_clone.
    repeat first [ apply rowsets_for_missed_keeps | keeps_step ]. }
  unfold _finish_clone.
  repeat first
    [ lazymatch goal with
      | |- keeps (link_and_merge _ _ _ _ _ _ _ _ _ _) =>
          intros s0; unfold link_and_merge;
          lazymatch goal with
          | |- context [link_and_merge_body ?a ?b ?c ?d ?e ?f ?g ?h ?i ?j s0] =>
              assert (Hbody : keeps (link_and_merge_body a b c d e f g h i j));
              [ unfold link_and_merge_body; cbv zeta;
                repeat first [ apply link_loop_keeps | apply Hfull | apply Hinc
                             | keeps_step ]
              | specialize (Hbody s0);
                destruct (link_and_merge_body a b c d e f g h i j s0)
                  as [[ls|e'|e'] s1]; cbn [fst snd] in *; try exact Hbody;
                unfold remove_linked_files;
                destruct (negb (ok (link_status ls))); [|exact Hbody];
                destruct (fs_batch_delete _ _); exact Hbody ]
          end
      end
    | keeps_step ].
Qed.

Lemma make_and_download_snapshots_keeps data_dir local src0 path0 missed allow0 :
  keeps (_make_and_download_snapshots req data_dir local src0 path0 missed allow0).
Proof. apply peer_loop_keeps. Qed.

Lemma set_tablet_info_reports (s : St) :
  exists st s',
    _set_tablet_info req s = (Ret st, s') /\
    reported req (_tablet_infos s) (_tablet_infos s') st.
Proof.
  unfold _set_tablet_info, return_if_error_with. cbv zeta. rewrite bind_call.
  destruct (report_tablet_info _ (world s)) as [[rst info] w1]. cbn [fst snd].
  destruct (ok rst) eqn:Er.
  2:{ eexists _, _. split; [reflexivity|]. unfold reported. now rewrite Er. }
  destruct (isset_version req && (ti_version info <? version req)) eqn:Eb.
  - unfold bind at 1. destruct (_is_new_tablet _).
    + unfold bind at 1. rewrite bind_call.
      destruct (drop_tablet _ _ _) as [d w2].
      eexists _, _. split; [reflexivity|]. reflexivity.
    + eexists _, _. split; [reflexivity|]. reflexivity.
  - eexists _, _. split; [reflexivity|]. unfold reported. cbn.
    exists info. split; [reflexivity|]. intros Hset. rewrite Hset in Eb.
    cbn in Eb. lia.
Qed.

(** The same for a branch that returns or falls through, and for a
    whole run. *)
Definition branch_reported (before : list TTabletInfo)
  (r : Outcome (option Status) * St) : Prop :=
  match r with
  | (Ret (Some st), s') => reported req before (_tablet_infos s') st
  | (_, s') => _tablet_infos s' = before
  end.

Definition run_reported (before : list TTabletInfo)
  (r : Outcome Status * St) : Prop :=
  match r with
  | (Ret st, s') => reported req before (_tablet_infos s') st
  | (_, s') => _tablet_infos s' = before
  end.

Lemma bind_branch {A} (m : M A) (k : A -> M (option Status)) (s : St) :
  keeps m ->
  (forall a s1, branch_reported (_tablet_infos s1) (k a s1)) ->
  branch_reported (_tablet_infos s) (bind m k s).
Proof.
  intros Hm Hk. specialize (Hm s). unfold bind.
  destruct (m s) as [[a|e|e] s1]; cbn [fst snd] in *; [|exact Hm|exact Hm].
  rewrite <- Hm. apply Hk.
Qed.

Lemma bind_run {A} (m : M A) (k : A -> M Status) (s : St) :
  keeps m ->
  (forall a s1, run_reported (_tablet_infos s1) (k a s1)) ->
  run_reported (_tablet_infos s) (bind m k s).
Proof.
  intros Hm Hk. specialize (Hm s). unfold bind.
  destruct (m s) as [[a|e|e] s1]; cbn [fst snd] in *; [|exact Hm|exact Hm].
  rewrite <- Hm. apply Hk.
Qed.

Lemma reported_error before st : ok st = false -> reported req before before st.
Proof. intros H. unfold reported. now rewrite H. Qed.

Lemma clone_existing_reports tablet (s : St) :
  branch_reported (_tablet_infos s) (clone_existing req tablet s).
Proof.
  unfold clone_existing.
  apply bind_branch; [keeps_step|]. intros locked s1.
  destruct locked; cbn [negb]; [|now apply reported_error].
  apply bind_branch; [keeps_step|]. intros local_replica s2.
  apply bind_branch; [repeat keeps_step|]. intros _ s3.
  apply bind_branch; [keeps_step|]. intros tablet_dir s4.
  apply bind_branch; [keeps_step|]. intros mow s5.
  apply bind_branch; [keeps_step|]. intros tid s6.
  apply bind_branch; [keeps_step|]. intros min_pending_ver s7. cbv zeta.
  apply bind_branch; [keeps_step|]. intros missed_versions s8.
  destruct (bool_decide (missed_versions = [])).
  - destruct (set_tablet_info_reports s8) as (st & s9 & E & H).
    unfold bind. rewrite E. destruct (ok st) eqn:Est; cbn [negb ret branch_reported].
    + unfold reported in *. now rewrite Est in H.
    + exact H.
  - apply bind_branch; [keeps_step|]. intros data_dir s9.
    apply bind_branch; [apply make_and_download_snapshots_keeps|]. intros l s10.
    destruct (ok (status l)) eqn:El; cbn [negb]; [|now apply reported_error].
    apply bind_branch; [apply finish_clone_keeps|]. intros st s11.
    destruct (ok st) eqn:Est; cbn [negb]; [reflexivity | now apply reported_error].
Qed.

Lemma remove_useless_dir_keeps status tablet_dir (s : St) :
  _tablet_infos (remove_useless_dir status tablet_dir s) = _tablet_infos s.
Proof.
  unfold remove_useless_dir. destruct (ok status); [reflexivity|].
  destruct (fs_delete_directory _ _) as [u1 w1]. cbn [world with_world].
  now destruct (delete_tablet_parent_path_if_empty _ _).
Qed.

Lemma clone_new_keeps : keeps (clone_new req).
Proof.
  unfold clone_new. apply keeps_bind; [keeps_step|]. intros sp.
  destruct (negb (ok (fst sp))); [keeps_step|]. intros s0.
  match goal with
  | |- context [clone_new_body req ?store ?dir s0] =>
      assert (Hbody : keeps (clone_new_body req store dir));
      [ unfold clone_new_body; cbv zeta;
        repeat first [ apply make_and_download_snapshots_keeps | keeps_step ]
      | specialize (Hbody s0);
        destruct (clone_new_body req store dir s0) as [[r|e|e] s1] ]
  end; cbn [fst snd] in *; rewrite ?remove_useless_dir_keeps; exact Hbody.
Qed.

Lemma clone_new_reports (s : St) :
  branch_reported (_tablet_infos s) (clone_new req s).
Proof.
  pose proof (clone_new_keeps s) as Hk.
  destruct (clone_new_shape req s) as (o & s' & evs & E & _ & H).
  rewrite E in *. cbn [snd] in Hk.
  destruct o as [[st|]|e|e]; cbn [branch_reported]; try exact Hk.
  rewrite Hk. apply reported_error. apply H.
Qed.

Lemma do_clone_reports (s : St) :
  run_reported (_tablet_infos s) (_do_clone req s).
Proof.
  unfold _do_clone.
  apply bind_run; [keeps_step|]. intros dbg s1.
  destruct dbg; [now apply reported_error|].
  unfold return_if_error.
  apply bind_run; [keeps_step|]. intros rst s2.
  destruct (ok rst) eqn:Er; [|now apply reported_error].
  unfold defer.
  match goal with
  | |- run_reported _ (match ?body s2 with _ => _ end) =>
      assert (Hbody : run_reported (_tablet_infos s2) (body s2))
  end.
  { apply bind_run; [keeps_step|]. intros tablet s3.
    apply bind_run; [repeat keeps_step|]. intros dropped s4.
    destruct (ok (fst dropped)) eqn:Ed; cbn [negb]; [|now apply reported_error].
    cbv zeta.
    apply bind_run; [keeps_step|]. intros _ s5.
    assert (Hbranch : forall (m : M (option Status)),
              (forall s, branch_reported (_tablet_infos s) (m s)) ->
              run_reported (_tablet_infos s5)
                (bind m (fun r => match r with
                                  | Some st => ret st
                                  | None => _set_tablet_info req
                                  end) s5)).
    { intros m Hm. specialize (Hm s5). unfold bind.
      destruct (m s5) as [[[st|]|e|e] s6]; cbn [branch_reported] in Hm;
        try exact Hm.
      destruct (set_tablet_info_reports s6) as (st & s7 & E & H).
      rewrite E. cbn [run_reported]. now rewrite <- Hm. }
    destruct (snd dropped) as [t|]; apply Hbranch.
    - apply clone_existing_reports.
    - apply clone_new_reports. }
  match goal with
  | |- run_reported _ (match ?b with _ => _ end) =>
      destruct b as [[st|e|e] s3]
  end; exact Hbody.
Qed.
End Infos.

(** X13: the task reports a tablet info exactly when it succeeds. If
    [execute] returns [OK], the list of tablet infos has exactly one
    more entry, and when the request carries a version, the version
    of that entry is not behind it. If [execute] returns an error or
    is left by an exception, the list is as it was. *)
Theorem execute_reports_iff_ok `{C : Collaborators} req (s : St) :
  exists o s',
    execute req s = (o, s') /\
    match o with
    | Ret st => reported req (_tablet_infos s) (_tablet_infos s') st
    | _ => _tablet_infos s' = _tablet_infos s
    end.
Proof.
  unfold execute. pose proof (do_clone_reports req s) as H. unfold bind at 1.
  destruct (_do_clone req s) as [[st|e|e] s1]; cbn [run_reported] in H;
    eexists _, _; (split; [reflexivity|]); exact H.
Qed.

(** ** What the link loop links *)

Lemma links_staged_cons `{C : Collaborators} tablet_dir clone_dir contain_binlog
  local f files e :
  links_staged tablet_dir clone_dir contain_binlog local files e ->
  links_staged tablet_dir clone_dir contain_binlog local (f :: files) e.
Proof.
  destruct e; simpl; auto.
  intros (g & Hg & H). exists g. split; [apply elem_of_cons; now right | exact H].
Qed.

(** X14: the link loop always returns, and every hard link it makes
    takes a staged file whose name is not among the tablet's local
    file names. A data file is linked under the same name in the
    tablet directory; a [.binlog] or [.binlog-index] file is linked
    only when a binlog manifest was read. A staged file with the name
    of a local file is never linked. *)
Theorem link_loop_links_new_staged_files `{C : Collaborators}
  tablet_dir clone_dir contain_binlog local files status linked :
  quietly (links_staged tablet_dir clone_dir contain_binlog local files)
    (link_loop tablet_dir clone_dir contain_binlog local files status linked).
Proof.
  revert status linked.
  induction files as [|f files IH]; intros status linked.
  - apply quietly_ret.
  - assert (IH' : forall status linked,
      quietly (links_staged tablet_dir clone_dir contain_binlog local (f :: files))
        (link_loop tablet_dir clone_dir contain_binlog local files status linked)).
    { intros st l. eapply quietly_weaken; [|apply IH].
      intros e. apply links_staged_cons. }
    cbn [link_loop]. cbv zeta.
    destruct (bool_decide (f ∈ local)) eqn:Hlocal; [apply IH'|].
    apply bool_decide_eq_false in Hlocal.
    assert (Hlink : forall to skip,
      (if ends_with f ".binlog" || ends_with f ".binlog-index"
       then contain_binlog = true
       else to = tablet_dir +:+ "/" +:+ f) ->
      quietly (links_staged tablet_dir clone_dir contain_binlog local (f :: files))
        (if negb skip
         then st <- call_logged (EvLinkFile (clone_dir +:+ "/" +:+ f) to)
                      (fs_link_file (clone_dir +:+ "/" +:+ f) to) ;;
              if negb (ok st)
              then ret {| returned := true; link_status := st;
                          linked_success_files := linked |}
              else link_loop tablet_dir clone_dir contain_binlog local files st
                     (linked ++ [to])
         else link_loop tablet_dir clone_dir contain_binlog local files status
                linked)).
    { intros to skip Hto. destruct skip; cbn [negb]; [apply IH'|].
      apply quietly_bind.
      - apply runs_call_logged. intros st. constructor; [|constructor].
        exists f. split; [apply elem_of_cons; now left|]. auto.
      - intros st. destruct (negb (ok st)); [apply quietly_ret | apply IH']. }
    destruct (ends_with f ".binlog" || ends_with f ".binlog-index") eqn:Hb.
    + destruct contain_binlog; cbn [negb]; [|apply quietly_ret].
      apply quietly_bind.
      * unfold check_dest_binlog_valid. steps.
      * intros r. destruct (fst r) as [to|e]; [now apply Hlink | apply quietly_ret].
    + now apply Hlink.
Qed.

(** ** The binlog manifest *)
Section Manifest.
Context `{C : Collaborators}.

Lemma link_loop_no_ingest tablet_dir clone_dir contain_binlog local files status
  linked :
  quietly no_ingest
    (link_loop tablet_dir clone_dir contain_binlog local files status linked).
Proof.
  revert status linked.
  induction files as [|f files IH]; intros status linked; cbn [link_loop]; cbv zeta.
  - apply quietly_ret.
  - unfold check_dest_binlog_valid. repeat first [ apply IH | progress steps ].
Qed.

Lemma no_ingest_elem evs : Forall no_ingest evs -> EvIngestBinlogMetas ∉ evs.
Proof.
  intros H Hin. rewrite Forall_forall in H. exact (H _ Hin).
Qed.

Lemma ingest_prefix clone_dir q evs :
  Forall no_ingest q -> ingest_after_manifest clone_dir evs ->
  ingest_after_manifest clone_dir (q ++ evs).
Proof.
  intros Hq H Hin. apply elem_of_app in Hin as [Hin|Hin].
  { now apply no_ingest_elem in Hq. }
  destruct (H Hin) as (pre & dir & post & -> & Hpre).
  exists (q ++ pre), dir, post. split; [now rewrite <- app_assoc|].
  now apply Forall_app.
Qed.

Lemma ingest_quiet clone_dir evs :
  Forall no_ingest evs -> ingest_after_manifest clone_dir evs.
Proof. intros H Hin. now apply no_ingest_elem in H. Qed.

Lemma ingest_bind {A} clone_dir (m : M A) (k : A -> M Status) :
  quietly no_ingest m ->
  (forall a, runs (fun _ => ingest_after_manifest clone_dir) (k a)) ->
  runs (fun _ => ingest_after_manifest clone_dir) (bind m k).
Proof.
  intros Hm Hk.
  apply (runs_bind (fun _ evs => Forall no_ingest evs)
           (fun _ _ => ingest_after_manifest clone_dir));
    [exact Hm | exact Hk |].
  intros _ e1 _ e2. apply ingest_prefix.
Qed.

(** Without a manifest nothing is ingested. *)
Lemma link_and_merge_no_ingest tablet tablet_dir clone_dir pb cloned version
  is_incremental local files :
  quietly no_ingest
    (link_and_merge tablet tablet_dir clone_dir false pb cloned version
       is_incremental local files).
Proof.
  assert (Hbody : quietly no_ingest
            (link_and_merge_body tablet tablet_dir clone_dir false pb
               cloned version is_incremental local files)).
  { unfold link_and_merge_body.
    apply quietly_bind; [apply link_loop_no_ingest|]. intros ls.
    repeat first
      [ (apply finish_incremental_clone_quiet; intros; exact I)
      | (apply finish_full_clone_quiet; intros; exact I)
      | progress steps ]. }
  intros s. unfold link_and_merge.
  destruct (Hbody s) as (ls & s1 & evs & E & T & F). rewrite E.
  unfold remove_linked_files. destruct (negb (ok (link_status ls))).
  - destruct (fs_batch_delete _ _) as [u w].
    eexists _, _, (evs ++ [_]). split; [reflexivity|]. split.
    + cbn [trace with_world]. now rewrite T, <- app_assoc.
    + apply Forall_app. split; [exact F | now repeat constructor].
  - exists (link_status ls), s1, evs. auto.
Qed.

Lemma quietly_True {A} (m : M A) :
  quietly (fun _ => True) m -> forall s, exists a s' evs,
    m s = (Ret a, s') /\ trace s' = trace s ++ evs.
Proof.
  intros H s. destruct (H s) as (a & s' & evs & E & T & _). eauto.
Qed.
End Manifest.

(** X15: the finish step ingests binlog metas only when it found a
    binlog manifest [rowset_binlog_metas.pb] in the staging directory
    that is not empty: before the ingest, it has asked for the size of
    the manifest, read it, deleted it and created a directory
    [_binlog], in this order and without anything in between. Without
    a manifest, or with an empty one, or when reading or deleting it
    fails, nothing is ingested. *)
Theorem finish_clone_ingests_after_manifest `{C : Collaborators}
  tablet clone_dir version is_incremental (s : St) :
  exists st s' evs,
    _finish_clone tablet clone_dir version is_incremental s = (Ret st, s') /\
    trace s' = trace s ++ evs /\
    ingest_after_manifest clone_dir evs.
Proof.
  unfold _finish_clone, defer.
  match goal with
  | |- context [match ?body s with _ => _ end] =>
      assert (H : runs (fun _ => ingest_after_manifest clone_dir) body)
  end.
  { unfold return_if_error_with at 1.
    apply ingest_bind; [steps|]. intros ex.
    destruct (ok (fst ex)); [|apply runs_ret, ingest_quiet; constructor].
    destruct (negb (snd ex)); [apply runs_ret, ingest_quiet; constructor|].
    apply ingest_bind; [steps|]. intros tid.
    unfold return_if_error_with at 1.
    apply ingest_bind; [steps|]. intros cloned.
    destruct (ok (fst cloned)); [|apply runs_ret, ingest_quiet; constructor].
    unfold return_if_error at 1.
    apply ingest_bind; [steps|]. intros del.
    destruct (ok del); [|apply runs_ret, ingest_quiet; constructor].
    apply ingest_bind; [steps|]. intros tablet_dir.
    unfold return_if_error_with at 1.
    apply ingest_bind; [steps|]. intros mex.
    destruct (ok (fst mex)); [|apply runs_ret, ingest_quiet; constructor].
    set (manifest := clone_dir +:+ "/rowset_binlog_metas.pb").
    match goal with
    | |- runs _ (return_if_error_with ?m ?k) =>
        apply (runs_bind
                 (fun b evs =>
                    Forall no_ingest evs /\
                    (ok (fst b) = true -> fst (snd b) = true ->
                     evs = [EvFileSize manifest; EvReadPb manifest;
                            EvDeleteFile manifest]))
                 (fun b (_ : Status) evs =>
                    (ok (fst b) = true /\ fst (snd b) = true /\
                     exists post,
                       evs = EvCreateDirectory (tablet_dir +:+ "/_binlog") :: post)
                    \/ Forall no_ingest evs))
    end.
    - destruct (snd mex).
      2:{ apply runs_ret. split; [constructor | intros _ H; discriminate H]. }
      intros s0. rewrite bind_call.
      destruct (fs_file_size manifest (world s0)) as [[ec sz] w1]. cbn [fst snd].
      destruct ec as [msg|].
      { eexists _, _, [_]. split; [reflexivity|]. split; [reflexivity|].
        split; [now repeat constructor | intros H; discriminate H]. }
      destruct (0 <? to_u64 sz).
      + unfold bind at 1. rewrite bind_call. cbn [world with_world].
        destruct (read_pb manifest w1) as [[rst pb] w2]. cbn [fst snd ret].
        destruct (ok rst) eqn:Erst; cbn [negb].
        * rewrite bind_call. cbn [world with_world].
          destruct (fs_delete_file manifest w2) as [del0 w3]. cbn [fst snd].
          eexists _, _, [_; _; _]. split; [reflexivity|].
          split; [cbn [trace with_world]; now rewrite <- !app_assoc|].
          split; [now repeat constructor | reflexivity].
        * eexists _, _, [_; _]. split; [reflexivity|].
          split; [cbn [trace with_world]; now rewrite <- !app_assoc|].
          split; [now repeat constructor|]. cbn [fst]. congruence.
      + rewrite bind_ret. cbn [fst snd]. change (negb (ok OK)) with false.
        cbv iota. rewrite bind_call. cbn [world with_world].
        destruct (fs_delete_file manifest w1) as [del0 w3]. cbn [fst snd].
        eexists _, _, [_; _]. split; [reflexivity|].
        split; [cbn [trace with_world]; now rewrite <- !app_assoc|].
        split; [now repeat constructor | intros _ H; discriminate H].
    - intros b. destruct (ok (fst b)) eqn:Eb.
      2:{ apply runs_ret. right. constructor. }
      destruct (fst (snd b)) eqn:Ec.
      + unfold return_if_error at 1. intros s0. rewrite bind_call.
        destruct (fs_create_directory _ (world s0)) as [cst w1]. cbn [fst snd].
        match goal with
        | |- context [(if ok cst then ?k else _) ?s1] =>
            assert (Hk : quietly (fun _ => True) (if ok cst then k else ret cst))
        end.
        { repeat first
            [ lazymatch goal with
              | |- quietly _ (link_and_merge _ _ _ _ _ _ _ _ _ _) =>
                  eapply quietly_weaken; [|apply link_and_merge_steps];
                  intros; exact I
              end
            | progress steps ]. }
        match goal with
        | |- context [(if ok cst then ?k else _) ?s1] =>
            destruct (quietly_True _ Hk s1) as (st & s2 & post & E & T)
        end.
        exists st, s2, (EvCreateDirectory (tablet_dir +:+ "/_binlog") :: post).
        split; [exact E|]. split.
        * rewrite T. cbn [trace with_world]. now rewrite <- app_assoc.
        * left. split; [reflexivity|]. split; [reflexivity|]. now exists post.
      + eapply runs_weaken; [intros st evs Hq; right; exact Hq|].
        lazymatch goal with |- runs _ ?m => change (quietly no_ingest m) end.
        repeat first [ apply link_and_merge_no_ingest | progress steps ].
    - intros b e1 st e2 [H1 H2] [(Hb1 & Hb2 & post & ->)|H3].
      + rewrite (H2 Hb1 Hb2). intros _.
        exists [], tablet_dir, post. split; [reflexivity | constructor].
      + apply ingest_quiet. now apply Forall_app. }
  destruct (H s) as (st & s1 & evs & E & T & Hc). rewrite E.
  exists st, (call_void (EvRemoveAll clone_dir) (fs_remove_all clone_dir) s1),
         (evs ++ [EvRemoveAll clone_dir]).
  split; [reflexivity|]. split; [simpl; now rewrite T, app_assoc|].
  intros Hin. apply elem_of_app in Hin as [Hin|Hin].
  2:{ apply elem_of_cons in Hin as [Hin|Hin]; [discriminate Hin|].
      now apply elem_of_nil in Hin. }
  destruct (Hc Hin) as (pre & dir & post & -> & Hpre).
  exists pre, dir, (post ++ [EvRemoveAll clone_dir]).
  split; [now rewrite <- !app_assoc | exact Hpre].
Qed.

(** ** The header file is transferred last *)
Section HeaderLast.
Context `{C : Collaborators}.



End HeaderLast.



(** ** The merges, at the level of the calls *)
Section MergeCalls.
Context `{C : Collaborators}.

Lemma created_app tablet metas1 metas2 w l1 w1 l2 w2 :
  created tablet metas1 w l1 w1 -> created tablet metas2 w1 l2 w2 ->
  created tablet (metas1 ++ metas2) w (l1 ++ l2) w2.
Proof.
  induction 1 as [|m metas w st rs w1' l w2' Hc Hok _ IH]; intros H2; [exact H2|].
  cbn [app]. econstructor; [exact Hc | exact Hok | now apply IH].
Qed.

Lemma create_rowsets_created tablet metas acc (s : St) :
  exists r s1 k,
    create_rowsets tablet metas acc s = (Ret r, s1) /\
    trace s1 = trace s ++ replicate k EvCreateRowset /\
    (ok (fst r) = true ->
     k = length metas /\
     exists rowsets, snd r = acc ++ rowsets /\
                     created tablet metas (world s) rowsets (world s1)).
Proof.
  revert acc s. induction metas as [|m metas IH]; intros acc s.
  - exists (OK, acc), s, 0%nat. simpl. rewrite app_nil_r.
    split; [reflexivity|]. split; [reflexivity|]. intros _.
    split; [reflexivity|]. exists []. rewrite app_nil_r.
    split; [reflexivity | constructor].
  - cbn [create_rowsets]. unfold bind at 1, call at 1.
    destruct (create_rowset tablet m (world s)) as [[st rs] w] eqn:Hc.
    cbn [fst snd]. destruct (ok st) eqn:Hst; cbn [negb].
    + destruct (IH (acc ++ [rs]) (with_world s w [EvCreateRowset]))
        as (r & s1 & k & E & T & Hok).
      exists r, s1, (Datatypes.S k). split; [exact E|].
      split; [rewrite T; simpl; now rewrite <- app_assoc|].
      intros H. destruct (Hok H) as (-> & l & Hl & Hcr).
      split; [reflexivity|]. exists (rs :: l).
      split; [rewrite Hl; now rewrite <- app_assoc|].
      econstructor; [exact Hc | exact Hst | exact Hcr].
    + exists (st, acc), (with_world s w [EvCreateRowset]), 1%nat.
      split; [reflexivity|]. split; [reflexivity|].
      simpl. rewrite Hst. discriminate.
Qed.

Lemma rowsets_for_missed_created tablet cloned missed acc (s : St) :
  exists r s1 k,
    rowsets_for_missed tablet cloned missed acc s = (Ret r, s1) /\
    trace s1 = trace s ++ replicate k EvCreateRowset /\
    (ok (fst r) = true ->
     k = length missed /\
     exists metas rowsets,
       Forall2 (fun v m => acquire_rs_meta_by_version cloned v = Some m)
         missed metas /\
       snd r = acc ++ rowsets /\
       created tablet metas (world s) rowsets (world s1)) /\
    ((exists v, v ∈ missed /\ acquire_rs_meta_by_version cloned v = None) ->
     ok (fst r) = false).
Proof.
  revert acc s. induction missed as [|v missed IH]; intros acc s.
  - exists (OK, acc), s, 0%nat. simpl. rewrite app_nil_r.
    split; [reflexivity|]. split; [reflexivity|]. split.
    + intros _. split; [reflexivity|]. exists [], []. rewrite app_nil_r.
      split; [constructor|]. split; [reflexivity | constructor].
    + intros (x & Hx & _). inversion Hx.
  - cbn [rowsets_for_missed].
    destruct (acquire_rs_meta_by_version cloned v) as [rs_meta|] eqn:Hv.
    2:{ eexists (_, acc), s, 0%nat. simpl. rewrite app_nil_r.
        split; [reflexivity|]. split; [reflexivity|]. split; [discriminate|].
        intros _. reflexivity. }
    unfold bind at 1, call at 1.
    destruct (create_rowset tablet rs_meta (world s)) as [[st rs] w] eqn:Hc.
    cbn [fst snd]. destruct (ok st) eqn:Hst; cbn [negb].
    + destruct (IH (acc ++ [rs]) (with_world s w [EvCreateRowset]))
        as (r & s1 & k & E & T & Hok & Hmiss).
      exists r, s1, (Datatypes.S k). split; [exact E|].
      split; [rewrite T; simpl; now rewrite <- app_assoc|]. split.
      * intros H. destruct (Hok H) as (-> & metas & l & Hm & Hl & Hcr).
        split; [reflexivity|]. exists (rs_meta :: metas), (rs :: l).
        split; [now constructor|].
        split; [rewrite Hl; now rewrite <- app_assoc|].
        econstructor; [exact Hc | exact Hst | exact Hcr].
      * intros (x & Hx & Hnone). apply Hmiss.
        apply elem_of_cons in Hx as [->|Hx]; [congruence | eauto].
    + exists (st, acc), (with_world s w [EvCreateRowset]), 1%nat.
      split; [reflexivity|]. split; [reflexivity|].
      simpl. rewrite Hst. split; [discriminate | reflexivity].
Qed.

Lemma replicate_create k :
  Forall (fun e => e = EvCreateRowset) (replicate k EvCreateRowset).
Proof.
  apply Forall_forall. intros e He. now apply elem_of_replicate in He as [-> _].
Qed.
End MergeCalls.

(** X8: the incremental merge never deletes a rowset. It always
    returns. Either it calls [create_rowset] for the cloned rowset
    meta of every version that is missing under the header lock, in
    order, and then, as its last action, [revise_tablet_meta] with
    exactly the rowsets these calls returned as the rowsets to add,
    the empty list as the rowsets to delete and the incremental flag,
    whose status it returns; or it returns an error after some
    [create_rowset] calls and without calling [revise_tablet_meta].
    If a missing version has no rowset meta in the cloned header, it
    is the second. *)
Theorem finish_incremental_clone_only_adds `{C : Collaborators}
  tablet cloned version (s : St) :
  let missed := get_missed_versions_unlocked tablet version (world s) in
  let revise := EvReviseTabletMeta (length missed) 0 true in
  exists st s' evs,
    _finish_incremental_clone tablet cloned version s = (Ret st, s') /\
    trace s' = trace s ++ evs /\
    ((exists metas to_add s1,
        Forall2 (fun v m => acquire_rs_meta_by_version cloned v = Some m)
          missed metas /\
        created tablet metas (world s) to_add (world s1) /\
        _finish_incremental_clone tablet cloned version s
        = call revise (revise_tablet_meta tablet to_add [] true) s1 /\
        evs = replicate (length missed) EvCreateRowset ++ [revise])
     \/ (ok st = false /\ Forall (fun e => e = EvCreateRowset) evs)) /\
    ((exists v, v ∈ missed /\ acquire_rs_meta_by_version cloned v = None) ->
     ok st = false /\ Forall (fun e => e = EvCreateRowset) evs).
Proof.
  intros missed revise.
  destruct (rowsets_for_missed_created tablet cloned missed [] s)
    as (r & s1 & k & E & T & Hok & Hmiss).
  assert (Heq : _finish_incremental_clone tablet cloned version s
                = (if ok (fst r)
                   then call (EvReviseTabletMeta (length (snd r)) 0 true)
                          (revise_tablet_meta tablet (snd r) [] true) s1
                   else (Ret (fst r), s1))).
  { unfold _finish_incremental_clone. rewrite bind_read. fold missed.
    unfold return_if_error_with. rewrite (bind_eq _ _ _ _ _ E).
    now destruct (ok (fst r)). }
  destruct (ok (fst r)) eqn:Hr.
  - destruct (Hok eq_refl) as (-> & metas & to_add & Hm & Hl & Hcr).
    simpl in Hl. rewrite Hl in Heq.
    assert (Hlen : length to_add = length missed).
    { clear -Hcr Hm. apply Forall2_length in Hm. rewrite Hm. clear Hm.
      induction Hcr; simpl; congruence. }
    rewrite Hlen in Heq. fold revise in Heq.
    pose proof Heq as Hrun. unfold call in Hrun.
    destruct (revise_tablet_meta tablet to_add [] true (world s1)) as [st w].
    exists st, (with_world s1 w [revise]),
      (replicate (length missed) EvCreateRowset ++ [revise]).
    split; [exact Hrun|].
    split; [cbn [trace with_world]; now rewrite T, app_assoc|]. split.
    + left. exists metas, to_add, s1.
      split; [exact Hm|]. split; [exact Hcr|]. split; [exact Heq | reflexivity].
    + intros Hex. specialize (Hmiss Hex). congruence.
  - rewrite Heq. exists (fst r), s1, (replicate k EvCreateRowset).
    split; [reflexivity|]. split; [exact T|].
    split; [right|intros _]; (split; [exact Hr | apply replicate_create]).
Qed.

(** X9: the full merge always returns. Either it runs to its end: it
    calls [create_rowset] for every rowset meta of the cloned header,
    in order; sets the cooldown meta id, to a freshly generated id
    when this replica is the cooldown replica and to the id of the
    cloned header otherwise; merges the delete bitmap of the cloned
    header exactly when the tablet is a merge-on-write tablet; and
    calls [revise_tablet_meta] last, with the rowsets [create_rowset]
    returned as the rowsets to add and the local rowsets that end at
    or below the cloned max version as the rowsets to delete, and
    returns its status. Or it returns an error from the version-cross
    check or from [create_rowset], before the cooldown meta id, the
    delete bitmap and the tablet meta are touched. *)
Theorem finish_full_clone_trace `{C : Collaborators} tablet cloned (s : St) :
  let M := snd (max_version cloned) in
  let rowsets := rowset_map tablet (world s) in
  let n := length (all_rs_metas cloned) in
  let to_delete := deleted_by_full_clone M rowsets in
  let revise := EvReviseTabletMeta n (length to_delete) false in
  exists st s' evs,
    _finish_full_clone tablet cloned s = (Ret st, s') /\
    trace s' = trace s ++ evs /\
    ((exists to_add s1 s2 bitmap,
        created tablet (all_rs_metas cloned) (world s) to_add (world s1) /\
        (let cooled :=
           if cooldown_replica_id tablet (world s1)
              =? tablet_replica_id tablet (world s1)
           then set_cooldown_meta_id tablet (fst (gen_uid (world s1)))
                  (snd (gen_uid (world s1)))
           else set_cooldown_meta_id tablet (cooldown_meta_id cloned) (world s1) in
         if enable_unique_key_merge_on_write tablet cooled
         then world s2 = merge_delete_bitmap tablet cloned cooled /\
              bitmap = [EvMergeDeleteBitmap]
         else world s2 = cooled /\ bitmap = []) /\
        _finish_full_clone tablet cloned s
        = call revise (revise_tablet_meta tablet to_add to_delete false) s2 /\
        evs = replicate n EvCreateRowset ++ [EvSetCooldownMetaId] ++ bitmap
              ++ [revise])
     \/ (ok st = false /\ Forall (fun e => e = EvCreateRowset) evs)).
Proof.
  intros M rowsets n to_delete revise.
  destruct (full_clone_scan_result (max_version cloned) rowsets []) as [[x E]|E].
  { exists (version_cross_error M (fst x)), s, [].
    split; [unfold _finish_full_clone; rewrite bind_read; fold rowsets;
            now rewrite E|].
    split; [now rewrite app_nil_r|]. right. split; [reflexivity | constructor]. }
  cbn [app] in E. fold M to_delete in E.
  destruct (create_rowsets_created tablet (all_rs_metas cloned) [] s)
    as (r & s1 & k & Ec & T & Hok).
  destruct (ok (fst r)) eqn:Hr.
  2:{ exists (fst r), s1, (replicate k EvCreateRowset).
      split; [unfold _finish_full_clone, return_if_error_with;
              rewrite bind_read; fold rowsets; rewrite E;
              rewrite (bind_eq _ _ _ _ _ Ec); now rewrite Hr|].
      split; [exact T|]. right. split; [exact Hr | apply replicate_create]. }
  destruct (Hok eq_refl) as (-> & to_add & Hl & Hcr). simpl in Hl.
  assert (Hlen : length to_add = n).
  { clear -Hcr. unfold n. induction Hcr; simpl; congruence. }
  set (cooled :=
         if cooldown_replica_id tablet (world s1) =? tablet_replica_id tablet (world s1)
         then set_cooldown_meta_id tablet (fst (gen_uid (world s1)))
                (snd (gen_uid (world s1)))
         else set_cooldown_meta_id tablet (cooldown_meta_id cloned) (world s1)).
  set (sc := with_world s1 cooled [EvSetCooldownMetaId]).
  set (s2 := if enable_unique_key_merge_on_write tablet cooled
             then call_void EvMergeDeleteBitmap (merge_delete_bitmap tablet cloned) sc
             else sc).
  set (bitmap := if enable_unique_key_merge_on_write tablet cooled
                 then [EvMergeDeleteBitmap] else []).
  assert (Heq : _finish_full_clone tablet cloned s
                = call revise (revise_tablet_meta tablet to_add to_delete false) s2).
  { unfold _finish_full_clone, return_if_error_with. rewrite bind_read.
    fold rowsets. rewrite E. rewrite (bind_eq _ _ _ _ _ Ec), Hr.
    rewrite !bind_read.
    assert (Hcool :
      (if cooldown_replica_id tablet (world s1) =? tablet_replica_id tablet (world s1)
       then fun s0 : St =>
              let '(uid, w) := gen_uid (world s0) in
              (Ret tt, with_world s0 (set_cooldown_meta_id tablet uid w)
                         [EvSetCooldownMetaId])
       else do_ (call_void EvSetCooldownMetaId
                   (set_cooldown_meta_id tablet (cooldown_meta_id cloned)))) s1
      = (Ret tt, sc)).
    { subst sc cooled. destruct (_ =? _).
      - cbv beta. now destruct (gen_uid (world s1)).
      - reflexivity. }
    rewrite (bind_eq _ _ _ _ _ Hcool), bind_read. subst s2.
    change (world sc) with cooled.
    rewrite Hl, Hlen. fold to_delete revise.
    destruct (enable_unique_key_merge_on_write tablet cooled); reflexivity. }
  assert (T2 : trace s2 = trace s ++ replicate n EvCreateRowset
                          ++ [EvSetCooldownMetaId] ++ bitmap).
  { subst s2 bitmap sc.
    destruct (enable_unique_key_merge_on_write tablet cooled);
      cbn [trace call_void with_world]; rewrite T, <- ?app_assoc;
      [reflexivity | now rewrite app_nil_r]. }
  pose proof Heq as Hrun. unfold call in Hrun.
  destruct (revise_tablet_meta tablet to_add to_delete false (world s2)) as [st w].
  exists st, (with_world s2 w [revise]),
    (replicate n EvCreateRowset ++ [EvSetCooldownMetaId] ++ bitmap ++ [revise]).
  split; [exact Hrun|].
  split; [cbn [trace with_world]; rewrite T2, <- !app_assoc; reflexivity|].
  left. exists to_add, s1, s2, bitmap. split; [exact Hcr|]. split.
  - cbv zeta. fold cooled. subst s2 bitmap sc.
    destruct (enable_unique_key_merge_on_write tablet cooled); split; reflexivity.
  - split; [exact Heq | reflexivity].
Qed.
